(** * A shallow embedding of the golf-statistics ETL pipeline

    The repository has three stages that hand data over through files:
    - [download_stats.py]  fetches one raw CSV per (stat, year);
    - [parse_stats.py]     normalises each raw CSV into a tidy
                           (year, player_name, value) table;
    - [build_master.py]    outer-joins the tidy tables of a year into one
                           season table and concatenates the years.

    Each stage is embedded below in a module named after its source file.
    Library calls ([pandas], [requests]) are modelled by small executable
    functions that follow the behaviour of the library versions the code
    was written for (pandas 1.x/2.x, requests 2.x); the one library
    function that is not modelled, [pd.to_numeric], is a section variable.
    Numeric cells are typed as pandas types them: the cells of a
    float64 column are IEEE binary64 values ([spec_float]), the cells of
    an int64 column are integers whose arithmetic wraps around, and a
    [player_name] column is a column of strings or of int64. *)

From Stdlib Require Import ZArith String Ascii List Permutation Sorted Lia.
From Stdlib Require Import SpecFloat.
From stdpp Require Import gmap strings list fin_maps pretty.
Import ListNotations.
Local Open Scope string_scope.
Local Open Scope list_scope.
Local Open Scope Z_scope.

(** ** Exceptions and results *)

(** One constructor per [raise] site (or per library exception the code
    catches); the payload is what the message is formatted from. *)
Inductive exn : Type :=
  | NoStatSpecEntry (stat_name : string)
      (* ValueError: "No STAT_SPEC entry for stat_name=..." *)
  | NoNumericColumn (stat_name : string) (available : list string)
      (* ValueError: "Could not identify a numeric value column ..." *)
  | StatNotInSpec (stat_name : string)
      (* ValueError: "stat_name ... not found in STAT_SPEC." *)
  | IndexError
      (* df.columns[0] on a table without columns *)
  | KeyError (column : string)
      (* selecting a column the frame does not have *)
  | FileNotFoundError (stat_name : string) (year : Z)
      (* "Missing intermediate file: <stat>_<year>.csv" *)
  | ReadError (stat_name : string) (year : Z)
      (* whatever pd.read_csv raises on a file it cannot parse *)
  | MissingKeyColumns (stat_name : string) (year : Z)
      (* ValueError: "... is missing 'year' or 'player_name' columns." *)
  | MissingValueColumn (stat_name : string) (year : Z) (col_name : string)
      (* ValueError: "... is missing value column ..." *)
  | NoDataForYear (year : Z) (stats_skipped stats_empty : list string)
      (* ValueError: "No intermediate files with data found for year ...
         Skipped: [...], Empty: [...]" *)
  | MergeDtypeError
      (* ValueError of pd.merge: "You are trying to merge on int64 and
         object columns for key 'player_name'" *)
  | ConnectionError
      (* requests.get itself raising: timeout, DNS, refused connection *)
  | HTTPError (status_code : Z).
      (* Response.raise_for_status *)

Inductive result (A : Type) : Type :=
  | Ok (a : A)
  | Raise (e : exn).
Arguments Ok {A} a.
Arguments Raise {A} e.

(** Exceptions propagate: [x ← r; k] runs [k] on the value of [r] and
    stops at the first [Raise]. *)
Global Instance result_bind : MBind result := fun A B k r =>
  match r with
  | Ok a => k a
  | Raise e => Raise e
  end.

Definition is_ok {A : Type} (r : result A) : bool :=
  match r with Ok _ => true | Raise _ => false end.

(** ** Floating-point cells *)

Definition float : Type := spec_float.
Definition fadd : float -> float -> float := SFadd 53 1024.
Definition fsub : float -> float -> float := SFsub 53 1024.

Definition is_nan (x : float) : bool :=
  match x with S754_nan => true | _ => false end.

Definition is_finite (x : float) : bool :=
  match x with S754_zero _ | S754_finite _ _ _ => true | _ => false end.

(** The binary64 value nearest to the literal [1e-6]. *)
Definition tol_1e_6 : float := S754_finite false 4722366482869645 (-72).

(** [abs(x - y) < 1e-6] in binary64, the comparison of
    [tests/test_data.py]; a NaN difference is not below the tolerance. *)
Definition within_tolerance (x y : float) : bool :=
  SFltb (SFabs (fsub x y)) tol_1e_6.

(** A stable insertion sort: [x] is placed before the first element [y]
    with [le x y], so elements that compare equal keep their order (as
    Python's [list.sort] and pandas' key sort do). *)
Section Sort.
Context {A : Type} (le : A -> A -> bool).

Fixpoint insert_sorted (x : A) (l : list A) : list A :=
  match l with
  | [] => [x]
  | y :: l' => if le x y then x :: y :: l' else y :: insert_sorted x l'
  end.

Fixpoint stable_sort (l : list A) : list A :=
  match l with
  | [] => []
  | x :: l' => insert_sorted x (stable_sort l')
  end.
End Sort.

(** ** Python string methods

    Strings are byte strings; the methods are modelled on ASCII, where
    [str.lower] changes only [A-Z] and the whitespace of [str.strip] and
    [str.split] is TAB, LF, VT, FF, CR, FS, GS, RS, US and SPACE. *)
Module Py.

Definition is_space (c : ascii) : bool :=
  let n := nat_of_ascii c in
  (Nat.leb 9 n && Nat.leb n 13) || (Nat.leb 28 n && Nat.leb n 32).

Definition lower_char (c : ascii) : ascii :=
  let n := nat_of_ascii c in
  if Nat.leb 65 n && Nat.leb n 90 then ascii_of_nat (n + 32) else c.

(** [s.lower()] *)
Fixpoint lower (s : string) : string :=
  match s with
  | EmptyString => EmptyString
  | String c s' => String (lower_char c) (lower s')
  end.

Fixpoint lstrip (s : string) : string :=
  match s with
  | EmptyString => EmptyString
  | String c s' => if is_space c then lstrip s' else s
  end.

Fixpoint rstrip (s : string) : string :=
  match s with
  | EmptyString => EmptyString
  | String c s' =>
      match rstrip s' with
      | EmptyString => if is_space c then EmptyString else String c EmptyString
      | r => String c r
      end
  end.

(** [s.strip()] *)
Definition strip (s : string) : string := rstrip (lstrip s).

(** [s.split()]: the maximal runs of non-whitespace characters.
    [word] is the run being read. *)
Fixpoint split_from (word : string) (s : string) : list string :=
  match s with
  | EmptyString => if String.eqb word "" then [] else [word]
  | String c s' =>
      if is_space c
      then (if String.eqb word "" then split_from "" s'
            else word :: split_from "" s')
      else split_from (word +:+ String c EmptyString) s'
  end.

Definition split (s : string) : list string := split_from "" s.

(** [sep.join(l)] *)
Definition join (sep : string) (l : list string) : string :=
  String.concat sep l.

(** [h in s] *)
Fixpoint contains (h s : string) : bool :=
  String.prefix h s
  || match s with
     | EmptyString => false
     | String _ s' => contains h s'
     end.

(** [s.replace(c, "", regex=False)] for a one-character [c] *)
Fixpoint remove_char (c : ascii) (s : string) : string :=
  match s with
  | EmptyString => EmptyString
  | String d s' =>
      if Ascii.eqb c d then remove_char c s' else String d (remove_char c s')
  end.

(** [d.get(k)] on a dict given as its list of items *)
Fixpoint dict_get {V : Type} (k : string) (d : list (string * V)) : option V :=
  match d with
  | [] => None
  | (k', v) :: d' => if String.eqb k k' then Some v else dict_get k d'
  end.

End Py.

(** ** [src/parse_stats.py] *)
Module ParseStats.

Record stat_spec := { output_col : string; hints : list string }.

Definition STAT_SPEC : list (string * stat_spec) :=
  [ ("sg_total",
      {| output_col := "sg_total";
         hints := ["mean"; "avg"; "average"; "sg:total"] |});
    ("sg_ott",
      {| output_col := "sg_off_the_tee";
         hints := ["mean"; "avg"; "average"] |});
    ("sg_app",
      {| output_col := "sg_approach";
         hints := ["mean"; "avg"; "average"] |});
    ("sg_arg",
      {| output_col := "sg_around_green";
         hints := ["mean"; "avg"; "average"] |});
    ("sg_putt",
      {| output_col := "sg_putting";
         hints := ["mean"; "avg"; "average"] |});
    ("driving_distance",
      {| output_col := "driving_distance";
         hints := ["avg"; "average"; "distance"] |});
    ("driving_accuracy",
      {| output_col := "driving_accuracy";
         hints := ["%"; "pct"; "accuracy"] |});
    ("greens_in_regulation",
      {| output_col := "greens_in_regulation";
         hints := ["%"; "pct"; "greens in reg"] |});
    ("scoring_average",
      {| output_col := "scoring_average";
         hints := ["avg"; "average"; "mean"] |});
    ("money_earned",
      {| output_col := "money_earned";
         hints := ["money"; "earnings"; "$"; "amount"] |});
    ("fedex_rank",
      {| output_col := "final_season_rank";
         hints := ["rank"; "points"; "fedexcup"; "strokes";
                   "finish position"] |}) ].

(** A raw table as [pd.read_csv] returns it.  A cell is either missing
    (NaN) or present; a present cell is kept as the text that
    [astype(str)] renders it to.  Rows shorter than the header are
    padded with missing cells, as [read_csv] does. *)
Inductive raw_cell : Type :=
  | RNull
  | RText (s : string).

Record RawFrame := { columns : list string; rows : list (list raw_cell) }.

(** [Series.astype(str)] in pandas 1.x/2.x: a missing cell becomes the
    three-character string [nan]. *)
Definition astype_str (c : raw_cell) : string :=
  match c with
  | RNull => "nan"
  | RText s => s
  end.

Fixpoint index_of (col : string) (cols : list string) : option nat :=
  match cols with
  | [] => None
  | c :: cols' =>
      if String.eqb col c then Some O
      else option_map S (index_of col cols')
  end.

(** [df[col]]: the cells of column [col], one per row *)
Definition column (df : RawFrame) (col : string) : list raw_cell :=
  match index_of col (columns df) with
  | Some i => map (fun row => nth i row RNull) (rows df)
  | None => []
  end.

Definition normalize_col_name (col : string) : string :=
  Py.join " " (Py.split (Py.lower (Py.strip col))).

Definition find_player_name_column (df : RawFrame) : result string :=
  let candidates :=
    flat_map
      (fun col =>
         let norm := normalize_col_name col in
         if Py.contains "player" norm && negb (Py.contains "id" norm)
         then [(0%nat, col)]
         else if Py.contains "name" norm then [(1%nat, col)]
         else [])
      (columns df) in
  match stable_sort (fun x y => Nat.leb (fst x) (fst y)) candidates with
  | (_, col) :: _ => Ok col
  | [] =>
      match columns df with
      | col :: _ => Ok col
      | [] => Raise IndexError
      end
  end.

(** The cleaning chain applied before [pd.to_numeric]:
    [.str.replace(",", "").str.replace("$", "").str.replace("%", "")
     .str.strip()] *)
Definition clean_numeric (s : string) : string :=
  Py.strip (Py.remove_char "%" (Py.remove_char "$" (Py.remove_char "," s))).

Definition bad_keywords : list string :=
  ["rank"; "this week"; "last week"; "event"; "tournament"; "round";
   "movement"].

(** A tidy record; [player_name] is an object cell, so it can hold a
    missing value. *)
Record tidy_record :=
  { year : Z; player_name : option string; value : float }.

Record TidyFrame :=
  { tidy_columns : list string; tidy_rows : list tidy_record }.

(** [out.dropna(subset=["player_name", output_col])] *)
Definition notna_record (r : tidy_record) : bool :=
  match player_name r with
  | None => false
  | Some _ => negb (is_nan (value r))
  end.

Definition dropna (l : list tidy_record) : list tidy_record :=
  filter (fun r => notna_record r) l.

(** [out.drop_duplicates(subset=["player_name"])], keep="first":
    [seen] holds the names of the rows already kept. *)
Fixpoint drop_duplicates_from (seen : list (option string))
    (l : list tidy_record) : list tidy_record :=
  match l with
  | [] => []
  | r :: l' =>
      if bool_decide (player_name r ∈ seen)
      then drop_duplicates_from seen l'
      else r :: drop_duplicates_from (player_name r :: seen) l'
  end.

Definition drop_duplicates (l : list tidy_record) : list tidy_record :=
  drop_duplicates_from [] l.

(** Column [col] carries one of the hints of [spec]: the test of the
    inner loop of [find_value_column]. *)
Definition matches_hint (spec : stat_spec) (col : string) : bool :=
  existsb (fun h => Py.contains h (normalize_col_name col))
          (map Py.lower (hints spec)).

(** The value-column rule in the specification's words: "first
    configured hint substring that matches a normalized column name,
    in hint-list order" - hints outside, columns inside. *)
Fixpoint first_hint_match (hints : list string) (cols : list string)
  : option string :=
  match hints with
  | [] => None
  | h :: hints' =>
      match find (fun col => Py.contains h (normalize_col_name col)) cols with
      | Some col => Some col
      | None => first_hint_match hints' cols
      end
  end.

(** An instance of [to_numeric] for examples: unsigned decimal integer
    literals are parsed (exactly, below 2^53), every other string is
    NaN. *)
Definition digit_value (c : ascii) : option Z :=
  let n := nat_of_ascii c in
  if Nat.leb 48 n && Nat.leb n 57 then Some (Z.of_nat n - 48) else None.

Fixpoint digits_value (acc : Z) (s : string) : option Z :=
  match s with
  | EmptyString => Some acc
  | String c s' =>
      match digit_value c with
      | Some d => digits_value (10 * acc + d) s'
      | None => None
      end
  end.

Definition to_numeric_int (s : string) : float :=
  match s with
  | EmptyString => S754_nan
  | _ =>
      match digits_value 0 s with
      | Some z => binary_normalize 53 1024 z 0 false
      | None => S754_nan
      end
  end.

Section WithToNumeric.

(** [pd.to_numeric(s, errors="coerce")] on one string: the parsed
    binary64 value, NaN when the string is not a number. *)
Variable to_numeric : string -> float.

Definition coerce (c : raw_cell) : float :=
  to_numeric (clean_numeric (astype_str c)).

Definition find_value_column (df : RawFrame) (stat_name : string)
  : result string :=
  match Py.dict_get stat_name STAT_SPEC with
  | None => Raise (NoStatSpecEntry stat_name)
  | Some spec =>
      let hints := map Py.lower (hints spec) in
      let norm_map :=
        map (fun col => (col, normalize_col_name col)) (columns df) in
      (* 1) hint-based matching: columns outside, hints inside *)
      match
        find (fun cn => existsb (fun h => Py.contains h (snd cn)) hints)
             norm_map
      with
      | Some (col, _) => Ok col
      | None =>
          (* 2) fallback: the densest numeric column *)
          player_col ← find_player_name_column df;
          let numeric_candidates :=
            flat_map
              (fun col =>
                 if String.eqb col player_col then []
                 else if existsb
                           (fun b => Py.contains b (normalize_col_name col))
                           bad_keywords
                 then []
                 else
                   let s := map coerce (column df col) in
                   let non_null :=
                     length (filter (fun x => negb (is_nan x)) s) in
                   if Nat.ltb 0 non_null then [(col, non_null)] else [])
              (columns df) in
          match
            stable_sort (fun x y => Nat.leb (snd y) (snd x))
                        numeric_candidates
          with
          | [] => Raise (NoNumericColumn stat_name (columns df))
          | (best_col, _) :: _ => Ok best_col
          end
      end
  end.

(** The frame [out] of [parse_one_file] before any row is dropped:
    [year] broadcast, the stripped names and the coerced values,
    one record per raw row. *)
Definition records (year_ : Z) (df_raw : RawFrame)
    (player_col value_col : string) : list tidy_record :=
  let value_series := map coerce (column df_raw value_col) in
  let name_series :=
    map (fun c => Some (Py.strip (astype_str c)))
        (column df_raw player_col) in
  map (fun nv => {| year := year_;
                    player_name := fst nv;
                    value := snd nv |})
      (combine name_series value_series).

(** [parse_one_file], from the point where the file stem has been
    split into [stat_name] and [year] and [pd.read_csv] has returned
    [df_raw]. *)
Definition parse_one_file (stat_name : string) (year_ : Z)
    (df_raw : RawFrame) : result TidyFrame :=
  match Py.dict_get stat_name STAT_SPEC with
  | None => Raise (StatNotInSpec stat_name)
  | Some spec =>
      player_col ← find_player_name_column df_raw;
      value_col ← find_value_column df_raw stat_name;
      let out := records year_ df_raw player_col value_col in
      (* Drop rows with missing player or value, then drop duplicate
         player rows *)
      let out := dropna out in
      let out := drop_duplicates out in
      Ok {| tidy_columns := ["year"; "player_name"; output_col spec];
            tidy_rows := out |}
  end.

End WithToNumeric.

End ParseStats.

(** ** [src/build_master.py] *)
Module BuildMaster.

(** [STAT_COLUMNS.items()], in insertion order *)
Definition STAT_COLUMNS : list (string * string) :=
  [ ("sg_total", "sg_total");
    ("sg_ott", "sg_off_the_tee");
    ("sg_app", "sg_approach");
    ("sg_arg", "sg_around_green");
    ("sg_putt", "sg_putting");
    ("driving_distance", "driving_distance");
    ("driving_accuracy", "driving_accuracy");
    ("greens_in_regulation", "greens_in_regulation");
    ("scoring_average", "scoring_average");
    ("money_earned", "money_earned");
    ("fedex_rank", "final_season_rank") ].

Definition expected_cols : list string :=
  [ "year"; "player_name"; "sg_total"; "sg_off_the_tee"; "sg_approach";
    "sg_around_green"; "sg_putting"; "driving_distance";
    "driving_accuracy"; "greens_in_regulation"; "scoring_average";
    "money_earned"; "final_season_rank"; "sg_tee_to_green" ].

(** A [player_name] key, as [pd.read_csv] types the column it stands
    in: the text of a cell of an object column, or the integer of an
    int64 column (a column in which every cell is an integer literal
    and none is missing).  Name columns that are read with another
    dtype (float64, bool) are outside the model. *)
Inductive name : Type :=
  | Str (s : string)
  | Int (n : Z).

Global Instance name_eq_dec : EqDecision name.
Proof. solve_decision. Defined.

Definition is_int (n : name) : bool :=
  match n with Int _ => true | Str _ => false end.

(** A cell of a stat column: a float of a float64 column (NaN is
    pandas' missing value), an integer of an int64 column, or Python's
    [None] in an object column. *)
Inductive cell : Type :=
  | PyNone
  | Float (x : float)
  | Int64 (z : Z).

(** [pd.isna] *)
Definition isna (c : cell) : bool :=
  match c with
  | PyNone => true
  | Float x => is_nan x
  | Int64 _ => false
  end.

Definition NaN : cell := Float S754_nan.

(** int64 arithmetic wraps around; an int64 becomes a float64 by
    rounding to the nearest value, ties to even. *)
Definition wrap64 (z : Z) : Z := (z + 2 ^ 63) mod 2 ^ 64 - 2 ^ 63.

Definition of_int64 (z : Z) : float := binary_normalize 53 1024 z 0 false.

(** What becomes of a cell when its column is converted to float64, as
    pandas does to an int64 column that has to hold NaN. *)
Definition upcast (c : cell) : cell :=
  match c with
  | Int64 z => Float (of_int64 z)
  | _ => c
  end.

Definition cast_if (b : bool) (c : cell) : cell :=
  if b then upcast c else c.

(** A record of a tidy CSV: what stands under the headers [year],
    [player_name] and the stat's column. *)
Record record :=
  { rec_year : Z; rec_player_name : option name; rec_value : cell }.

(** The data rows of a tidy CSV as [pd.read_csv] types them.  Every
    column has one dtype.  The player names are strings (an object
    column, a missing name is [None]) or integers (int64); the values
    are floats (float64, a missing value is NaN) or integers (int64);
    the years are integers. *)
Inductive table : Type :=
  | ObjectFloat64 (l : list (Z * option string * float))
  | ObjectInt64 (l : list (Z * option string * Z))
  | Int64Float64 (l : list (Z * Z * float))
  | Int64Int64 (l : list (Z * Z * Z)).

Definition records (t : table) : list record :=
  match t with
  | ObjectFloat64 l =>
      map (fun x => {| rec_year := x.1.1;
                       rec_player_name := option_map Str x.1.2;
                       rec_value := Float x.2 |}) l
  | ObjectInt64 l =>
      map (fun x => {| rec_year := x.1.1;
                       rec_player_name := option_map Str x.1.2;
                       rec_value := Int64 x.2 |}) l
  | Int64Float64 l =>
      map (fun x => {| rec_year := x.1.1;
                       rec_player_name := Some (Int x.1.2);
                       rec_value := Float x.2 |}) l
  | Int64Int64 l =>
      map (fun x => {| rec_year := x.1.1;
                       rec_player_name := Some (Int x.1.2);
                       rec_value := Int64 x.2 |}) l
  end.

(** A tidy CSV on disk, as [pd.read_csv] sees it: unparseable, or a
    header and data rows. *)
Inductive csv_file : Type :=
  | Unreadable
  | Csv (header : list string) (data : table).

(** [data/intermediate/]: the file [<stat>_<year>.csv] is keyed by the
    two components of its stem. *)
Abbreviation inter_dir := (gmap (string * Z) csv_file).

(** A row of a frame that carries the join keys: the two key cells and
    the cells of the other columns, each under its column name, in
    column order. *)
Record row :=
  { year : Z; player_name : name; cells : list (string * cell) }.

Record DataFrame := { columns : list string; rows : list row }.

Definition key_columns : list string := ["year"; "player_name"].

Definition value_columns (cols : list string) : list string :=
  filter (fun c => c ∉ key_columns) cols.

Definition key (r : row) : Z * name := (year r, player_name r).

(** The order of a name column: numbers by value, strings by their
    bytes.  A frame never holds both (see [merge]); between a number
    and a string the order is never consulted. *)
Definition name_leb (a b : name) : bool :=
  match a, b with
  | Int m, Int n => m <=? n
  | Str s, Str t => String.leb s t
  | Int _, Str _ => true
  | Str _, Int _ => false
  end.

Definition key_leb (a b : row) : bool :=
  (year a <? year b)
  || ((year a =? year b) && name_leb (player_name a) (player_name b)).

(** [df[c]] at one row; frames are rectangular, so the default is never
    read on a column of the frame. *)
Definition get_cell (r : row) (c : string) : cell :=
  default NaN (Py.dict_get c (cells r)).

(** A row of cells given column by column. *)
Definition tabulate (cols : list string) (f : string -> cell)
  : list (string * cell) :=
  map (fun c => (c, f c)) cols.

(** Overwrite the cell under [c], or append it. *)
Fixpoint set_cell (c : string) (v : cell) (l : list (string * cell))
  : list (string * cell) :=
  match l with
  | [] => [(c, v)]
  | (k, x) :: l' =>
      if String.eqb c k then (k, v) :: l' else (k, x) :: set_cell c v l'
  end.

Definition load_stat_for_year (dir : inter_dir)
    (stat_name : string) (year_ : Z) (col_name : string)
  : result (option DataFrame) :=
  match dir !! (stat_name, year_) with
  | None => Raise (FileNotFoundError stat_name year_)
  | Some Unreadable => Raise (ReadError stat_name year_)
  | Some (Csv header data) =>
      if Nat.eqb (length (records data)) 0 then Ok None
      else if negb (bool_decide ("year" ∈ header))
              || negb (bool_decide ("player_name" ∈ header))
      then Raise (MissingKeyColumns stat_name year_)
      else if negb (bool_decide (col_name ∈ header))
      then Raise (MissingValueColumn stat_name year_ col_name)
      else
        (* df[df["player_name"].notna()] and the three-column selection *)
        let df :=
          omap (fun rec =>
                  match rec_player_name rec with
                  | None => None
                  | Some p =>
                      Some {| year := rec_year rec;
                              player_name := p;
                              cells := [(col_name, rec_value rec)] |}
                  end)
               (records data) in
        if Nat.eqb (length df) 0 then Ok None
        else Ok (Some {| columns := ["year"; "player_name"; col_name];
                         rows := df |})
  end.

(** [pd.merge(left, right, on=["year", "player_name"], how="outer")].

    The key columns have to go together: when both frames have rows,
    string names on one side and int64 names on the other make pandas
    raise ("You are trying to merge on int64 and object columns").

    Every left row is paired with each right row of the same key, or
    padded with NaN when there is none; right rows without a partner
    follow, padded on the left.  A side that is padded has to hold
    NaN: its int64 columns become float64.  An outer merge returns the
    keys in sorted order.  (Stat columns never collide, so the
    [_x]/[_y] suffixes of pandas play no role.) *)

(** The names of the frame are int64. *)
Definition int64_keys (df : DataFrame) : bool :=
  forallb (fun r => is_int (player_name r)) (rows df).

(** The rows of one side whose key the other side lacks. *)
Definition unmatched (side other : DataFrame) : list row :=
  filter (fun r => key r ∉ map key (rows other)) (rows side).

(** The cells a row of one side brings into the merge: converted to
    float64 when the other side has a key this side lacks. *)
Definition merge_cell (side other : DataFrame) (r : row) (c : string)
  : cell :=
  cast_if (negb (Nat.eqb (length (unmatched other side)) 0)) (get_cell r c).

(** The merged row of key [k]: the left columns read with [fl], the
    right ones with [fr]. *)
Definition merged_row (lcols rcols : list string) (k : Z * name)
    (fl fr : string -> cell) : row :=
  {| year := fst k; player_name := snd k;
     cells := tabulate (lcols ++ rcols)
                (fun c => if bool_decide (c ∈ lcols) then fl c else fr c) |}.

Definition outer_join (left right : DataFrame) : DataFrame :=
  let lcols := value_columns (columns left) in
  let rcols := value_columns (columns right) in
  let matched :=
    flat_map
      (fun l =>
         match filter (fun r => key r = key l) (rows right) with
         | [] => [merged_row lcols rcols (key l) (merge_cell left right l)
                    (fun _ => NaN)]
         | ms =>
             map (fun r =>
                    merged_row lcols rcols (key l) (merge_cell left right l)
                      (merge_cell right left r))
                 ms
         end)
      (rows left) in
  let right_only :=
    map (fun r =>
           merged_row lcols rcols (key r) (fun _ => NaN)
             (merge_cell right left r))
        (unmatched right left) in
  {| columns := columns left ++ rcols;
     rows := stable_sort key_leb (matched ++ right_only) |}.

Definition merge (left right : DataFrame) : result DataFrame :=
  if negb (Nat.eqb (length (rows left)) 0)
     && negb (Nat.eqb (length (rows right)) 0)
     && negb (Bool.eqb (int64_keys left) (int64_keys right))
  then Raise MergeDtypeError
  else Ok (outer_join left right).

(** [functools.reduce(f, frames)] for a list [first :: rest] and an
    [f] that may raise. *)
Fixpoint reduce (f : DataFrame -> DataFrame -> result DataFrame)
    (acc : DataFrame) (rest : list DataFrame) : result DataFrame :=
  match rest with
  | [] => Ok acc
  | x :: rest' => acc' ← f acc x; reduce f acc' rest'
  end.

(** Addition of two numeric columns, cell by cell: two int64 columns
    give an int64 column, the sum wrapping around; an int64 column is
    converted to float64 before it is added to a float64 column.  A
    missing operand gives NaN. *)
Definition cell_add (a b : cell) : cell :=
  match a, b with
  | Int64 x, Int64 y => Int64 (wrap64 (x + y))
  | Float x, Float y => Float (fadd x y)
  | Int64 x, Float y => Float (fadd (of_int64 x) y)
  | Float x, Int64 y => Float (fadd x (of_int64 y))
  | _, _ => NaN
  end.

(** [df[c] = f(df)]: overwrite column [c], or append it. *)
Definition set_column (c : string) (f : row -> cell) (df : DataFrame)
  : DataFrame :=
  {| columns := if bool_decide (c ∈ columns df) then columns df
                else columns df ++ [c];
     rows := map (fun r => {| year := year r; player_name := player_name r;
                              cells := set_cell c (f r) (cells r) |})
                 (rows df) |}.

(** [df[cols]] for a list [cols] that starts with the two key columns *)
Definition select (cols : list string) (df : DataFrame) : result DataFrame :=
  match find (fun c => bool_decide (c ∉ columns df)) cols with
  | Some c => Raise (KeyError c)
  | None =>
      Ok {| columns := cols;
            rows := map (fun r =>
                           {| year := year r; player_name := player_name r;
                              cells := tabulate (value_columns cols)
                                         (get_cell r) |})
                        (rows df) |}
  end.

(** [df.sort_values(["year", "player_name"]).reset_index(drop=True)] *)
Definition sort_values (df : DataFrame) : DataFrame :=
  {| columns := columns df; rows := stable_sort key_leb (rows df) |}.

(** The four lists the loading loop of [build_for_year] fills. *)
Record loaded :=
  { frames : list DataFrame;
    stats_loaded : list string;
    stats_skipped : list string;
    stats_empty : list string }.

Definition load_step (dir : inter_dir) (year_ : Z) (acc : loaded)
    (item : string * string) : loaded :=
  let '(stat_name, col_name) := item in
  match load_stat_for_year dir stat_name year_ col_name with
  | Ok None =>
      {| frames := frames acc;
         stats_loaded := stats_loaded acc;
         stats_skipped := stats_skipped acc;
         stats_empty := stats_empty acc ++ [stat_name] |}
  | Ok (Some df_stat) =>
      {| frames := frames acc ++ [df_stat];
         stats_loaded := stats_loaded acc ++ [stat_name];
         stats_skipped := stats_skipped acc;
         stats_empty := stats_empty acc |}
  | Raise _ =>
      (* both except branches: FileNotFoundError and Exception *)
      {| frames := frames acc;
         stats_loaded := stats_loaded acc;
         stats_skipped := stats_skipped acc ++ [stat_name];
         stats_empty := stats_empty acc |}
  end.

Definition load_all (dir : inter_dir) (year_ : Z) : loaded :=
  fold_left (load_step dir year_) STAT_COLUMNS
    {| frames := []; stats_loaded := []; stats_skipped := [];
       stats_empty := [] |}.

Definition sg_components : list string :=
  ["sg_off_the_tee"; "sg_approach"; "sg_around_green"].

Definition tee_to_green (r : row) : cell :=
  cell_add (cell_add (get_cell r "sg_off_the_tee")
                     (get_cell r "sg_approach"))
           (get_cell r "sg_around_green").

Definition add_tee_to_green (merged : DataFrame) : DataFrame :=
  if forallb (fun c => bool_decide (c ∈ columns merged)) sg_components
  then set_column "sg_tee_to_green" tee_to_green merged
  else merged.

(** The loop [for col in expected_cols: if col not in merged.columns:
    merged[col] = None], over the list it runs on. *)
Definition backfill (cols : list string) (merged : DataFrame) : DataFrame :=
  fold_left
    (fun m col =>
       if bool_decide (col ∈ columns m) then m
       else set_column col (fun _ => PyNone) m)
    cols merged.

Definition build_for_year (dir : inter_dir) (year_ : Z) : result DataFrame :=
  let st := load_all dir year_ in
  match frames st with
  | [] => Raise (NoDataForYear year_ (stats_skipped st) (stats_empty st))
  | first :: rest =>
      merged ← reduce merge first rest;
      let merged := add_tee_to_green merged in
      let merged := backfill expected_cols merged in
      merged ← select expected_cols merged;
      Ok (sort_values merged)
  end.

(** [pd.concat(dfs, ignore_index=True)]: the columns are the union in
    order of first appearance; each frame's rows follow the previous
    frame's, re-indexed to the union with NaN for absent columns.  A
    column that is float64 in one of the frames is float64 in the
    result, so the int64 cells the other frames have in it are
    converted.  The frames are kept as [to_csv] writes them: [None]
    and NaN are both written as the empty field and are not told
    apart. *)
Definition concat_columns (dfs : list DataFrame) : list string :=
  fold_left
    (fun acc df => acc ++ filter (fun c => c ∉ acc) (columns df))
    dfs [].

Definition is_float (c : cell) : bool :=
  match c with Float _ => true | _ => false end.

(** Column [c] holds floats in one of the frames. *)
Definition float64_in (c : string) (dfs : list DataFrame) : bool :=
  existsb (fun df => existsb (fun r => is_float (get_cell r c)) (rows df))
          dfs.

Definition concat (dfs : list DataFrame) : DataFrame :=
  let cols := concat_columns dfs in
  {| columns := cols;
     rows :=
       flat_map
         (fun df =>
            map (fun r =>
                   {| year := year r; player_name := player_name r;
                      cells := tabulate (value_columns cols)
                                 (fun c => cast_if (float64_in c dfs)
                                             (get_cell r c)) |})
                (rows df))
         dfs |}.

(** [data/processed/]: the per-year files [master_<year>.csv] and the
    all-years file [master_player_seasons.csv]. *)
Record proc_dir :=
  { master_year : gmap Z DataFrame;
    master_player_seasons : option DataFrame }.

(** The years found in the stems of [data/intermediate/*.csv],
    [sorted(years)]. *)
Definition discover_years (dir : inter_dir) : list Z :=
  stable_sort Z.leb (elements (set_map (D:=gset Z) snd (dom dir))).

(** The [for y in years] loop of [main]; a year that raises ends the
    run and leaves the files written so far. *)
Fixpoint main_loop (dir : inter_dir) (years : list Z) (out : proc_dir)
    (all_years : list DataFrame) : proc_dir * result (list DataFrame) :=
  match years with
  | [] => (out, Ok all_years)
  | y :: years' =>
      match build_for_year dir y with
      | Raise e => (out, Raise e)
      | Ok df_year =>
          main_loop dir years'
            {| master_year := <[y := df_year]> (master_year out);
               master_player_seasons := master_player_seasons out |}
            (all_years ++ [df_year])
      end
  end.

Definition main (dir : inter_dir) (out : proc_dir) : proc_dir * result unit :=
  match discover_years dir with
  | [] => (out, Ok tt)
  | years =>
      match main_loop dir years out [] with
      | (out', Raise e) => (out', Raise e)
      | (out', Ok all_years) =>
          ({| master_year := master_year out';
              master_player_seasons := Some (concat all_years) |}, Ok tt)
      end
  end.

End BuildMaster.

(** ** [src/download_stats.py] *)
Module DownloadStats.

Definition YEARS : list Z :=
  [2007; 2008; 2009; 2010; 2011; 2012; 2013; 2014; 2015; 2016; 2017; 2018;
   2019; 2020; 2021; 2022; 2023; 2024; 2025].

Definition STAT_IDS : list (string * string) :=
  [ ("sg_total", "02675"); ("sg_ott", "02567"); ("sg_app", "02568");
    ("sg_arg", "02569"); ("sg_putt", "02564");
    ("driving_distance", "101"); ("driving_accuracy", "102");
    ("greens_in_regulation", "103"); ("scoring_average", "120");
    ("money_earned", "109"); ("fedex_rank", "02671") ].

(** [BASE_URL.format(stat_id=..., year=...)] *)
Definition BASE_URL (stat_id : string) (year : Z) : string :=
  "https://www.pgatour.com/api/stats-download"
  +:+ "?timePeriod=THROUGH_EVENT"
  +:+ "&tourCode=R"
  +:+ "&statsId=" +:+ stat_id
  +:+ "&year=" +:+ pretty year.

(** [RAW_DIR / f"{stat_name}_{year}.csv"] *)
Definition out_path (stat_name : string) (year : Z) : string :=
  "data/raw/" +:+ stat_name +:+ "_" +:+ pretty year +:+ ".csv".

Record Response := { status_code : Z; content : list Byte.byte }.

(** [Response.raise_for_status] of requests: an [HTTPError] for the
    client-error (4xx) and server-error (5xx) statuses, nothing
    otherwise. *)
Definition raise_for_status (resp : Response) : result unit :=
  if (400 <=? status_code resp) && (status_code resp <? 600)
  then Raise (HTTPError (status_code resp))
  else Ok tt.

(** The statuses HTTP calls successful. *)
Definition is_success (status : Z) : bool :=
  (200 <=? status) && (status <? 300).

(** The files under [data/raw/], by path. *)
Abbreviation raw_dir := (gmap string (list Byte.byte)).

Section WithNetwork.

(** [requests.get(url, timeout=30)]: a response, or an exception of
    the transport. *)
Variable requests_get : string -> result Response.

Definition download_stat_csv (stat_name stat_id : string) (year : Z)
    (fs : raw_dir) : raw_dir * result unit :=
  let url := BASE_URL stat_id year in
  let out_path := out_path stat_name year in
  match requests_get url with
  | Raise e => (fs, Raise e)
  | Ok resp =>
      match raise_for_status resp with
      | Raise e => (fs, Raise e)
      | Ok _ => (<[out_path := content resp]> fs, Ok tt)
      end
  end.

(** The two nested loops of [main]; the first exception ends the run. *)
Fixpoint download_stats (stats : list (string * string)) (year : Z)
    (fs : raw_dir) : raw_dir * result unit :=
  match stats with
  | [] => (fs, Ok tt)
  | (stat_name, stat_id) :: stats' =>
      match download_stat_csv stat_name stat_id year fs with
      | (fs', Ok _) => download_stats stats' year fs'
      | (fs', Raise e) => (fs', Raise e)
      end
  end.

Fixpoint download_years (years : list Z) (fs : raw_dir)
  : raw_dir * result unit :=
  match years with
  | [] => (fs, Ok tt)
  | year :: years' =>
      match download_stats STAT_IDS year fs with
      | (fs', Ok _) => download_years years' fs'
      | (fs', Raise e) => (fs', Raise e)
      end
  end.

Definition main (fs : raw_dir) : raw_dir * result unit :=
  download_years YEARS fs.

End WithNetwork.

End DownloadStats.

(** ** The hand-off from the normaliser to the merger *)
Module Handoff.
Import BuildMaster.

(** The strings [pd.read_csv] reads as a missing value by default. *)
Definition na_values : list string :=
  [ ""; "#N/A"; "#N/A N/A"; "#NA"; "-1.#IND"; "-1.#QNAN"; "-NaN"; "-nan";
    "1.#IND"; "1.#QNAN"; "<NA>"; "N/A"; "NA"; "NULL"; "NaN"; "None";
    "n/a"; "nan"; "null" ].

Definition is_na (p : option string) : bool :=
  match p with
  | Some s => bool_decide (s ∈ na_values)
  | None => true
  end.

(** A name that is an unsigned integer literal of at most 18 digits:
    it fits int64 whatever the digits. *)
Definition int64_literal (p : option string) : option Z :=
  match p with
  | Some s =>
      if Nat.ltb 0 (String.length s) && Nat.leb (String.length s) 18
      then ParseStats.digits_value 0 s
      else None
  | None => None
  end.

(** Characters that occur in no number, boolean or missing-value
    literal of [pd.read_csv]: the letters outside [e], [inf], [nan],
    [infinity], [true], [false] and the hexadecimal digits.  A name
    with such a character, not itself an NA string, is text, and makes
    its column an object column.  (The blank is not one of them: the
    parser skips blanks around a number.) *)
Definition text_chars : list ascii :=
  list_ascii_of_string "ghkmoqvwzGHKMOQVWZ".

Definition is_text (p : option string) : bool :=
  match p with
  | Some s =>
      negb (bool_decide (s ∈ na_values))
      && existsb (fun c => bool_decide (c ∈ text_chars))
           (list_ascii_of_string s)
  | None => false
  end.

Definition read_text (p : option string) : option name :=
  if is_na p then None else option_map Str p.

(** The [player_name] column of a tidy file as [pd.read_csv] types it.
    - Every name is an integer literal: the column is int64.
    - Some name is text, or every name is missing: the names come back
      as the strings written, a name that spells an NA string as
      missing.
    - Otherwise (every name reads as a number, a boolean or a missing
      value, and not all as integers) the column is read with a dtype
      that is outside the model. *)
Definition read_csv_names (names : list (option string))
  : option (list (option name)) :=
  match names, mapM int64_literal names with
  | _ :: _, Some ints => Some (map (fun n => Some (Int n)) ints)
  | _, _ =>
      if existsb is_text names || forallb is_na names
      then Some (map read_text names)
      else None
  end.

(** [df.to_csv(out_path, index=False)] in [parse_stats.main], then
    [pd.read_csv(path)] in [load_stat_for_year].  The header is the
    frame's columns and the years come back as written; the names come
    back as [read_csv_names] types them.  Nothing is said of the values:
    a column is read back as int64 or as float64, and the default float
    parser need not return the float that was written. *)
Definition read_back (out : ParseStats.TidyFrame) (file : csv_file) : Prop :=
  ∃ data,
    file = Csv (ParseStats.tidy_columns out) data
    ∧ map rec_year (records data)
      = map ParseStats.year (ParseStats.tidy_rows out)
    ∧ read_csv_names (map ParseStats.player_name (ParseStats.tidy_rows out))
      = Some (map rec_player_name (records data)).

(** Every tidy file of year [y] in the directory was written from an
    output of [parse_one_file] for that stat and year. *)
Definition produced_by_parse_one_file (to_numeric : string -> float)
    (dir : inter_dir) (y : Z) : Prop :=
  ∀ s file,
    dir !! (s, y) = Some file ->
    ∃ df_raw out,
      ParseStats.parse_one_file to_numeric s y df_raw = Ok out
      ∧ read_back out file.

(** The player names of the file are read as strings. *)
Definition object_names (file : csv_file) : Prop :=
  ∀ header data rec n,
    file = Csv header data ->
    rec ∈ records data -> rec_player_name rec = Some n -> is_int n = false.

End Handoff.

(** ** [parse_stats.main] *)

Module ParseStatsMain.
Import ParseStats.

(** The raw files [main] goes through, in the sorted order of their
    paths: the stat and the year of a file's name with the table
    [pd.read_csv] makes of it.  A file whose name or content
    [parse_one_file] cannot read raises there, is skipped by the
    [except] of [main] and writes nothing; such files are left out of
    the list. *)
Abbreviation raw_files := (list (string * Z * RawFrame)).

(** [data/intermediate/] as [main] writes it: under the stem of each
    file, the tidy frame that [to_csv] wrote. *)
Abbreviation tidy_dir := (gmap (string * Z) TidyFrame).

Section WithToNumeric.

Variable to_numeric : string -> float.

Fixpoint main (raws : raw_files) (dir : tidy_dir) : tidy_dir :=
  match raws with
  | [] => dir
  | (stat_name, year_, df_raw) :: raws' =>
      match parse_one_file to_numeric stat_name year_ df_raw with
      | Raise _ => main raws' dir
      | Ok df => main raws' (<[(stat_name, year_) := df]> dir)
      end
  end.

End WithToNumeric.

End ParseStatsMain.

(** ** From [parse_stats.main] to [build_master.main] *)

Module Pipeline.

(** [build_master] reads the directory [parse_stats] wrote: each tidy
    file comes back as [Handoff.read_back] says. *)
Definition read_dir (written : ParseStatsMain.tidy_dir)
    (dir : BuildMaster.inter_dir) : Prop :=
  ∀ k,
    match written !! k with
    | Some out => ∃ file, dir !! k = Some file ∧ Handoff.read_back out file
    | None => dir !! k = None
    end.

End Pipeline.

(** ** Example inputs *)

Module ParseStatsExamples.
Import ParseStats.

(** A header in which [AVG] stands before [MEAN]. *)
Definition avg_before_mean : RawFrame :=
  {| columns := ["PLAYER"; "AVG"; "MEAN"]; rows := [] |}.

(** A raw table whose only row has an empty player cell. *)
Definition null_player_table : RawFrame :=
  {| columns := ["PLAYER"; "AVG"]; rows := [[RNull; RText "71"]] |}.

(** Two rows for one player; the value of the first does not coerce. *)
Definition repeated_player_table : RawFrame :=
  {| columns := ["PLAYER"; "AVG"];
     rows := [ [RText "Tiger Woods"; RText "n/a"];
               [RText "Tiger Woods"; RText "69"] ] |}.

(** Two players with their driving distance. *)
Definition distance_table : ParseStats.RawFrame :=
  {| ParseStats.columns := ["PLAYER"; "AVG"];
     ParseStats.rows :=
       [ [ParseStats.RText "Tiger Woods"; ParseStats.RText "301"];
         [ParseStats.RText "Rory McIlroy"; ParseStats.RText "320"] ] |}.

(** The tidy frame [parse_one_file] returns for a 2024 file. *)
Definition parsed (stat_name : string) (df_raw : ParseStats.RawFrame)
  : ParseStats.TidyFrame :=
  match ParseStats.parse_one_file ParseStats.to_numeric_int stat_name 2024
          df_raw with
  | Ok out => out
  | Raise _ => {| ParseStats.tidy_columns := []; ParseStats.tidy_rows := [] |}
  end.

End ParseStatsExamples.

Module DownloadStatsExamples.
Import DownloadStats.

(** A client error, and a status that is neither an error nor a
    success. *)
Definition not_found : Response := {| status_code := 404; content := [] |}.
Definition not_modified : Response :=
  {| status_code := 304; content := [] |}.

End DownloadStatsExamples.

(** ** Notions used to state the merger's properties *)

Module BuildMasterSpec.
Import BuildMaster.

(** The row a tidy record is loaded as; records without a player name
    are filtered out. *)
Definition row_of_record (col_name : string) (rec : record) : option row :=
  match rec_player_name rec with
  | None => None
  | Some p =>
      Some {| year := rec_year rec; player_name := p;
              cells := [(col_name, rec_value rec)] |}
  end.

(** What one pass of the loading loop adds to the four lists. *)
Definition frame_of (dir : inter_dir) (year_ : Z) (item : string * string)
  : option (string * DataFrame) :=
  match load_stat_for_year dir item.1 year_ item.2 with
  | Ok (Some df) => Some (item.2, df)
  | _ => None
  end.

Definition skipped_of (dir : inter_dir) (year_ : Z) (item : string * string)
  : option string :=
  match load_stat_for_year dir item.1 year_ item.2 with
  | Raise _ => Some item.1
  | _ => None
  end.

Definition empty_of (dir : inter_dir) (year_ : Z) (item : string * string)
  : option string :=
  match load_stat_for_year dir item.1 year_ item.2 with
  | Ok None => Some item.1
  | _ => None
  end.

(** The frames that load for a year, each with its column. *)
Definition loaded_frames (dir : inter_dir) (year_ : Z)
  : list (string * DataFrame) :=
  omap (frame_of dir year_) STAT_COLUMNS.

(** The frames that load for the year have their player names of one
    dtype: all strings, or all int64. *)
Definition same_key_dtype (dfs : list DataFrame) : bool :=
  match dfs with
  | [] => true
  | first :: rest =>
      forallb (fun df => Bool.eqb (int64_keys df) (int64_keys first)) rest
  end.

Definition keys_agree (dir : inter_dir) (year_ : Z) : Prop :=
  ∀ s c df s' c' df',
    (s, c) ∈ STAT_COLUMNS -> (s', c') ∈ STAT_COLUMNS ->
    load_stat_for_year dir s year_ c = Ok (Some df) ->
    load_stat_for_year dir s' year_ c' = Ok (Some df') ->
    int64_keys df = int64_keys df'.

(** Two stats load for the year, one with int64 names and one with
    strings. *)
Definition keys_clash (dir : inter_dir) (year_ : Z) : Prop :=
  ∃ s c df s' c' df',
    (s, c) ∈ STAT_COLUMNS ∧ (s', c') ∈ STAT_COLUMNS
    ∧ load_stat_for_year dir s year_ c = Ok (Some df)
    ∧ load_stat_for_year dir s' year_ c' = Ok (Some df')
    ∧ int64_keys df = true ∧ int64_keys df' = false.

(** No configured stat loads a frame for the year. *)
Definition no_data (dir : inter_dir) (year_ : Z) : Prop :=
  ∀ s c df, (s, c) ∈ STAT_COLUMNS ->
            load_stat_for_year dir s year_ c ≠ Ok (Some df).

(** The three kinds of rows of an outer join. *)
Inductive merge_case (L R : DataFrame) (r : row) : Prop :=
  | left_only (l : row) :
      l ∈ rows L ->
      (∀ r', r' ∈ rows R -> key r' ≠ key l) ->
      r = merged_row (value_columns (columns L)) (value_columns (columns R))
            (key l) (merge_cell L R l) (fun _ => NaN) ->
      merge_case L R r
  | both (l r' : row) :
      l ∈ rows L ->
      r' ∈ rows R ->
      key r' = key l ->
      r = merged_row (value_columns (columns L)) (value_columns (columns R))
            (key l) (merge_cell L R l) (merge_cell R L r') ->
      merge_case L R r
  | right_only (r' : row) :
      r' ∈ rows R ->
      key r' ∉ map key (rows L) ->
      r = merged_row (value_columns (columns L)) (value_columns (columns R))
            (key r') (fun _ => NaN) (merge_cell R L r') ->
      merge_case L R r.

(** Frame [M] has a row whose key frame [F] lacks: in a merge the
    columns of [F] are padded with NaN for that row, which makes its
    int64 columns float64. *)
Definition padded (F M : DataFrame) : bool :=
  negb (Nat.eqb (length (unmatched M F)) 0).

(** [S] lists the frames merged so far, each with its stat column. *)
Definition stat_frames_ok (S : list (string * DataFrame)) : Prop :=
  NoDup (map fst S)
  ∧ ∀ c F, (c, F) ∈ S ->
           (c ∉ key_columns) ∧ columns F = key_columns ++ [c].

Record merged_inv (S : list (string * DataFrame)) (M : DataFrame) : Prop :=
  { inv_columns : columns M = key_columns ++ map fst S;
    inv_cells :
      ∀ r c F, r ∈ rows M -> (c, F) ∈ S ->
        (∃ f, f ∈ rows F ∧ key f = key r
              ∧ get_cell r c = cast_if (padded F M) (get_cell f c))
        ∨ ((∀ f, f ∈ rows F -> key f ≠ key r) ∧ get_cell r c = NaN);
    inv_keys :
      ∀ c F f, (c, F) ∈ S -> f ∈ rows F -> key f ∈ map key (rows M);
    inv_keys_from :
      ∀ r, r ∈ rows M -> ∃ c F f, (c, F) ∈ S ∧ f ∈ rows F ∧ key f = key r;
    inv_nodup :
      (∀ c F, (c, F) ∈ S -> NoDup (map key (rows F))) ->
      NoDup (map key (rows M)) }.

(** The cell of column [c] that [build_for_year] returns for the merged
    row [r] of the merged frame [M]. *)
Definition final_cell (M : DataFrame) (r : row) (c : string) : cell :=
  if decide (c = "sg_tee_to_green")
  then (if forallb (fun c => bool_decide (c ∈ columns M)) sg_components
        then tee_to_green r else PyNone)
  else if decide (c ∈ columns M) then get_cell r c else PyNone.

Definition final_row (M : DataFrame) (r : row) : row :=
  {| year := year r; player_name := player_name r;
     cells := tabulate (value_columns expected_cols) (final_cell M r) |}.

(** The joined frame of a year, when at least one stat loads. *)
Definition merged_frame (dir : inter_dir) (year_ : Z) : option DataFrame :=
  match loaded_frames dir year_ with
  | [] => None
  | first :: rest => Some (fold_left outer_join (map snd rest) first.2)
  end.

(** The output of [build_for_year] has the expected shape. *)
Definition season_frame (df : DataFrame) : Prop :=
  columns df = expected_cols
  ∧ ∀ r, r ∈ rows df ->
         ∃ f, cells r = tabulate (value_columns expected_cols) f.

(** A row of a year's frame as it stands in the all-years table: in a
    column that holds floats in some year, an int64 cell is converted
    to float64. *)
Definition as_concatenated (dfs : list DataFrame) (r : row) : row :=
  {| year := year r; player_name := player_name r;
     cells := tabulate (value_columns expected_cols)
                (fun c => cast_if (float64_in c dfs) (get_cell r c)) |}.

(** [abs(t - s) < 1e-6] as pandas evaluates it on two cells of numeric
    columns: in int64 when both are int64 (the difference and its
    absolute value wrap around), in float64 otherwise. *)
Definition cell_sub (a b : cell) : cell :=
  match a, b with
  | Int64 x, Int64 y => Int64 (wrap64 (x - y))
  | Float x, Float y => Float (fsub x y)
  | Int64 x, Float y => Float (fsub (of_int64 x) y)
  | Float x, Int64 y => Float (fsub x (of_int64 y))
  | _, _ => NaN
  end.

Definition below_tolerance (d : cell) : bool :=
  match d with
  | Float x => SFltb (SFabs x) tol_1e_6
  | Int64 z => wrap64 (Z.abs z) <? 1
  | PyNone => false
  end.

Definition cells_close (t s : cell) : bool := below_tolerance (cell_sub t s).

Definition is_infinite (c : cell) : bool :=
  match c with
  | Float (S754_infinity _) => true
  | _ => false
  end.

End BuildMasterSpec.

Module BuildMasterExamples.
Import BuildMaster ParseStatsExamples.

Definition tidy (y : Z) (p : string) (v : float)
  : Z * option string * float := (y, Some p, v).

Definition one : float := ParseStats.to_numeric_int "1".
Definition two : float := ParseStats.to_numeric_int "2".

(** 2023: off-the-tee only.  2024: the three tee-to-green components,
    with player B missing from two of them. *)
Definition two_years : inter_dir :=
  list_to_map
    [ (("sg_ott", 2024),
        Csv ["year"; "player_name"; "sg_off_the_tee"]
            (ObjectFloat64 [tidy 2024 "B" one; tidy 2024 "A" two]));
      (("sg_app", 2024),
        Csv ["year"; "player_name"; "sg_approach"]
            (ObjectFloat64 [tidy 2024 "A" one]));
      (("sg_arg", 2024),
        Csv ["year"; "player_name"; "sg_around_green"]
            (ObjectFloat64 [tidy 2024 "A" one]));
      (("sg_ott", 2023),
        Csv ["year"; "player_name"; "sg_off_the_tee"]
            (ObjectFloat64 [tidy 2023 "A" one])) ].

(** [two_years] with, for 2022, nothing but an empty tidy file. *)
Definition empty_2022 : inter_dir :=
  <[ ("sg_ott", 2022) :=
       Csv ["year"; "player_name"; "sg_off_the_tee"] (ObjectFloat64 []) ]>
    two_years.

Definition empty_proc : proc_dir :=
  {| master_year := ∅; master_player_seasons := None |}.

(** The frame [build_for_year] returns, for the examples. *)
Definition built (dir : inter_dir) (y : Z) : DataFrame :=
  match build_for_year dir y with
  | Ok out => out
  | Raise _ => {| columns := []; rows := [] |}
  end.

(** The two tidy files the normaliser writes for 2024 from
    [repeated_player_table] and [distance_table], as they are read
    back. *)
Definition normalised_2024 : inter_dir :=
  <[ ("scoring_average", 2024) :=
       Csv ["year"; "player_name"; "scoring_average"]
           (ObjectFloat64
              [(2024, Some "Tiger Woods", ParseStats.to_numeric_int "69")]) ]>
    {[ ("driving_distance", 2024) :=
         Csv ["year"; "player_name"; "driving_distance"]
             (ObjectFloat64
                [ (2024, Some "Tiger Woods", ParseStats.to_numeric_int "301");
                  (2024, Some "Rory McIlroy",
                   ParseStats.to_numeric_int "320") ]) ]}.

(** Player A of [two_years], 2024: 2 + 1 + 1. *)
Definition row_A : row :=
  {| year := 2024; player_name := Str "A";
     cells := tabulate (value_columns expected_cols)
                (fun c =>
                   if bool_decide (c = "sg_off_the_tee") then Float two
                   else if bool_decide (c ∈ ["sg_approach"; "sg_around_green"])
                   then Float one
                   else if bool_decide (c = "sg_tee_to_green")
                   then Float (fadd (fadd two one) one)
                   else PyNone) |}.

(** A year in which the off-the-tee value of player A is infinite. *)
Definition infinite_value : inter_dir :=
  list_to_map
    [ (("sg_ott", 2024),
        Csv ["year"; "player_name"; "sg_off_the_tee"]
            (ObjectFloat64 [tidy 2024 "A" (S754_infinity false)]));
      (("sg_app", 2024),
        Csv ["year"; "player_name"; "sg_approach"]
            (ObjectFloat64 [tidy 2024 "A" one]));
      (("sg_arg", 2024),
        Csv ["year"; "player_name"; "sg_around_green"]
            (ObjectFloat64 [tidy 2024 "A" one])) ].

(** The season row of player A in [infinite_value]. *)
Definition row_infinite : row :=
  {| year := 2024; player_name := Str "A";
     cells := tabulate (value_columns expected_cols)
                (fun c =>
                   if bool_decide (c ∈ ["sg_off_the_tee"; "sg_tee_to_green"])
                   then Float (S754_infinity false)
                   else if bool_decide (c ∈ ["sg_approach"; "sg_around_green"])
                   then Float one
                   else PyNone) |}.

(** A year whose three components are integer columns: player A has
    the largest int64 off the tee, 1 and 1 in the other two. *)
Definition integer_values : inter_dir :=
  list_to_map
    [ (("sg_ott", 2024),
        Csv ["year"; "player_name"; "sg_off_the_tee"]
            (ObjectInt64 [(2024, Some "A", 2 ^ 63 - 1)]));
      (("sg_app", 2024),
        Csv ["year"; "player_name"; "sg_approach"]
            (ObjectInt64 [(2024, Some "A", 1)]));
      (("sg_arg", 2024),
        Csv ["year"; "player_name"; "sg_around_green"]
            (ObjectInt64 [(2024, Some "A", 1)])) ].

(** The season row of player A in [integer_values]: the sum has wrapped
    around. *)
Definition row_integer : row :=
  {| year := 2024; player_name := Str "A";
     cells := tabulate (value_columns expected_cols)
                (fun c =>
                   if bool_decide (c = "sg_off_the_tee")
                   then Int64 (2 ^ 63 - 1)
                   else if bool_decide (c ∈ ["sg_approach"; "sg_around_green"])
                   then Int64 1
                   else if bool_decide (c = "sg_tee_to_green")
                   then Int64 (- 2 ^ 63 + 1)
                   else PyNone) |}.

(** A year in which one stat has numbers for names and another has a
    string. *)
Definition mixed_names : inter_dir :=
  list_to_map
    [ (("sg_total", 2024),
        Csv ["year"; "player_name"; "sg_total"]
            (Int64Float64 [(2024, 10, one); (2024, 2, two)]));
      (("sg_putt", 2024),
        Csv ["year"; "player_name"; "sg_putting"]
            (ObjectFloat64 [tidy 2024 "A" one])) ].

(** The same year without the second stat. *)
Definition numbered_players : inter_dir :=
  {[ ("sg_total", 2024) :=
       Csv ["year"; "player_name"; "sg_total"]
           (Int64Float64 [(2024, 10, one); (2024, 2, two)]) ]}.

(** A raw table with the players "01" and "1", and the tidy file
    written from it as it is read back: both names come back as the
    number 1. *)
Definition leading_zero_table : ParseStats.RawFrame :=
  {| ParseStats.columns := ["PLAYER"; "AVG"];
     ParseStats.rows :=
       [ [ParseStats.RText "01"; ParseStats.RText "70"];
         [ParseStats.RText "1"; ParseStats.RText "71"] ] |}.

Definition leading_zero : inter_dir :=
  {[ ("scoring_average", 2024) :=
       Csv ["year"; "player_name"; "scoring_average"]
           (Int64Float64
              [ (2024, 1, ParseStats.to_numeric_int "70");
                (2024, 1, ParseStats.to_numeric_int "71") ]) ]}.

(** An integer column in 2023, with the value 2^53 + 1 that binary64
    does not hold, and a float column of the same stat in 2024. *)
Definition integer_then_float : inter_dir :=
  list_to_map
    [ (("money_earned", 2023),
        Csv ["year"; "player_name"; "money_earned"]
            (ObjectInt64 [(2023, Some "A", 2 ^ 53 + 1)]));
      (("money_earned", 2024),
        Csv ["year"; "player_name"; "money_earned"]
            (ObjectFloat64 [tidy 2024 "A" one])) ].

End BuildMasterExamples.

(** ** Notions used to state further properties *)

Module SeasonOrder.
Import BuildMaster.

(** The order of [sort_values(["year", "player_name"])]: by year, then
    by player name - int64 names by value, strings byte-wise. *)
Definition name_le (a b : name) : Prop :=
  match a, b with
  | Int m, Int n => m <= n
  | Str s, Str t => String.leb s t = true
  | _, _ => False
  end.

Definition key_le (a b : row) : Prop :=
  year a < year b
  ∨ (year a = year b ∧ name_le (player_name a) (player_name b)).

(** The record of a tidy file that a season row stands for. *)
Definition record_of_row (rec : record) (r : row) : Prop :=
  rec_year rec = year r
  ∧ rec_player_name rec = Some (player_name r).

End SeasonOrder.

Module ParseStatsSpec.
Import ParseStats.

(** The two tests of the loop of [find_player_name_column]. *)
Definition is_player_column (col : string) : bool :=
  Py.contains "player" (normalize_col_name col)
  && negb (Py.contains "id" (normalize_col_name col)).

Definition is_name_column (col : string) : bool :=
  Py.contains "name" (normalize_col_name col).

(** A column the fallback of [find_value_column] looks at: not the
    player column and free of the bad keywords. *)
Definition eligible (player_col col : string) : bool :=
  negb (String.eqb col player_col)
  && negb (existsb (fun b => Py.contains b (normalize_col_name col))
             bad_keywords).

(** The number of cells of a column that coerce to a number. *)
Definition numeric_count (to_numeric : string -> float) (df : RawFrame)
    (col : string) : nat :=
  length (filter (fun x => negb (is_nan x))
            (map (coerce to_numeric) (column df col))).

(** The cell of a raw row under column [col]. *)
Definition cell_at (df : RawFrame) (col : string) (row : list raw_cell)
  : raw_cell :=
  match index_of col (columns df) with
  | Some i => nth i row RNull
  | None => RNull
  end.

(** The scored candidates of the player column, column by column. *)
Definition player_candidates (cols : list string) : list (nat * string) :=
  flat_map
    (fun col =>
       if is_player_column col then [(0%nat, col)]
       else if is_name_column col then [(1%nat, col)]
       else [])
    cols.

(** The candidates of the fallback, column by column. *)
Definition numeric_candidates (to_numeric : string -> float) (df : RawFrame)
    (player_col : string) (cols : list string) : list (string * nat) :=
  map (fun c => (c, numeric_count to_numeric df c))
    (filter (fun c => eligible player_col c
                      && Nat.ltb 0 (numeric_count to_numeric df c)) cols).

(** The tidy record built from one raw row: the stripped text of its
    player cell and the coerced number of its value cell. *)
Definition tidy_of_raw (to_numeric : string -> float) (year_ : Z)
    (df : RawFrame) (player_col value_col : string) (row : list raw_cell)
  : tidy_record :=
  {| year := year_;
     player_name := Some (Py.strip (astype_str (cell_at df player_col row)));
     value := coerce to_numeric (cell_at df value_col row) |}.

(** A table whose value column has to be guessed. *)
Definition no_hint_table : RawFrame :=
  {| columns := ["PLAYER"; "RANK THIS WEEK"; "ROUNDS"; "TOTAL"; "EXTRA"];
     rows := [ [RText "A"; RText "1"; RText "x"; RText "10"; RText "5"];
               [RText "B"; RText "2"; RText "4"; RText "20"; RText "y"] ] |}.

(** A table without a hinted column and without a number. *)
Definition no_numeric_table : RawFrame :=
  {| columns := ["PLAYER"; "RANK"; "NOTE"];
     rows := [[RText "A"; RText "x"; RText "n/a"]] |}.

End ParseStatsSpec.

Module PipelineExamples.
Import ParseStatsExamples BuildMasterExamples.

(** Two raw files of 2024 and the tidy directory made of them. *)
Definition raw_2024 : ParseStatsMain.raw_files :=
  [ ("driving_distance", 2024, distance_table);
    ("scoring_average", 2024, repeated_player_table) ].

Definition tidy_2024 : ParseStatsMain.tidy_dir :=
  ParseStatsMain.main ParseStats.to_numeric_int raw_2024 ∅.

End PipelineExamples.

Module DownloadStatsSpec.
Import DownloadStats.

(** One call of [download_stat_csv] by [main]: stat name, stat id and
    year. *)
Definition job : Type := string * string * Z.

(** The calls of [main] in the order of its two loops: year by year,
    and within a year stat by stat. *)
Definition jobs_of (years : list Z) (stats : list (string * string))
  : list job :=
  flat_map (fun year => map (fun st => (st.1, st.2, year)) stats) years.

Definition jobs : list job := jobs_of YEARS STAT_IDS.

Definition path_of (j : job) : string := out_path j.1.1 j.2.

(** The request of a job and the status check on its response. *)
Definition fetch (requests_get : string -> result Response) (j : job)
  : result Response :=
  resp ← requests_get (BASE_URL j.1.2 j.2);
  _ ← raise_for_status resp;
  Ok resp.

(** The loops of [main], flattened to the list of their calls. *)
Fixpoint run_jobs (requests_get : string -> result Response)
    (js : list job) (fs : raw_dir) : raw_dir * result unit :=
  match js with
  | [] => (fs, Ok tt)
  | j :: js' =>
      match download_stat_csv requests_get j.1.1 j.1.2 j.2 fs with
      | (fs', Ok _) => run_jobs requests_get js' fs'
      | (fs', Raise e) => (fs', Raise e)
      end
  end.

(** The files after the calls of [js], each of which went through. *)
Definition written (requests_get : string -> result Response)
    (js : list job) (fs : raw_dir) : raw_dir :=
  foldl (fun fs j =>
           match fetch requests_get j with
           | Ok resp => <[path_of j := content resp]> fs
           | Raise _ => fs
           end) fs js.

(** A server that answers every request with 200 and one byte of
    content, and one that is unreachable. *)
Definition always_ok (url : string) : result Response :=
  Ok {| status_code := 200; content := [Byte.x2a] |}.
Definition unreachable (url : string) : result Response :=
  Raise ConnectionError.

End DownloadStatsSpec.

(** * Verification *)

(** A closed decidable proposition, settled by evaluation. *)
Ltac by_decide := apply (bool_decide_unpack _); vm_compute; exact I.

(** ** Lists *)

Section ListFacts.
Context {A : Type}.

Lemma insert_sorted_perm (le : A -> A -> bool) (x : A) (l : list A) :
  insert_sorted le x l ≡ₚ x :: l.
Proof.
  induction l as [|y l IH]; simpl; [done|].
  destruct (le x y); [done|].
  rewrite IH. apply Permutation_swap.
Qed.

Lemma stable_sort_perm (le : A -> A -> bool) (l : list A) :
  stable_sort le l ≡ₚ l.
Proof.
  induction l as [|x l IH]; simpl; [done|].
  rewrite insert_sorted_perm. by rewrite IH.
Qed.

(** For a total comparison the result is sorted. *)
Lemma insert_sorted_Sorted (le : A -> A -> bool) (x : A) (l : list A) :
  (∀ a b, le a b = true ∨ le b a = true) ->
  Sorted (fun a b => le a b = true) l ->
  Sorted (fun a b => le a b = true) (insert_sorted le x l).
Proof.
  intros Htot. induction l as [|y l IH]; intros Hs; simpl.
  - by repeat constructor.
  - destruct (le x y) eqn:Hxy.
    + constructor; [done|]. by constructor.
    + apply Sorted_inv in Hs as [Hs Hhd]. constructor; [by apply IH|].
      destruct (Htot x y) as [?|Hyx]; [congruence|].
      destruct l as [|z l]; simpl; [by constructor|].
      destruct (le x z); constructor; [done|].
      by apply HdRel_inv in Hhd.
Qed.

Lemma Sorted_weaken (R R' : A -> A -> Prop) (l : list A) :
  (∀ a b, R a b -> R' a b) -> Sorted R l -> Sorted R' l.
Proof.
  intros Himp. induction 1 as [|x l Hs IH Hhd]; constructor; [done|].
  destruct Hhd; constructor. by apply Himp.
Qed.

Lemma Sorted_weaken_elem (R R' : A -> A -> Prop) (l : list A) :
  (∀ a b, a ∈ l -> b ∈ l -> R a b -> R' a b) -> Sorted R l -> Sorted R' l.
Proof.
  intros Himp Hs. induction Hs as [|x l Hs IH Hhd]; constructor.
  - apply IH. intros a b Ha Hb. apply Himp; by constructor.
  - destruct Hhd as [|y l' Hxy]; constructor.
    apply Himp; [by constructor|constructor; by constructor|done].
Qed.

Lemma stable_sort_Sorted (le : A -> A -> bool) (l : list A) :
  (∀ a b, le a b = true ∨ le b a = true) ->
  Sorted (fun a b => le a b = true) (stable_sort le l).
Proof.
  intros Htot. induction l as [|x l IH]; simpl; [constructor|].
  by apply insert_sorted_Sorted.
Qed.

Lemma elem_of_stable_sort (le : A -> A -> bool) (l : list A) (x : A) :
  x ∈ stable_sort le l ↔ x ∈ l.
Proof. by rewrite stable_sort_perm. Qed.

Lemma elem_of_list_map {B : Type} (f : A -> B) (l : list A) (y : B) :
  y ∈ map f l ↔ ∃ x, y = f x ∧ x ∈ l.
Proof. change (map f l) with (f <$> l). apply list_elem_of_fmap. Qed.

Lemma elem_of_flat_map {B : Type} (f : A -> list B) (l : list A) (y : B) :
  y ∈ flat_map f l ↔ ∃ x, x ∈ l ∧ y ∈ f x.
Proof.
  induction l as [|a l IH]; simpl.
  - split; [by intros ?%elem_of_nil|by intros (? & ?%elem_of_nil & _)].
  - rewrite elem_of_app, IH. split.
    + intros [H|(x & H1 & H2)]; [exists a|exists x];
        split; try done; by constructor.
    + intros (x & [->|H1]%elem_of_cons & H2); eauto.
Qed.

Lemma Forall2_with_elem {B : Type} (P : A -> B -> Prop)
    (l : list A) (k : list B) :
  Forall2 P l k -> Forall2 (fun x y => x ∈ l ∧ P x y) l k.
Proof.
  induction 1 as [|x y l k Hxy Hall IH]; constructor.
  - split; [by constructor|done].
  - eapply Forall2_impl; [exact IH|].
    intros a b [Ha Hb]. split; [by constructor|done].
Qed.

(** The first element satisfying [p], with the prefix it skips. *)
Lemma find_first (p : A -> bool) (l : list A) :
  (∃ x, x ∈ l ∧ p x = true) ->
  ∃ pre x post,
    l = pre ++ x :: post ∧ p x = true ∧ (∀ y, y ∈ pre -> p y = false)
    ∧ find p l = Some x.
Proof.
  induction l as [|a l IH]; intros (x & Hx & Hp).
  - by apply elem_of_nil in Hx.
  - destruct (p a) eqn:Ha.
    + exists [], a, l. simpl. rewrite Ha. repeat split; try done.
      intros y Hy. by apply elem_of_nil in Hy.
    + apply elem_of_cons in Hx as [->|Hx]; [congruence|].
      destruct IH as (pre & b & post & -> & Hb & Hpre & Hfind); [by eauto|].
      exists (a :: pre), b, post. simpl. rewrite Ha.
      repeat split; try done.
      intros y [->|Hy]%elem_of_cons; auto.
Qed.
End ListFacts.

(** ** Floats *)

Lemma within_tolerance_refl (t : float) :
  is_finite t = true -> within_tolerance t t = true.
Proof.
  destruct t as [s|s| |s m e]; try done.
  - by destruct s.
  - intros _. unfold within_tolerance, fsub, SFsub.
    rewrite Z.min_id. unfold shl_align. by rewrite !Z.sub_diag.
Qed.

(** ** The normaliser *)

Module ParseStatsFacts.
Import ParseStats ParseStatsExamples.

Lemma find_on_norm_map (hints : list string) (cols : list string) :
  find (fun cn : string * string =>
          existsb (fun h => Py.contains h (snd cn)) hints)
       (map (fun col => (col, normalize_col_name col)) cols)
  = option_map (fun col => (col, normalize_col_name col))
      (find (fun col =>
               existsb (fun h => Py.contains h (normalize_col_name col)) hints)
            cols).
Proof.
  induction cols as [|c cols IH]; simpl; [done|].
  destruct (existsb _ hints); [done|apply IH].
Qed.

(** The hint branch of [find_value_column] is a [find] over the columns. *)
Lemma find_value_column_hint (to_numeric : string -> float)
    (df : RawFrame) (stat_name : string) (spec : stat_spec) (col : string) :
  Py.dict_get stat_name STAT_SPEC = Some spec ->
  find (matches_hint spec) (columns df) = Some col ->
  find_value_column to_numeric df stat_name = Ok col.
Proof.
  intros Hspec Hfind. unfold find_value_column. rewrite Hspec.
  rewrite find_on_norm_map.
  unfold matches_hint in Hfind. by rewrite Hfind.
Qed.

(** C2, as amended: when some column carries a hint, the column returned
    is the first one in the table's column order that carries any hint
    of the stat; the position of the hint in the hint list plays no
    role. *)
Theorem find_value_column_first_matching_column
    (to_numeric : string -> float) (df : RawFrame)
    (stat_name : string) (spec : stat_spec) :
  Py.dict_get stat_name STAT_SPEC = Some spec ->
  (∃ c, c ∈ columns df ∧ matches_hint spec c = true) ->
  ∃ pre col post,
    columns df = pre ++ col :: post
    ∧ matches_hint spec col = true
    ∧ (∀ c, c ∈ pre -> matches_hint spec c = false)
    ∧ find_value_column to_numeric df stat_name = Ok col.
Proof.
  intros Hspec Hex.
  destruct (find_first (matches_hint spec) (columns df) Hex)
    as (pre & col & post & Hcols & Hcol & Hpre & Hfind).
  exists pre, col, post. repeat split; try done.
  by eapply find_value_column_hint.
Qed.

Lemma find_value_column_first_matching_column_witness :
  ∃ pre col post,
    columns avg_before_mean = pre ++ col :: post
    ∧ col = "AVG"
    ∧ find_value_column to_numeric_int avg_before_mean "sg_total" = Ok col.
Proof.
  destruct (find_value_column_first_matching_column to_numeric_int
              avg_before_mean "sg_total"
              {| output_col := "sg_total";
                 hints := ["mean"; "avg"; "average"; "sg:total"] |})
    as (pre & col & post & Hcols & Hcol & Hpre & Hfind).
  - reflexivity.
  - exists "AVG". split; [|reflexivity].
    apply list_elem_of_In. simpl. auto.
  - exists pre, col, post. repeat split; try done.
    vm_compute in Hfind. congruence.
Defined.

(** C2, as stated, fails: with the hints [mean, avg, ...] of [sg_total]
    and the columns [AVG] before [MEAN], hint order selects [MEAN] but
    the code returns [AVG]. *)
Lemma find_value_column_not_hint_order :
  ¬ (∀ (to_numeric : string -> float) (df : RawFrame)
       (stat_name : string) (spec : stat_spec) (col : string),
        Py.dict_get stat_name STAT_SPEC = Some spec ->
        first_hint_match (map Py.lower (hints spec)) (columns df) = Some col ->
        find_value_column to_numeric df stat_name = Ok col).
Proof.
  intros H.
  specialize (H to_numeric_int avg_before_mean "sg_total"
                {| output_col := "sg_total";
                   hints := ["mean"; "avg"; "average"; "sg:total"] |}
                "MEAN" eq_refl eq_refl).
  vm_compute in H. discriminate H.
Qed.

(** The specification's example: with the columns [Player Name] and
    [AVG], the player column is [Player Name] and, for a stat hinted by
    [avg], the value column is [AVG]. *)
Example player_name_and_avg :
  let df := {| columns := ["Player Name"; "AVG"]; rows := [] |} in
  find_player_name_column df = Ok "Player Name"
  ∧ find_value_column to_numeric_int df "scoring_average" = Ok "AVG".
Proof. by vm_compute. Qed.

(** The fallback: without a hinted column the densest numeric column
    that is neither the player column nor a rank-like one is taken. *)
Example fallback_numeric_column :
  find_value_column to_numeric_int
    {| columns := ["PLAYER"; "RANK THIS WEEK"; "ROUNDS"; "TOTAL"];
       rows := [ [RText "A"; RText "1"; RText "x"; RText "10"];
                 [RText "B"; RText "2"; RText "4"; RText "20"] ] |}
    "money_earned"
  = Ok "TOTAL".
Proof. by vm_compute. Qed.

(** *** Dropping rows *)

Lemma elem_of_dropna (l : list tidy_record) (r : tidy_record) :
  r ∈ dropna l ↔ notna_record r = true ∧ r ∈ l.
Proof.
  unfold dropna. rewrite list_elem_of_filter.
  by rewrite Is_true_true.
Qed.

Lemma notna_record_spec (r : tidy_record) :
  notna_record r = true ↔ player_name r ≠ None ∧ is_nan (value r) = false.
Proof.
  unfold notna_record. destruct (player_name r), (is_nan (value r)); simpl;
    split; try done; intros []; congruence.
Qed.

(** [drop_duplicates] keeps, for every name, the first row bearing it. *)
Lemma drop_duplicates_from_spec (l : list tidy_record) :
  ∀ seen,
    NoDup (map player_name (drop_duplicates_from seen l))
    ∧ (∀ r, r ∈ drop_duplicates_from seen l ->
            (player_name r ∉ seen)
            ∧ (∃ pre post,
                 l = pre ++ r :: post
                 ∧ player_name r ∉ map player_name pre))
    ∧ (∀ r, r ∈ l -> player_name r ∉ seen ->
            ∃ r', r' ∈ drop_duplicates_from seen l
                  ∧ player_name r' = player_name r).
Proof.
  induction l as [|a l IH]; intros seen; simpl.
  - split; [apply NoDup_nil_2|]. split; by intros r ?%elem_of_nil.
  - case_bool_decide as Ha.
    + destruct (IH seen) as (Hnd & Hfirst & Hall).
      split; [done|]. split.
      * intros r Hr. destruct (Hfirst r Hr) as (Hseen & pre & post & -> & Hpre).
        split; [done|]. exists (a :: pre), post. split; [done|]. simpl.
        intros [Heq|Hin]%elem_of_cons; [|done]. congruence.
      * intros r [->|Hr]%elem_of_cons Hseen; [done|]. by apply Hall.
    + destruct (IH (player_name a :: seen)) as (Hnd & Hfirst & Hall).
      split; [|split].
      * simpl. apply NoDup_cons. split; [|done].
        intros (r & Heq & Hr)%elem_of_list_map.
        destruct (Hfirst r Hr) as (Hseen & _). apply Hseen.
        rewrite Heq. by constructor.
      * intros r [->|Hr]%elem_of_cons.
        -- split; [done|].
           exists [], l. split; [done|]. by intros ?%elem_of_nil.
        -- destruct (Hfirst r Hr) as (Hseen & pre & post & -> & Hpre).
           split; [by intros ?; apply Hseen; constructor|].
           exists (a :: pre), post. split; [done|]. simpl.
           intros [Heq|Hin]%elem_of_cons; [|done].
           apply Hseen. rewrite Heq. by constructor.
      * intros r [->|Hr]%elem_of_cons Hseen.
        -- exists a. split; [by constructor|done].
        -- destruct (decide (player_name r = player_name a)) as [Heq|Hne].
           ++ exists a. split; [by constructor|done].
           ++ destruct (Hall r Hr) as (r' & Hr' & Heq).
              ** intros [?|?]%elem_of_cons; done.
              ** exists r'. split; [by constructor|done].
Qed.

(** What [parse_one_file] returns when it returns. *)
Lemma parse_one_file_Ok (to_numeric : string -> float)
    (stat_name : string) (year_ : Z) (df : RawFrame) (out : TidyFrame) :
  parse_one_file to_numeric stat_name year_ df = Ok out ->
  ∃ spec player_col value_col,
    Py.dict_get stat_name STAT_SPEC = Some spec
    ∧ find_player_name_column df = Ok player_col
    ∧ find_value_column to_numeric df stat_name = Ok value_col
    ∧ out = {| tidy_columns := ["year"; "player_name"; output_col spec];
               tidy_rows :=
                 drop_duplicates
                   (dropna (records to_numeric year_ df
                              player_col value_col)) |}.
Proof.
  unfold parse_one_file. intros H.
  destruct (Py.dict_get stat_name STAT_SPEC) as [spec|]; [|done].
  destruct (find_player_name_column df) as [player_col|]; [|done].
  simpl in H.
  destruct (find_value_column to_numeric df stat_name) as [value_col|];
    [|done].
  simpl in H. exists spec, player_col, value_col.
  repeat split; congruence.
Qed.

(** The post-filter invariant: every tidy row has a player name and a
    non-NaN value, and is one of the records built from the raw rows,
    so a raw row whose value fails coercion is not in the output. *)
Lemma parse_one_file_notna (to_numeric : string -> float)
    (stat_name : string) (year_ : Z) (df : RawFrame) (out : TidyFrame)
    (r : tidy_record) :
  parse_one_file to_numeric stat_name year_ df = Ok out ->
  r ∈ tidy_rows out ->
  year r = year_ ∧ player_name r ≠ None ∧ is_nan (value r) = false.
Proof.
  intros (spec & pc & vc & _ & _ & _ & ->)%parse_one_file_Ok Hr.
  simpl in Hr. unfold drop_duplicates in Hr.
  destruct (drop_duplicates_from_spec
              (dropna (records to_numeric year_ df pc vc)) [])
    as (_ & Hfirst & _).
  destruct (Hfirst r Hr) as (_ & pre & post & Heq & _).
  assert (Hin : r ∈ dropna (records to_numeric year_ df pc vc)).
  { rewrite Heq. apply elem_of_app. right. by constructor. }
  apply elem_of_dropna in Hin as [Hnotna Hin].
  apply notna_record_spec in Hnotna as [? ?].
  split; [|done].
  unfold records in Hin. apply elem_of_list_map in Hin as (nv & -> & _). done.
Qed.

Lemma parse_one_file_NoDup (to_numeric : string -> float)
    (stat_name : string) (year_ : Z) (df : RawFrame) (out : TidyFrame) :
  parse_one_file to_numeric stat_name year_ df = Ok out ->
  NoDup (map player_name (tidy_rows out)).
Proof.
  intros (spec & pc & vc & _ & _ & _ & ->)%parse_one_file_Ok. simpl.
  apply drop_duplicates_from_spec.
Qed.

(** *** C1 *)

(** C1: the code at the failing input.  The row with the missing player
    cell is not dropped: [astype(str)] has turned the missing cell into
    the string [nan] before [dropna] looks at it, so the row is in the
    tidy output under the player name [nan]. *)
Theorem parse_one_file_keeps_null_player :
  parse_one_file to_numeric_int "scoring_average" 2024 null_player_table
  = Ok {| tidy_columns := ["year"; "player_name"; "scoring_average"];
          tidy_rows := [ {| year := 2024;
                            player_name := Some "nan";
                            value := to_numeric_int "71" |} ] |}.
Proof. reflexivity. Qed.

(** *** C8 *)

(** C8, as amended: no two tidy rows share a player name, and the row
    kept for a name is the first one bearing it among the records that
    survive the null filter (the filter runs before the de-duplication);
    every surviving name is kept. *)
Theorem parse_one_file_unique_first_surviving
    (to_numeric : string -> float) (stat_name : string) (year_ : Z)
    (df : RawFrame) (out : TidyFrame) :
  parse_one_file to_numeric stat_name year_ df = Ok out ->
  ∃ player_col value_col,
    find_player_name_column df = Ok player_col
    ∧ find_value_column to_numeric df stat_name = Ok value_col
    ∧ NoDup (map player_name (tidy_rows out))
    ∧ (∀ r, r ∈ tidy_rows out ->
            ∃ pre post,
              dropna (records to_numeric year_ df player_col value_col)
              = pre ++ r :: post
              ∧ player_name r ∉ map player_name pre)
    ∧ (∀ r, r ∈ dropna (records to_numeric year_ df player_col value_col) ->
            ∃ r', r' ∈ tidy_rows out ∧ player_name r' = player_name r).
Proof.
  intros (spec & pc & vc & _ & Hpc & Hvc & ->)%parse_one_file_Ok.
  exists pc, vc. simpl. unfold drop_duplicates.
  destruct (drop_duplicates_from_spec
              (dropna (records to_numeric year_ df pc vc)) [])
    as (Hnd & Hfirst & Hall).
  repeat split; try done.
  - intros r Hr. by destruct (Hfirst r Hr) as (_ & ?).
  - intros r Hr. apply Hall; [done|]. by intros ?%elem_of_nil.
Qed.

Lemma parse_one_file_unique_first_surviving_witness :
  ∃ out,
    parse_one_file to_numeric_int "scoring_average" 2024
      repeated_player_table = Ok out
    ∧ NoDup (map player_name (tidy_rows out)).
Proof.
  eexists. split; [reflexivity|].
  destruct (parse_one_file_unique_first_surviving to_numeric_int
              "scoring_average" 2024 repeated_player_table _ eq_refl)
    as (pc & vc & _ & _ & Hnd & _).
  exact Hnd.
Defined.

(** C8, as stated, fails: the row kept for a name need not be the first
    input row bearing it.  In [repeated_player_table] the first row of
    the player is dropped for its value and the second one is kept. *)
Lemma parse_one_file_not_first_input_row :
  ¬ (∀ (to_numeric : string -> float) (stat_name : string) (year_ : Z)
       (df : RawFrame) (out : TidyFrame) (player_col value_col : string),
        parse_one_file to_numeric stat_name year_ df = Ok out ->
        find_player_name_column df = Ok player_col ->
        find_value_column to_numeric df stat_name = Ok value_col ->
        NoDup (map player_name (tidy_rows out))
        ∧ ∀ r, r ∈ tidy_rows out ->
               ∃ pre post,
                 records to_numeric year_ df player_col value_col
                 = pre ++ r :: post
                 ∧ player_name r ∉ map player_name pre).
Proof.
  intros H.
  destruct (H to_numeric_int "scoring_average" 2024 repeated_player_table
              _ "PLAYER" "AVG" eq_refl eq_refl eq_refl) as [_ Hfirst].
  destruct (Hfirst {| year := 2024; player_name := Some "Tiger Woods";
                      value := to_numeric_int "69" |})
    as (pre & post & Heq & Hpre).
  { simpl. by constructor. }
  destruct pre as [|a pre].
  - vm_compute in Heq. discriminate Heq.
  - apply Hpre. injection Heq as <- _. simpl. by constructor.
Qed.

End ParseStatsFacts.

(** ** The fetcher *)

Module DownloadStatsFacts.
Import DownloadStats DownloadStatsExamples.

(** An exception never comes with a write. *)
Lemma download_stat_csv_raise_unchanged
    (requests_get : string -> result Response)
    (stat_name stat_id : string) (year : Z) (fs : raw_dir) (e : exn) :
  (download_stat_csv requests_get stat_name stat_id year fs).2 = Raise e ->
  (download_stat_csv requests_get stat_name stat_id year fs).1 = fs.
Proof.
  unfold download_stat_csv.
  destruct (requests_get _) as [resp|]; [|done].
  by destruct (raise_for_status resp).
Qed.

(** C10, as amended: the function raises, leaving every raw file as it
    was, exactly when the status is a 4xx or 5xx one (the statuses on
    which [raise_for_status] raises); for every other status, which
    includes all of 2xx, it writes the response bytes verbatim to the
    file of that (stat, year) and touches no other file. *)
Theorem download_stat_csv_status
    (requests_get : string -> result Response)
    (stat_name stat_id : string) (year : Z) (fs : raw_dir)
    (resp : Response) :
  requests_get (BASE_URL stat_id year) = Ok resp ->
  let run := download_stat_csv requests_get stat_name stat_id year fs in
  (400 <= status_code resp < 600 ->
     run = (fs, Raise (HTTPError (status_code resp))))
  ∧ (¬ (400 <= status_code resp < 600) ->
     run = (<[out_path stat_name year := content resp]> fs, Ok tt)
     ∧ run.1 !! out_path stat_name year = Some (content resp)
     ∧ ∀ path, path ≠ out_path stat_name year -> run.1 !! path = fs !! path)
  ∧ (is_success (status_code resp) = true ->
     run = (<[out_path stat_name year := content resp]> fs, Ok tt)).
Proof.
  intros Hget. simpl. unfold download_stat_csv, raise_for_status, is_success.
  rewrite Hget. split; [|split].
  - intros [H1 H2].
    apply Z.leb_le in H1. apply Z.ltb_lt in H2. by rewrite H1, H2.
  - intros Hno.
    destruct ((400 <=? status_code resp) && (status_code resp <? 600))
      eqn:Hb.
    + apply andb_true_iff in Hb as [H1%Z.leb_le H2%Z.ltb_lt]. lia.
    + simpl. split; [done|]. split; [apply lookup_insert_eq|].
      intros path Hne. by apply lookup_insert_ne.
  - intros [H1%Z.leb_le H2%Z.ltb_lt]%andb_true_iff.
    destruct (400 <=? status_code resp) eqn:Hb; [|done].
    apply Z.leb_le in Hb. lia.
Qed.

Lemma download_stat_csv_status_witness :
  download_stat_csv (fun _ => Ok not_found) "sg_total" "02675" 2024 ∅
  = (∅, Raise (HTTPError 404)).
Proof.
  apply (download_stat_csv_status (fun _ => Ok not_found)
           "sg_total" "02675" 2024 ∅ not_found eq_refl).
  simpl. lia.
Defined.

(** C10, as stated, fails: 304 is not a successful status, yet the
    function does not raise on it and writes the file. *)
Lemma download_stat_csv_writes_on_304 :
  ¬ (∀ (requests_get : string -> result Response)
       (stat_name stat_id : string) (year : Z) (fs : raw_dir)
       (resp : Response),
        requests_get (BASE_URL stat_id year) = Ok resp ->
        is_success (status_code resp) = false ->
        ∃ e, download_stat_csv requests_get stat_name stat_id year fs
             = (fs, Raise e)).
Proof.
  intros H.
  destruct (H (fun _ => Ok not_modified) "sg_total" "02675" 2024 ∅
              not_modified eq_refl eq_refl) as [e He].
  apply (f_equal snd) in He. discriminate He.
Qed.

End DownloadStatsFacts.

(** ** The merger *)

Module BuildMasterFacts.
Import BuildMaster BuildMasterSpec ParseStatsExamples BuildMasterExamples.

(** *** Cells *)

Lemma dict_get_tabulate (cols : list string) (f : string -> cell)
    (c : string) :
  Py.dict_get c (tabulate cols f)
  = if decide (c ∈ cols) then Some (f c) else None.
Proof.
  induction cols as [|k cols IH].
  - destruct (decide (c ∈ [])) as [Hin|]; [|done].
    by apply elem_of_nil in Hin.
  - cbn [tabulate map Py.dict_get]. fold (tabulate cols f).
    destruct (String.eqb_spec c k) as [->|Hne].
    + destruct (decide (k ∈ k :: cols)) as [|Hnin]; [done|].
      exfalso. apply Hnin. by constructor.
    + rewrite IH.
      destruct (decide (c ∈ cols)) as [Hin|Hin],
               (decide (c ∈ k :: cols)) as [Hin'|Hin']; try done.
      * exfalso. apply Hin'. by constructor.
      * by apply elem_of_cons in Hin' as [?|?].
Qed.

Lemma dict_get_set_cell (c c' : string) (v : cell)
    (l : list (string * cell)) :
  Py.dict_get c' (set_cell c v l)
  = if decide (c' = c) then Some v else Py.dict_get c' l.
Proof.
  induction l as [|[k x] l IH]; cbn [set_cell Py.dict_get].
  - destruct (String.eqb_spec c' c) as [->|Hne], (decide _); done.
  - destruct (String.eqb_spec c k) as [->|Hck]; cbn [Py.dict_get].
    + destruct (String.eqb_spec c' k) as [->|Hne], (decide _); done.
    + rewrite IH.
      destruct (String.eqb_spec c' k) as [->|Hne], (decide _); done.
Qed.

Lemma get_cell_tabulate (y : Z) (p : name) (cols : list string)
    (f : string -> cell) (c : string) :
  c ∈ cols ->
  get_cell {| year := y; player_name := p; cells := tabulate cols f |} c
  = f c.
Proof.
  intros Hc. unfold get_cell. cbn [cells].
  rewrite dict_get_tabulate. by destruct (decide _).
Qed.

Lemma tabulate_ext (cols : list string) (f g : string -> cell) :
  (∀ c, c ∈ cols -> f c = g c) -> tabulate cols f = tabulate cols g.
Proof.
  intros H. unfold tabulate. apply map_ext_in.
  intros c Hc%list_elem_of_In. by rewrite H.
Qed.

Lemma elem_of_value_columns (cols : list string) (c : string) :
  c ∈ value_columns cols ↔ (c ∉ key_columns) ∧ c ∈ cols.
Proof. unfold value_columns. by rewrite list_elem_of_filter. Qed.

Lemma value_columns_app (l1 l2 : list string) :
  value_columns (l1 ++ l2) = value_columns l1 ++ value_columns l2.
Proof. apply filter_app. Qed.

(** *** Loading *)

Lemma load_stat_for_year_Some (dir : inter_dir) (stat_name : string)
    (year_ : Z) (col_name : string) (df : DataFrame) :
  load_stat_for_year dir stat_name year_ col_name = Ok (Some df) ->
  ∃ header data,
    dir !! (stat_name, year_) = Some (Csv header data)
    ∧ df = {| columns := ["year"; "player_name"; col_name];
              rows := omap (row_of_record col_name) (records data) |}.
Proof.
  unfold load_stat_for_year. intros H.
  destruct (dir !! (stat_name, year_)) as [[|header data]|]; try done.
  exists header, data. split; [done|].
  destruct (Nat.eqb (length (records data)) 0); [done|].
  destruct (_ || _); [done|].
  destruct (negb _); [done|].
  fold (row_of_record col_name) in H.
  destruct (Nat.eqb _ 0); [done|]. congruence.
Qed.

Lemma load_stat_for_year_nonempty (dir : inter_dir) (stat_name : string)
    (year_ : Z) (col_name : string) (df : DataFrame) :
  load_stat_for_year dir stat_name year_ col_name = Ok (Some df) ->
  rows df ≠ [].
Proof.
  unfold load_stat_for_year. intros H.
  destruct (dir !! (stat_name, year_)) as [[|header data]|]; try done.
  destruct (Nat.eqb (length (records data)) 0); [done|].
  destruct (_ || _); [done|].
  destruct (negb _); [done|].
  destruct (omap _ (records data)) as [|r0 l] eqn:Hrows; [done|].
  cbn [length Nat.eqb] in H. by injection H as <-.
Qed.

(** A missing, unreadable or ill-formed file never yields a frame. *)
Lemma load_stat_for_year_missing (dir : inter_dir) (stat_name : string)
    (year_ : Z) (col_name : string) :
  dir !! (stat_name, year_) = None ->
  load_stat_for_year dir stat_name year_ col_name
  = Raise (FileNotFoundError stat_name year_).
Proof. unfold load_stat_for_year. by intros ->. Qed.

Lemma load_loop_spec (dir : inter_dir) (year_ : Z)
    (items : list (string * string)) (acc : loaded) :
  frames (fold_left (load_step dir year_) items acc)
  = frames acc ++ map snd (omap (frame_of dir year_) items)
  ∧ stats_skipped (fold_left (load_step dir year_) items acc)
    = stats_skipped acc ++ omap (skipped_of dir year_) items
  ∧ stats_empty (fold_left (load_step dir year_) items acc)
    = stats_empty acc ++ omap (empty_of dir year_) items.
Proof.
  revert acc. induction items as [|[s c] items IH]; intros acc.
  - cbn [fold_left omap list_omap map]. by rewrite !app_nil_r.
  - cbn [fold_left].
    destruct (IH (load_step dir year_ acc (s, c))) as (Hf & Hs & He).
    rewrite Hf, Hs, He. clear IH Hf Hs He.
    cbn [omap list_omap].
    unfold load_step, frame_of, skipped_of, empty_of. cbn [fst snd].
    destruct (load_stat_for_year dir s year_ c) as [[df|]|e];
      cbn [frames stats_skipped stats_empty map];
      by rewrite <- ?app_assoc.
Qed.

Lemma load_all_spec (dir : inter_dir) (year_ : Z) :
  frames (load_all dir year_) = map snd (loaded_frames dir year_)
  ∧ stats_skipped (load_all dir year_)
    = omap (skipped_of dir year_) STAT_COLUMNS
  ∧ stats_empty (load_all dir year_)
    = omap (empty_of dir year_) STAT_COLUMNS.
Proof. apply (load_loop_spec dir year_ STAT_COLUMNS). Qed.

Lemma elem_of_loaded_frames (dir : inter_dir) (year_ : Z)
    (c : string) (df : DataFrame) :
  (c, df) ∈ loaded_frames dir year_
  ↔ ∃ s, (s, c) ∈ STAT_COLUMNS
         ∧ load_stat_for_year dir s year_ c = Ok (Some df).
Proof.
  unfold loaded_frames. rewrite list_elem_of_omap. split.
  - intros ([s c'] & Hin & Hf). unfold frame_of in Hf. simpl in Hf.
    destruct (load_stat_for_year dir s year_ c') as [[df'|]|] eqn:Hl;
      try done.
    injection Hf as <- <-. eauto.
  - intros (s & Hin & Hl). exists (s, c). split; [done|].
    unfold frame_of. simpl. by rewrite Hl.
Qed.

(** *** The outer merge *)

Lemma key_merged_row (lcols rcols : list string) (k : Z * name)
    (fl fr : string -> cell) :
  key (merged_row lcols rcols k fl fr) = k.
Proof. by destruct k. Qed.

Lemma get_cell_merged_row_left (lcols rcols : list string)
    (k : Z * name) (fl fr : string -> cell) (c : string) :
  c ∈ lcols -> get_cell (merged_row lcols rcols k fl fr) c = fl c.
Proof.
  intros Hc. unfold merged_row. rewrite get_cell_tabulate.
  - by rewrite bool_decide_eq_true_2.
  - apply elem_of_app. by left.
Qed.

Lemma get_cell_merged_row_right (lcols rcols : list string)
    (k : Z * name) (fl fr : string -> cell) (c : string) :
  c ∉ lcols -> c ∈ rcols ->
  get_cell (merged_row lcols rcols k fl fr) c = fr c.
Proof.
  intros Hl Hr. unfold merged_row. rewrite get_cell_tabulate.
  - by rewrite bool_decide_eq_false_2.
  - apply elem_of_app. by right.
Qed.

Lemma elem_of_merge_rows (L R : DataFrame) (r : row) :
  r ∈ rows (outer_join L R) ↔ merge_case L R r.
Proof.
  unfold outer_join, unmatched. cbn [rows].
  rewrite elem_of_stable_sort, elem_of_app, elem_of_flat_map, elem_of_list_map.
  split.
  - intros [(l & Hl & Hr)|(r' & -> & Hr')].
    + destruct (filter (fun r0 => key r0 = key l) (rows R)) as [|m ms] eqn:Hf.
      * apply list_elem_of_singleton in Hr.
        eapply left_only; [done| |done].
        intros r' Hr' Heq.
        assert (Hin : r' ∈ filter (fun r0 => key r0 = key l) (rows R))
          by by apply list_elem_of_filter.
        rewrite Hf in Hin. by apply elem_of_nil in Hin.
      * apply elem_of_list_map in Hr as (r' & -> & Hr').
        rewrite <- Hf in Hr'. apply list_elem_of_filter in Hr' as [Hk Hr'].
        by eapply both.
    + apply list_elem_of_filter in Hr' as [Hk Hr']. by eapply right_only.
  - intros [l Hl Hno ->|l r' Hl Hr' Hk ->|r' Hr' Hk ->].
    + left. exists l. split; [done|].
      destruct (filter (fun r0 => key r0 = key l) (rows R)) as [|m ms] eqn:Hf.
      * by constructor.
      * exfalso. assert (Hin : m ∈ filter (fun r0 => key r0 = key l) (rows R))
          by (rewrite Hf; by constructor).
        apply list_elem_of_filter in Hin as [Hk Hm]. by apply (Hno m).
    + left. exists l. split; [done|].
      assert (Hin : r' ∈ filter (fun r0 => key r0 = key l) (rows R))
        by by apply list_elem_of_filter.
      destruct (filter (fun r0 => key r0 = key l) (rows R)) as [|m ms] eqn:Hf.
      * by apply elem_of_nil in Hin.
      * apply elem_of_list_map. by exists r'.
    + right. exists r'. split; [done|]. by apply list_elem_of_filter.
Qed.

Lemma key_merge_case (L R : DataFrame) (r : row) :
  merge_case L R r ->
  (key r ∈ map key (rows L)) ∨ (key r ∈ map key (rows R)).
Proof.
  intros [l Hl _ ->|l r' Hl _ _ ->|r' Hr' _ ->]; rewrite key_merged_row.
  - left. apply elem_of_list_map. by exists l.
  - left. apply elem_of_list_map. by exists l.
  - right. apply elem_of_list_map. by exists r'.
Qed.

(** Every key of either side is a key of the merge. *)
Lemma merge_keys_left (L R : DataFrame) (l : row) :
  l ∈ rows L -> key l ∈ map key (rows (outer_join L R)).
Proof.
  intros Hl. apply elem_of_list_map.
  destruct (filter (fun r0 => key r0 = key l) (rows R)) as [|m ms] eqn:Hf.
  - eexists. split; [|apply elem_of_merge_rows; eapply left_only; [done| |done]].
    + by rewrite key_merged_row.
    + intros r' Hr' Heq.
      assert (Hin : r' ∈ filter (fun r0 => key r0 = key l) (rows R))
        by by apply list_elem_of_filter.
      rewrite Hf in Hin. by apply elem_of_nil in Hin.
  - assert (Hin : m ∈ filter (fun r0 => key r0 = key l) (rows R))
      by (rewrite Hf; by constructor).
    apply list_elem_of_filter in Hin as [Hk Hm].
    eexists. split; [|apply elem_of_merge_rows; by eapply both].
    by rewrite key_merged_row.
Qed.

Lemma merge_keys_right (L R : DataFrame) (r' : row) :
  r' ∈ rows R -> key r' ∈ map key (rows (outer_join L R)).
Proof.
  intros Hr'.
  destruct (decide (key r' ∈ map key (rows L))) as [Hin|Hnin].
  - apply elem_of_list_map in Hin as (l & Hk & Hl).
    rewrite Hk. by apply merge_keys_left.
  - apply elem_of_list_map. eexists.
    split; [|apply elem_of_merge_rows; by eapply right_only].
    by rewrite key_merged_row.
Qed.

(** With unique keys on both sides the merge has unique keys. *)
Lemma filter_key_unique (R : DataFrame) (k : Z * name) :
  NoDup (map key (rows R)) ->
  filter (fun r0 => key r0 = k) (rows R) = []
  ∨ ∃ r', filter (fun r0 => key r0 = k) (rows R) = [r'].
Proof.
  intros Hnd.
  assert (Hsub : NoDup (map key (filter (fun r0 => key r0 = k) (rows R)))).
  { eapply sublist_NoDup; [done|].
    change (map key ?l) with (key <$> l).
    apply fmap_sublist, sublist_filter. }
  destruct (filter (fun r0 => key r0 = k) (rows R)) as [|m [|m' ms]] eqn:Hf;
    [by left|by right; eauto|exfalso].
  assert (H1 : m ∈ filter (fun r0 => key r0 = k) (rows R))
    by (rewrite Hf; by constructor).
  assert (H2 : m' ∈ filter (fun r0 => key r0 = k) (rows R))
    by (rewrite Hf; constructor; by constructor).
  apply list_elem_of_filter in H1 as [H1 _].
  apply list_elem_of_filter in H2 as [H2 _].
  simpl in Hsub. apply NoDup_cons in Hsub as [Hnin _].
  apply Hnin. rewrite H1, <- H2. by constructor.
Qed.

Lemma merge_NoDup (L R : DataFrame) :
  NoDup (map key (rows L)) -> NoDup (map key (rows R)) ->
  NoDup (map key (rows (outer_join L R))).
Proof.
  intros HL HR. unfold outer_join, unmatched. cbn [rows].
  change (map key ?l) with (key <$> l).
  rewrite (stable_sort_perm key_leb _).
  rewrite fmap_app. apply NoDup_app. split; [|split].
  - assert (Hmap :
      key <$> flat_map
        (fun l =>
           match filter (fun r => key r = key l) (rows R) with
           | [] => [merged_row (value_columns (columns L))
                      (value_columns (columns R)) (key l)
                      (merge_cell L R l) (fun _ => NaN)]
           | ms => map (fun r => merged_row (value_columns (columns L))
                          (value_columns (columns R)) (key l)
                          (merge_cell L R l) (merge_cell R L r)) ms
           end) (rows L) = key <$> rows L).
    { clear HL. induction (rows L) as [|l ls IH]; [done|].
      cbn [flat_map]. rewrite fmap_app, IH. cbn [fmap list_fmap].
      destruct (filter_key_unique R (key l) HR) as [->|[r' ->]];
        cbn [map fmap list_fmap app]; by rewrite key_merged_row. }
    by rewrite Hmap.
  - intros k (x & -> & (l & Hl & Hx)%elem_of_flat_map)%list_elem_of_fmap.
    intros (y & Hy & Hin)%list_elem_of_fmap.
    apply elem_of_list_map in Hin as (r' & -> & Hr').
    apply list_elem_of_filter in Hr' as [Hk Hr'].
    rewrite key_merged_row in Hy. apply Hk. rewrite <- Hy.
    apply elem_of_list_map. exists l. split; [|done].
    destruct (filter (fun r0 => key r0 = key l) (rows R)) as [|m ms].
    + apply list_elem_of_singleton in Hx as ->. by rewrite key_merged_row.
    + apply elem_of_list_map in Hx as (? & -> & _). by rewrite key_merged_row.
  - assert (Hmap :
      key <$> map (fun r => merged_row (value_columns (columns L))
                     (value_columns (columns R)) (key r) (fun _ => NaN)
                     (merge_cell R L r))
                (filter (fun r => key r ∉ map key (rows L)) (rows R))
      = key <$> filter (fun r => key r ∉ map key (rows L)) (rows R)).
    { induction (filter _ (rows R)) as [|x xs IH]; [done|].
      cbn [map fmap list_fmap]. rewrite key_merged_row. f_equal. apply IH. }
    rewrite Hmap. eapply sublist_NoDup; [exact HR|].
    apply fmap_sublist, sublist_filter.
Qed.

(** *** The left-to-right fold of merges *)

Lemma value_columns_keys_app (l : list string) :
  (∀ c, c ∈ l -> c ∉ key_columns) ->
  value_columns (key_columns ++ l) = l.
Proof.
  intros H. rewrite value_columns_app.
  replace (value_columns key_columns) with (@nil string) by done.
  cbn [app]. unfold value_columns.
  induction l as [|c l IH]; [done|].
  rewrite filter_cons_True by (apply H; by constructor).
  f_equal. apply IH. intros c' Hc'. apply H. by constructor.
Qed.

Lemma stat_frames_ok_cols (S : list (string * DataFrame)) (c : string) :
  stat_frames_ok S -> c ∈ map fst S -> c ∉ key_columns.
Proof.
  intros [_ Hok] ([c' F] & -> & Hin)%elem_of_list_map. by apply (Hok c' F).
Qed.

Lemma upcast_idemp (v : cell) : upcast (upcast v) = upcast v.
Proof. by destruct v. Qed.

Lemma cast_if_cast_if (a b : bool) (v : cell) :
  cast_if a (cast_if b v) = cast_if (a || b) v.
Proof. destruct a, b; cbn [cast_if orb]; [apply upcast_idemp|done..]. Qed.

Lemma padded_true (F M : DataFrame) :
  padded F M = true ↔ ∃ r, r ∈ rows M ∧ key r ∉ map key (rows F).
Proof.
  unfold padded, unmatched.
  destruct (filter _ (rows M)) as [|x xs] eqn:Hf; cbn [length Nat.eqb negb].
  - split; [done|]. intros (r & Hr & Hk).
    assert (Hin : r ∈ filter (fun r => key r ∉ map key (rows F)) (rows M))
      by by apply list_elem_of_filter.
    rewrite Hf in Hin. by apply elem_of_nil in Hin.
  - split; [intros _|done].
    assert (Hin : x ∈ filter (fun r => key r ∉ map key (rows F)) (rows M))
      by (rewrite Hf; by constructor).
    apply list_elem_of_filter in Hin as [Hk Hx]. by exists x.
Qed.

Lemma padded_self (F : DataFrame) : padded F F = false.
Proof.
  apply not_true_iff_false. intros (r & Hr & Hk)%padded_true.
  apply Hk, elem_of_list_map. by exists r.
Qed.

(** Whether [F] is padded depends on the keys of the other frame
    only. *)
Lemma padded_ext (F M M' : DataFrame) :
  (∀ k, k ∈ map key (rows M) ↔ k ∈ map key (rows M')) ->
  padded F M = padded F M'.
Proof.
  intros Hk. apply Bool.eq_true_iff_eq. rewrite !padded_true.
  split; intros (r & Hr & Hn).
  - assert (Hin : key r ∈ map key (rows M'))
      by (apply Hk, elem_of_list_map; by exists r).
    apply elem_of_list_map in Hin as (r' & Heq & Hr').
    exists r'. split; [done|]. by rewrite <- Heq.
  - assert (Hin : key r ∈ map key (rows M))
      by (apply Hk, elem_of_list_map; by exists r).
    apply elem_of_list_map in Hin as (r' & Heq & Hr').
    exists r'. split; [done|]. by rewrite <- Heq.
Qed.

Lemma padded_left (F M F' : DataFrame) :
  (∀ f, f ∈ rows F -> key f ∈ map key (rows M)) ->
  padded F (outer_join M F') = padded M F' || padded F M.
Proof.
  intros Hsub. apply Bool.eq_true_iff_eq.
  rewrite orb_true_iff, !padded_true. split.
  - intros (r & Hr & Hn).
    assert (Hin : key r ∈ map key (rows (outer_join M F')))
      by (apply elem_of_list_map; by exists r).
    clear Hr.
    destruct (decide (key r ∈ map key (rows M))) as [HM|HM].
    + right. apply elem_of_list_map in HM as (m & Heq & Hm).
      exists m. split; [done|]. by rewrite <- Heq.
    + left. apply elem_of_list_map in Hin as (x & Heq & Hx).
      apply elem_of_merge_rows, key_merge_case in Hx as [Hx|Hx];
        rewrite <- Heq in Hx; [done|].
      apply elem_of_list_map in Hx as (f' & Heq' & Hf').
      exists f'. split; [done|]. by rewrite <- Heq'.
  - intros [(f' & Hf' & Hn)|(m & Hm & Hn)].
    + pose proof (merge_keys_right M F' f' Hf') as Hin.
      apply elem_of_list_map in Hin as (x & Heq & Hx).
      exists x. split; [done|]. rewrite <- Heq.
      intros (f & Heq' & Hf)%elem_of_list_map.
      apply Hn. rewrite Heq'. by apply Hsub.
    + pose proof (merge_keys_left M F' m Hm) as Hin.
      apply elem_of_list_map in Hin as (x & Heq & Hx).
      exists x. split; [done|]. by rewrite <- Heq.
Qed.

Lemma padded_right (M F' : DataFrame) :
  padded F' (outer_join M F') = padded F' M.
Proof.
  apply Bool.eq_true_iff_eq. rewrite !padded_true. split.
  - intros (x & Hx & Hn).
    apply elem_of_merge_rows, key_merge_case in Hx as [Hx|Hx]; [|done].
    apply elem_of_list_map in Hx as (m & Heq & Hm).
    exists m. split; [done|]. by rewrite <- Heq.
  - intros (m & Hm & Hn).
    pose proof (merge_keys_left M F' m Hm) as Hin.
    apply elem_of_list_map in Hin as (x & Heq & Hx).
    exists x. split; [done|]. by rewrite <- Heq.
Qed.

Lemma merged_inv_first (c : string) (F : DataFrame) :
  columns F = key_columns ++ [c] -> merged_inv [(c, F)] F.
Proof.
  intros Hcols. split.
  - done.
  - intros r c' F' Hr [-> ->]%list_elem_of_singleton%pair_eq.
    left. exists r. split; [done|]. split; [done|].
    by rewrite padded_self.
  - intros c' F' f [-> ->]%list_elem_of_singleton%pair_eq Hf.
    apply elem_of_list_map. by exists f.
  - intros r Hr. exists c, F, r. split; [by constructor|done].
  - intros H. apply (H c F). by constructor.
Qed.

Lemma merged_inv_step (S : list (string * DataFrame)) (M : DataFrame)
    (c' : string) (F' : DataFrame) :
  stat_frames_ok (S ++ [(c', F')]) ->
  merged_inv S M ->
  merged_inv (S ++ [(c', F')]) (outer_join M F').
Proof.
  intros Hok [Hcols Hcells Hkeys Hfrom Hnd].
  assert (HokS : ∀ c, c ∈ map fst S -> c ∉ key_columns).
  { intros c Hc. eapply stat_frames_ok_cols; [done|].
    rewrite map_app. apply elem_of_app. by left. }
  destruct Hok as [HndS Hok].
  destruct (Hok c' F') as [Hc'k HcolsF'].
  { apply elem_of_app. right. by constructor. }
  assert (Hc'S : c' ∉ map fst S).
  { rewrite map_app in HndS. apply NoDup_app in HndS as (_ & Hdis & _).
    intros Hin. apply (Hdis c' Hin). by constructor. }
  assert (Hlc : value_columns (columns M) = map fst S).
  { rewrite Hcols. by apply value_columns_keys_app. }
  assert (Hrc : value_columns (columns F') = [c']).
  { rewrite HcolsF'. apply value_columns_keys_app.
    by intros c ->%list_elem_of_singleton. }
  split.
  - unfold outer_join, unmatched. cbn [columns]. rewrite Hcols, Hrc, map_app.
    by rewrite <- app_assoc.
  - intros r c F Hr HcF. apply elem_of_merge_rows in Hr.
    apply elem_of_app in HcF as [HcF|[-> ->]%list_elem_of_singleton%pair_eq].
    + assert (Hc : c ∈ map fst S).
      { apply elem_of_list_map. by exists (c, F). }
      assert (Hleft : ∀ l, l ∈ rows M ->
                (∃ f, f ∈ rows F ∧ key f = key l
                      ∧ merge_cell M F' l c
                        = cast_if (padded F (outer_join M F')) (get_cell f c))
                ∨ ((∀ f, f ∈ rows F -> key f ≠ key l)
                   ∧ merge_cell M F' l c = NaN)).
      { intros l Hl.
        change (merge_cell M F' l c)
          with (cast_if (padded M F') (get_cell l c)).
        destruct (Hcells l c F Hl HcF) as [(f & Hf & Hk & Hh)|[Hno Hn]].
        - left. exists f. split; [done|]. split; [done|].
          rewrite Hh, cast_if_cast_if, padded_left; [done|].
          intros f0 Hf0. by eapply Hkeys.
        - right. split; [done|]. rewrite Hn. by destruct (padded M F'). }
      destruct Hr as [l Hl _ ->|l r' Hl _ _ ->|r' Hr' Hk ->];
        rewrite Hlc, Hrc, key_merged_row, get_cell_merged_row_left by done.
      * by apply Hleft.
      * by apply Hleft.
      * right. split; [|done]. intros f Hf Heq. apply Hk.
        rewrite <- Heq. by eapply Hkeys.
    + assert (Hc : c' ∈ [c']) by by constructor.
      destruct Hr as [l Hl Hno ->|l r' Hl Hr' Hk ->|r' Hr' Hk ->];
        rewrite Hlc, Hrc, key_merged_row, get_cell_merged_row_right by done.
      * by right.
      * left. exists r'. split; [done|]. split; [done|].
        by rewrite padded_right.
      * left. exists r'. split; [done|]. split; [done|].
        by rewrite padded_right.
  - intros c F f [HcF|[-> ->]%list_elem_of_singleton%pair_eq]%elem_of_app Hf.
    + specialize (Hkeys c F f HcF Hf).
      apply elem_of_list_map in Hkeys as (l & -> & Hl). by apply merge_keys_left.
    + by apply merge_keys_right.
  - intros r [l Hl _ ->|l r' Hl _ _ ->|r' Hr' _ ->]%elem_of_merge_rows;
      rewrite key_merged_row.
    + destruct (Hfrom l Hl) as (c & F & f & HcF & Hf & Hk).
      exists c, F, f. split; [apply elem_of_app; by left|done].
    + destruct (Hfrom l Hl) as (c & F & f & HcF & Hf & Hk).
      exists c, F, f. split; [apply elem_of_app; by left|done].
    + exists c', F', r'. split; [|done]. apply elem_of_app. right.
      by constructor.
  - intros H. apply merge_NoDup.
    + apply Hnd. intros c F HcF. apply (H c F). apply elem_of_app. by left.
    + apply (H c' F'). apply elem_of_app. right. by constructor.
Qed.

Lemma merged_inv_fold (rest : list (string * DataFrame)) :
  ∀ (S : list (string * DataFrame)) (M : DataFrame),
    stat_frames_ok (S ++ rest) ->
    merged_inv S M ->
    merged_inv (S ++ rest) (fold_left outer_join (map snd rest) M).
Proof.
  induction rest as [|[c F] rest IH]; intros S M Hok Hinv.
  - by rewrite app_nil_r.
  - cbn [map fold_left snd].
    replace (S ++ (c, F) :: rest) with ((S ++ [(c, F)]) ++ rest) in *
      by by rewrite <- app_assoc.
    apply IH; [done|]. apply merged_inv_step; [|done].
    destruct Hok as [Hnd Hok]. split.
    + rewrite map_app in Hnd. by apply NoDup_app in Hnd as (? & _).
    + intros c0 F0 Hin. apply Hok. apply elem_of_app. by left.
Qed.

(** The frames that load are well formed, with distinct stat columns. *)
Lemma NoDup_stat_columns : NoDup (map snd STAT_COLUMNS).
Proof. by_decide. Qed.

Lemma loaded_frames_ok (dir : inter_dir) (year_ : Z) :
  stat_frames_ok (loaded_frames dir year_).
Proof.
  split.
  - eapply sublist_NoDup; [apply NoDup_stat_columns|].
    unfold loaded_frames.
    induction STAT_COLUMNS as [|[s c] items IH]; [done|].
    cbn [omap list_omap map snd]. unfold frame_of at 1. cbn [fst snd].
    destruct (load_stat_for_year dir s year_ c) as [[df|]|];
      cbn [map fst]; by constructor.
  - intros c F (s & Hin & Hload)%elem_of_loaded_frames.
    apply load_stat_for_year_Some in Hload as (header & records & _ & ->).
    split; [|done].
    assert (Hall : Forall (fun c => c ∉ key_columns) (map snd STAT_COLUMNS)).
    { by_decide. }
    rewrite Forall_forall in Hall. apply Hall.
    apply elem_of_list_map. by exists (s, c).
Qed.

(** The frame after the [reduce] of [build_for_year]. *)
Lemma merged_inv_loaded (dir : inter_dir) (year_ : Z)
    (first : string * DataFrame) (rest : list (string * DataFrame)) :
  loaded_frames dir year_ = first :: rest ->
  merged_inv (loaded_frames dir year_)
    (fold_left outer_join (map snd rest) first.2).
Proof.
  intros Heq. pose proof (loaded_frames_ok dir year_) as Hok.
  rewrite Heq in *. destruct first as [c F].
  apply (merged_inv_fold rest [(c, F)]); [done|].
  apply merged_inv_first. apply (proj2 Hok c F). by constructor.
Qed.

(** *** The dtype of the names *)

Lemma int64_keys_true (df : DataFrame) :
  int64_keys df = true
  ↔ ∀ r, r ∈ rows df -> is_int (player_name r) = true.
Proof.
  unfold int64_keys. rewrite forallb_forall. split.
  - intros H r Hr. by apply H, list_elem_of_In.
  - intros H r Hr. by apply H, list_elem_of_In.
Qed.

Lemma int64_keys_false (df : DataFrame) :
  int64_keys df = false
  ↔ ∃ r, r ∈ rows df ∧ is_int (player_name r) = false.
Proof.
  unfold int64_keys. split.
  - intros H. induction (rows df) as [|r l IH]; [done|].
    cbn [forallb] in H. apply andb_false_iff in H as [H|H].
    + exists r. split; [by constructor|done].
    + destruct (IH H) as (r' & Hr' & Hn). exists r'.
      split; [by constructor|done].
  - intros (r & Hr & Hn).
    destruct (forallb _ (rows df)) eqn:Hall; [|done].
    rewrite forallb_forall in Hall.
    apply list_elem_of_In, Hall in Hr. congruence.
Qed.

Lemma outer_join_nonempty (L R : DataFrame) :
  rows L ≠ [] -> rows (outer_join L R) ≠ [].
Proof.
  intros HL Hnil. destruct (rows L) as [|l ls] eqn:Hrows; [done|].
  assert (Hl : l ∈ rows L) by (rewrite Hrows; by constructor).
  pose proof (merge_keys_left L R l Hl) as Hk.
  rewrite Hnil in Hk. by apply elem_of_nil in Hk.
Qed.

Lemma int64_keys_outer_join (L R : DataFrame) :
  int64_keys R = int64_keys L ->
  int64_keys (outer_join L R) = int64_keys L.
Proof.
  intros Heq. destruct (int64_keys L) eqn:HL.
  - apply int64_keys_true. intros r Hr%elem_of_merge_rows.
    rewrite int64_keys_true in Heq, HL.
    destruct (key_merge_case L R r Hr)
      as [(l & Hk & Hl)%elem_of_list_map|(r' & Hk & Hr')%elem_of_list_map];
      injection Hk as _ ->; auto.
  - apply int64_keys_false. apply int64_keys_false in HL as (l & Hl & Hn).
    pose proof (merge_keys_left L R l Hl) as (r & Hk & Hr)%elem_of_list_map.
    exists r. split; [done|]. injection Hk as _ <-. done.
Qed.

Lemma merge_nonempty (L R : DataFrame) :
  rows L ≠ [] -> rows R ≠ [] ->
  merge L R = if Bool.eqb (int64_keys L) (int64_keys R)
              then Ok (outer_join L R) else Raise MergeDtypeError.
Proof.
  intros HL HR. unfold merge.
  destruct (rows L) as [|l ls]; [done|]. destruct (rows R) as [|r rs]; [done|].
  cbn [length Nat.eqb negb andb]. by destruct (Bool.eqb _ _).
Qed.

Lemma reduce_merge_spec (rest : list DataFrame) :
  ∀ first,
    rows first ≠ [] ->
    Forall (fun df => rows df ≠ []) rest ->
    reduce merge first rest
    = if same_key_dtype (first :: rest)
      then Ok (fold_left outer_join rest first)
      else Raise MergeDtypeError.
Proof.
  induction rest as [|x rest IH]; intros first Hfirst Hrest; [done|].
  apply Forall_cons in Hrest as [Hx Hrest].
  cbn [reduce fold_left same_key_dtype forallb].
  rewrite (merge_nonempty first x Hfirst Hx).
  destruct (Bool.eqb (int64_keys first) (int64_keys x)) eqn:Heq.
  - apply Bool.eqb_prop in Heq. cbn [mbind result_bind].
    rewrite IH; [|by apply outer_join_nonempty|done].
    cbn [same_key_dtype]. rewrite <- Heq, Bool.eqb_reflx. cbn [andb].
    by rewrite int64_keys_outer_join.
  - cbn [mbind result_bind].
    by destruct (int64_keys first), (int64_keys x).
Qed.

Lemma same_key_dtype_spec (dfs : list DataFrame) :
  same_key_dtype dfs = true
  ↔ ∀ df df', df ∈ dfs -> df' ∈ dfs -> int64_keys df = int64_keys df'.
Proof.
  destruct dfs as [|first rest]; cbn [same_key_dtype].
  - split; [|done]. by intros _ df df' ?%elem_of_nil.
  - rewrite forallb_forall. split.
    + intros H df df' Hdf Hdf'.
      assert (Hone : ∀ d, d ∈ first :: rest ->
                          int64_keys d = int64_keys first).
      { intros d [->|Hd]%elem_of_cons; [done|].
        by apply Bool.eqb_prop, H, list_elem_of_In. }
      by rewrite (Hone df), (Hone df').
    + intros H d Hd%list_elem_of_In.
      rewrite (H d first); [apply Bool.eqb_reflx| |]; by constructor.
Qed.

(** *** Derived column, back-fill, column order *)

Lemma select_Ok (cols : list string) (df : DataFrame) :
  (∀ c, c ∈ cols -> c ∈ columns df) ->
  select cols df
  = Ok {| columns := cols;
          rows := map (fun r =>
                         {| year := year r; player_name := player_name r;
                            cells := tabulate (value_columns cols)
                                       (get_cell r) |})
                      (rows df) |}.
Proof.
  intros H. unfold select.
  assert (Hfind : find (fun c => bool_decide (c ∉ columns df)) cols = None).
  { induction cols as [|c cols IH]; [done|]. cbn [find].
    rewrite bool_decide_eq_false_2.
    - apply IH. intros c' Hc'. apply H. by constructor.
    - intros Hn. apply Hn, H. by constructor. }
  by rewrite Hfind.
Qed.

(** The back-fill loop touches exactly the cells of the listed columns
    that are absent. *)
Lemma backfill_cons (a : string) (l : list string) (M : DataFrame) :
  backfill (a :: l) M
  = backfill l (if bool_decide (a ∈ columns M) then M
                     else set_column a (fun _ => PyNone) M).
Proof. done. Qed.

Lemma backfill_spec (l : list string) :
  ∀ M,
    (∀ c, c ∈ columns (backfill l M) ↔ c ∈ columns M ∨ c ∈ l)
    ∧ ∃ g, rows (backfill l M) = map g (rows M)
           ∧ ∀ r, key (g r) = key r
                  ∧ ∀ c, Py.dict_get c (cells (g r))
                         = if decide (c ∈ l ∧ c ∉ columns M)
                           then Some PyNone
                           else Py.dict_get c (cells r).
Proof.
  induction l as [|a l IH]; intros M.
  - split.
    + intros c. cbn. split; [by left|]. intros [?|?%elem_of_nil]; done.
    + exists (fun r => r). split; [by rewrite map_id|].
      intros r. split; [done|]. intros c.
      destruct (decide _) as [[?%elem_of_nil _]|]; done.
  - rewrite backfill_cons. case_bool_decide as Ha.
    + destruct (IH M) as (Hcols & g & Hrows & Hg). split.
      * intros c. rewrite Hcols, elem_of_cons.
        intuition (subst; auto).
      * exists g. split; [done|]. intros r.
        destruct (Hg r) as [Hk Hc]. split; [done|]. intros c. rewrite Hc.
        destruct (decide (c ∈ l ∧ c ∉ columns M)) as [[H1 H2]|Hn],
                 (decide (c ∈ a :: l ∧ c ∉ columns M)) as [[H3 H4]|Hn'];
          try done.
        -- exfalso. apply Hn'. split; [by constructor|done].
        -- exfalso. apply elem_of_cons in H3 as [->|H3]; [done|].
           by apply Hn.
    + destruct (IH (set_column a (fun _ => PyNone) M))
        as (Hcols & g & Hrows & Hg).
      assert (Hc1 : columns (set_column a (fun _ => PyNone) M)
                    = columns M ++ [a]).
      { unfold set_column. cbn [columns].
        by rewrite bool_decide_eq_false_2. }
      split.
      * intros c.
        rewrite Hcols, Hc1, elem_of_app, list_elem_of_singleton, elem_of_cons.
        tauto.
      * eexists (fun r => g {| year := year r; player_name := player_name r;
                               cells := set_cell a PyNone (cells r) |}).
        split.
        { rewrite Hrows. unfold set_column. cbn [rows].
          by rewrite map_map. }
        intros r. destruct (Hg {| year := year r;
                                  player_name := player_name r;
                                  cells := set_cell a PyNone (cells r) |})
          as [Hk Hc].
        split; [by rewrite Hk|]. intros c. rewrite Hc, Hc1. cbn [cells].
        rewrite dict_get_set_cell.
        destruct (decide (c = a)) as [->|Hne].
        -- destruct (decide (a ∈ l ∧ a ∉ columns M ++ [a])) as [[_ Hn]|_].
           ++ exfalso. apply Hn, elem_of_app. right. by constructor.
           ++ destruct (decide (a ∈ a :: l ∧ a ∉ columns M)) as [|Hn];
                [done|].
              exfalso. apply Hn. split; [by constructor|done].
        -- destruct (decide (c ∈ l ∧ c ∉ columns M ++ [a])) as [[H1 H2]|Hn],
                    (decide (c ∈ a :: l ∧ c ∉ columns M)) as [[H3 H4]|Hn'];
             try done.
           ++ exfalso. apply Hn'. split; [by constructor|].
              intros ?. apply H2, elem_of_app. by left.
           ++ exfalso. apply Hn.
              apply elem_of_cons in H3 as [->|H3]; [done|].
              split; [done|].
              intros [?|?%list_elem_of_singleton]%elem_of_app; done.
Qed.

Lemma key_final_row (M : DataFrame) (r : row) : key (final_row M r) = key r.
Proof. done. Qed.

Lemma finish_spec (M : DataFrame) :
  "sg_tee_to_green" ∉ columns M ->
  select expected_cols (backfill expected_cols (add_tee_to_green M))
  = Ok {| columns := expected_cols; rows := map (final_row M) (rows M) |}.
Proof.
  intros Ht2g.
  set (b := forallb (fun c => bool_decide (c ∈ columns M)) sg_components).
  set (h := fun r : row =>
              if b then {| year := year r; player_name := player_name r;
                           cells := set_cell "sg_tee_to_green"
                                      (tee_to_green r) (cells r) |}
              else r).
  assert (Hrows1 : rows (add_tee_to_green M) = map h (rows M)).
  { unfold add_tee_to_green, h. fold b. destruct b; [done|].
    by rewrite map_id. }
  assert (Hcols1 : ∀ c, c ≠ "sg_tee_to_green" ->
                        c ∈ columns (add_tee_to_green M) ↔ c ∈ columns M).
  { intros c Hc. unfold add_tee_to_green. fold b. destruct b; [|done].
    unfold set_column. cbn [columns].
    rewrite bool_decide_eq_false_2 by done.
    rewrite elem_of_app, list_elem_of_singleton. tauto. }
  assert (Hcols1' : "sg_tee_to_green" ∈ columns (add_tee_to_green M)
                    ↔ b = true).
  { unfold add_tee_to_green. fold b. destruct b; [|done].
    unfold set_column. cbn [columns].
    rewrite bool_decide_eq_false_2 by done.
    rewrite elem_of_app, list_elem_of_singleton. tauto. }
  destruct (backfill_spec expected_cols (add_tee_to_green M))
    as (Hcols2 & g & Hrows2 & Hg).
  assert (Hall : ∀ c, c ∈ expected_cols ->
                      c ∈ columns (backfill expected_cols
                                     (add_tee_to_green M))).
  { intros c Hc. apply Hcols2. right. exact Hc. }
  rewrite (select_Ok _ _ Hall).
  f_equal. f_equal. rewrite Hrows2, Hrows1, !map_map.
  apply map_ext. intros r. destruct (Hg (h r)) as [Hk Hc].
  assert (Hkey : key (g (h r)) = key r).
  { rewrite Hk. unfold h. by destruct b. }
  injection Hkey as Hy Hp. unfold final_row. rewrite Hy, Hp. f_equal.
  apply tabulate_ext. intros c [_ Hexp]%elem_of_value_columns.
  unfold get_cell at 1. rewrite Hc. unfold final_cell. fold b.
  destruct (decide (c = "sg_tee_to_green")) as [->|Hne].
  - destruct b eqn:Hb.
    + rewrite decide_False by (intros [_ Hn]; by apply Hn, Hcols1').
      unfold h. cbn [cells]. rewrite dict_get_set_cell.
      by rewrite decide_True.
    + rewrite decide_True; [done|]. split; [done|].
      rewrite Hcols1'. done.
  - destruct (decide (c ∈ columns M)) as [Hin|Hnin].
    + rewrite decide_False by (intros [_ Hn]; by apply Hn, Hcols1).
      unfold h. destruct b; [|done]. cbn [cells].
      rewrite dict_get_set_cell. by rewrite decide_False.
    + rewrite decide_True; [done|]. split; [done|]. by rewrite Hcols1.
Qed.

Lemma merged_frame_inv (dir : inter_dir) (year_ : Z) (M : DataFrame) :
  merged_frame dir year_ = Some M ->
  merged_inv (loaded_frames dir year_) M.
Proof.
  unfold merged_frame.
  destruct (loaded_frames dir year_) as [|first rest] eqn:Heq; [done|].
  intros [= <-]. rewrite <- Heq. by apply merged_inv_loaded.
Qed.

Lemma merged_frame_columns (dir : inter_dir) (year_ : Z) (M : DataFrame)
    (c : string) :
  merged_frame dir year_ = Some M ->
  c ∈ columns M
  ↔ c ∈ key_columns
    ∨ ∃ s df, (s, c) ∈ STAT_COLUMNS
              ∧ load_stat_for_year dir s year_ c = Ok (Some df).
Proof.
  intros HM. rewrite (inv_columns _ _ (merged_frame_inv _ _ _ HM)).
  rewrite elem_of_app, elem_of_list_map. split.
  - intros [?|([c' df] & -> & (s & ? & ?)%elem_of_loaded_frames)];
      [by left|right; eauto].
  - intros [?|(s & df & Hin & Hl)]; [by left|right].
    exists (c, df). split; [done|]. apply elem_of_loaded_frames. eauto.
Qed.

Lemma tee_to_green_not_merged (dir : inter_dir) (year_ : Z) (M : DataFrame) :
  merged_frame dir year_ = Some M -> "sg_tee_to_green" ∉ columns M.
Proof.
  intros HM. rewrite (merged_frame_columns _ _ _ _ HM).
  intros [Hk|(s & df & Hin & _)].
  - by apply (bool_decide_pack _) in Hk.
  - assert (Hc : "sg_tee_to_green" ∈ map snd STAT_COLUMNS).
    { apply elem_of_list_map. by exists (s, "sg_tee_to_green"). }
    by apply (bool_decide_pack _) in Hc.
Qed.

Lemma loaded_frames_nonempty (dir : inter_dir) (year_ : Z) :
  Forall (fun df => rows df ≠ []) (map snd (loaded_frames dir year_)).
Proof.
  apply Forall_forall.
  intros df ([c df'] & -> & (s & _ & Hl)%elem_of_loaded_frames)%elem_of_list_map.
  by eapply load_stat_for_year_nonempty.
Qed.

Lemma bind_Ok {A B : Type} (a : A) (k : A -> result B) :
  (x ← Ok a; k x) = k a.
Proof. reflexivity. Qed.

Lemma bind_Raise {A B : Type} (e : exn) (k : A -> result B) :
  (x ← Raise e; k x) = Raise e.
Proof. reflexivity. Qed.

Lemma build_tail_spec (first : DataFrame) (rest : list DataFrame) :
  rows first ≠ [] ->
  Forall (fun df => rows df ≠ []) rest ->
  "sg_tee_to_green" ∉ columns (fold_left outer_join rest first) ->
  (merged ← reduce merge first rest;
   merged ← select expected_cols
              (backfill expected_cols (add_tee_to_green merged));
   Ok (sort_values merged))
  = if same_key_dtype (first :: rest)
    then Ok {| columns := expected_cols;
               rows := stable_sort key_leb
                         (map (final_row (fold_left outer_join rest first))
                            (rows (fold_left outer_join rest first))) |}
    else Raise MergeDtypeError.
Proof.
  intros Hfirst Hrest Ht.
  rewrite (reduce_merge_spec _ _ Hfirst Hrest).
  destruct (same_key_dtype (first :: rest)); [|apply bind_Raise].
  rewrite bind_Ok, finish_spec by done. by rewrite bind_Ok.
Qed.

(** [build_for_year] in closed form. *)
Lemma build_for_year_spec (dir : inter_dir) (year_ : Z) :
  build_for_year dir year_
  = match merged_frame dir year_ with
    | None =>
        Raise (NoDataForYear year_
                 (omap (skipped_of dir year_) STAT_COLUMNS)
                 (omap (empty_of dir year_) STAT_COLUMNS))
    | Some M =>
        if same_key_dtype (map snd (loaded_frames dir year_))
        then Ok {| columns := expected_cols;
                   rows := stable_sort key_leb (map (final_row M) (rows M)) |}
        else Raise MergeDtypeError
    end.
Proof.
  unfold build_for_year.
  destruct (load_all_spec dir year_) as (Hf & Hs & He).
  rewrite Hf, Hs, He.
  pose proof (loaded_frames_nonempty dir year_) as Hne.
  pose proof (tee_to_green_not_merged dir year_) as Ht.
  unfold merged_frame in *.
  destruct (loaded_frames dir year_) as [|first rest]; [done|].
  apply Forall_cons in Hne as [Hfirst Hrest].
  apply (build_tail_spec first.2 (map snd rest) Hfirst Hrest).
  by apply Ht.
Qed.

Lemma build_for_year_Ok (dir : inter_dir) (year_ : Z) (out : DataFrame) :
  build_for_year dir year_ = Ok out ->
  ∃ M, merged_frame dir year_ = Some M
       ∧ columns out = expected_cols
       ∧ rows out = stable_sort key_leb (map (final_row M) (rows M)).
Proof.
  rewrite build_for_year_spec.
  destruct (merged_frame dir year_) as [M|]; [|done].
  destruct (same_key_dtype _); [|done].
  intros [= <-]. by exists M.
Qed.

Lemma build_for_year_Ok_dtype (dir : inter_dir) (year_ : Z)
    (out : DataFrame) :
  build_for_year dir year_ = Ok out ->
  same_key_dtype (map snd (loaded_frames dir year_)) = true.
Proof.
  rewrite build_for_year_spec.
  destruct (merged_frame dir year_) as [M|]; [|done].
  by destruct (same_key_dtype _).
Qed.

Lemma keys_agree_spec (dir : inter_dir) (year_ : Z) :
  keys_agree dir year_
  ↔ same_key_dtype (map snd (loaded_frames dir year_)) = true.
Proof.
  rewrite same_key_dtype_spec. unfold keys_agree. split.
  - intros H df df'
      ([c d] & -> & (s & Hin & Hl)%elem_of_loaded_frames)%elem_of_list_map
      ([c' d'] & -> & (s' & Hin' & Hl')%elem_of_loaded_frames)%elem_of_list_map.
    by eapply (H s c d s' c' d').
  - intros H s c df s' c' df' Hin Hin' Hl Hl'.
    apply H; apply elem_of_list_map.
    + exists (c, df). split; [done|]. apply elem_of_loaded_frames. eauto.
    + exists (c', df'). split; [done|]. apply elem_of_loaded_frames. eauto.
Qed.

Lemma elem_of_build_rows (M : DataFrame) (r : row) :
  r ∈ stable_sort key_leb (map (final_row M) (rows M))
  ↔ ∃ m, m ∈ rows M ∧ r = final_row M m.
Proof.
  rewrite elem_of_stable_sort, elem_of_list_map.
  split; intros (m & H1 & H2); by exists m.
Qed.

(** *** The configuration *)

Lemma pairs_unique_snd {A B : Type} (l : list (A * B)) (a a' : A) (b : B) :
  NoDup (map snd l) -> (a, b) ∈ l -> (a', b) ∈ l -> a = a'.
Proof.
  induction l as [|[x y] l IH]; intros Hnd H1 H2.
  - by apply elem_of_nil in H1.
  - cbn [map snd] in Hnd. apply NoDup_cons in Hnd as [Hnin Hnd].
    apply elem_of_cons in H1 as [H1|H1];
      apply elem_of_cons in H2 as [H2|H2]; simplify_eq; try done.
    + exfalso. apply Hnin, elem_of_list_map. by exists (a', y).
    + exfalso. apply Hnin, elem_of_list_map. by exists (a, y).
    + by apply IH.
Qed.

Lemma pairs_unique_fst {A B : Type} (l : list (A * B)) (a : A) (b b' : B) :
  NoDup (map fst l) -> (a, b) ∈ l -> (a, b') ∈ l -> b = b'.
Proof.
  induction l as [|[x y] l IH]; intros Hnd H1 H2.
  - by apply elem_of_nil in H1.
  - cbn [map fst] in Hnd. apply NoDup_cons in Hnd as [Hnin Hnd].
    apply elem_of_cons in H1 as [H1|H1];
      apply elem_of_cons in H2 as [H2|H2]; simplify_eq; try done.
    + exfalso. apply Hnin, elem_of_list_map. by exists (x, b').
    + exfalso. apply Hnin, elem_of_list_map. by exists (x, b).
    + by apply IH.
Qed.

Lemma NoDup_stat_names : NoDup (map fst STAT_COLUMNS).
Proof. by_decide. Qed.

Lemma stat_column_expected (s c : string) :
  (s, c) ∈ STAT_COLUMNS ->
  c ∈ value_columns expected_cols ∧ c ≠ "sg_tee_to_green".
Proof.
  intros Hin.
  assert (Hall : Forall (fun c => c ∈ value_columns expected_cols
                                  ∧ c ≠ "sg_tee_to_green")
                   (map snd STAT_COLUMNS)).
  { by_decide. }
  rewrite Forall_forall in Hall. apply Hall, elem_of_list_map. by exists (s, c).
Qed.

(** A stat that does not load leaves no column in the merged frame. *)
Lemma not_loaded_not_merged (dir : inter_dir) (year_ : Z) (M : DataFrame)
    (s c : string) :
  merged_frame dir year_ = Some M ->
  (s, c) ∈ STAT_COLUMNS ->
  (∀ df, load_stat_for_year dir s year_ c ≠ Ok (Some df)) ->
  c ∉ columns M.
Proof.
  intros HM Hin Hno. rewrite (merged_frame_columns _ _ _ _ HM).
  intros [Hk|(s' & df & Hin' & Hl)].
  - destruct (stat_column_expected s c Hin) as [Hv _].
    by apply elem_of_value_columns in Hv as [? _].
  - rewrite (pairs_unique_snd _ _ _ _ NoDup_stat_columns Hin Hin') in Hno.
    by apply (Hno df).
Qed.

Lemma get_cell_final_row (M : DataFrame) (m : row) (c : string) :
  c ∈ value_columns expected_cols ->
  get_cell (final_row M m) c = final_cell M m c.
Proof. intros Hc. unfold final_row. by rewrite get_cell_tabulate. Qed.

(** The cell of a stat that did not load is [None] in every row. *)
Lemma not_loaded_cell (dir : inter_dir) (year_ : Z) (out : DataFrame)
    (s c : string) (r : row) :
  build_for_year dir year_ = Ok out ->
  (s, c) ∈ STAT_COLUMNS ->
  (∀ df, load_stat_for_year dir s year_ c ≠ Ok (Some df)) ->
  r ∈ rows out ->
  get_cell r c = PyNone.
Proof.
  intros (M & HM & _ & ->)%build_for_year_Ok Hin Hno
         (m & Hm & ->)%elem_of_build_rows.
  destruct (stat_column_expected s c Hin) as [Hv Hne].
  rewrite get_cell_final_row by done. unfold final_cell.
  rewrite decide_False by done.
  rewrite decide_False; [done|]. by eapply not_loaded_not_merged.
Qed.

(** Every key of a frame that loaded is the key of an output row. *)
Lemma loaded_key_in_output (dir : inter_dir) (year_ : Z) (out : DataFrame)
    (s c : string) (df : DataFrame) (f : row) :
  build_for_year dir year_ = Ok out ->
  (s, c) ∈ STAT_COLUMNS ->
  load_stat_for_year dir s year_ c = Ok (Some df) ->
  f ∈ rows df ->
  ∃ r, r ∈ rows out ∧ key r = key f.
Proof.
  intros (M & HM & _ & ->)%build_for_year_Ok Hin Hl Hf.
  pose proof (merged_frame_inv _ _ _ HM) as Hinv.
  assert (HcF : (c, df) ∈ loaded_frames dir year_)
    by (apply elem_of_loaded_frames; eauto).
  pose proof (inv_keys _ _ Hinv c df f HcF Hf) as Hk.
  apply elem_of_list_map in Hk as (m & Hk & Hm).
  exists (final_row M m). split; [|by rewrite key_final_row].
  apply elem_of_build_rows. eauto.
Qed.

(** The rows a file loads as, record by record. *)
Lemma loaded_row_of_record (dir : inter_dir) (year_ : Z) (s c : string)
    (df : DataFrame) (header : list string)
    (data : table) :
  load_stat_for_year dir s year_ c = Ok (Some df) ->
  dir !! (s, year_) = Some (Csv header data) ->
  ∀ f, f ∈ rows df
       ↔ ∃ rec, rec ∈ records data
                ∧ rec_player_name rec = Some (player_name f)
                ∧ rec_year rec = year f
                ∧ cells f = [(c, rec_value rec)].
Proof.
  intros (header' & records' & Hdir & ->)%load_stat_for_year_Some Hdir' f.
  rewrite Hdir in Hdir'. injection Hdir' as -> ->. cbn [rows].
  rewrite list_elem_of_omap. unfold row_of_record. split.
  - intros (rec & Hrec & Hf). exists rec. split; [done|].
    destruct (rec_player_name rec); [|done]. by injection Hf as <-.
  - intros (rec & Hrec & Hp & Hy & Hc). exists rec. split; [done|].
    rewrite Hp, Hy, <- Hc. by destruct f.
Qed.

(** *** The driver *)

Lemma discover_years_NoDup (dir : inter_dir) : NoDup (discover_years dir).
Proof.
  unfold discover_years. rewrite stable_sort_perm. apply NoDup_elements.
Qed.

Lemma discover_years_Sorted (dir : inter_dir) :
  Sorted Z.le (discover_years dir).
Proof.
  unfold discover_years.
  eapply Sorted_weaken; [|apply stable_sort_Sorted].
  - intros a b. apply Z.leb_le.
  - intros a b. rewrite !Z.leb_le. lia.
Qed.

Lemma elem_of_discover_years (dir : inter_dir) (y : Z) :
  y ∈ discover_years dir ↔ ∃ s, is_Some (dir !! (s, y)).
Proof.
  unfold discover_years.
  rewrite elem_of_stable_sort, elem_of_elements, elem_of_map.
  split.
  - intros ([s y'] & -> & Hin%elem_of_dom). by exists s.
  - intros (s & Hs). exists (s, y). split; [done|]. by apply elem_of_dom.
Qed.

Lemma build_year_discovered (dir : inter_dir) (y : Z) (df : DataFrame) :
  build_for_year dir y = Ok df -> y ∈ discover_years dir.
Proof.
  intros (M & HM & _)%build_for_year_Ok. unfold merged_frame in HM.
  destruct (loaded_frames dir y) as [|[c F] rest] eqn:Heq; [done|].
  assert (Hin : (c, F) ∈ loaded_frames dir y) by (rewrite Heq; by constructor).
  apply elem_of_loaded_frames in Hin as (s & _ & Hl).
  apply load_stat_for_year_Some in Hl as (h & recs & Hdir & _).
  apply elem_of_discover_years. exists s. by rewrite Hdir.
Qed.

Lemma main_loop_cons (dir : inter_dir) (y0 : Z) (years : list Z)
    (out : proc_dir) (acc : list DataFrame) :
  main_loop dir (y0 :: years) out acc
  = match build_for_year dir y0 with
    | Raise e => (out, Raise e)
    | Ok df_year =>
        main_loop dir years
          {| master_year := <[y0 := df_year]> (master_year out);
             master_player_seasons := master_player_seasons out |}
          (acc ++ [df_year])
    end.
Proof. reflexivity. Qed.

Lemma main_loop_spec (dir : inter_dir) (years : list Z) :
  ∀ (out : proc_dir) (acc : list DataFrame) (out' : proc_dir)
    (all_years : list DataFrame),
    main_loop dir years out acc = (out', Ok all_years) ->
    ∃ dfs,
      Forall2 (fun y df => build_for_year dir y = Ok df) years dfs
      ∧ all_years = acc ++ dfs
      ∧ master_player_seasons out' = master_player_seasons out
      ∧ (∀ y, y ∉ years -> master_year out' !! y = master_year out !! y)
      ∧ (∀ y df, y ∈ years -> build_for_year dir y = Ok df ->
                 master_year out' !! y = Some df).
Proof.
  induction years as [|y0 years IH]; intros out acc out' all_years Hrun.
  - injection Hrun as <- <-. exists []. rewrite app_nil_r.
    repeat split; try done. intros y df Hy. by apply elem_of_nil in Hy.
  - rewrite main_loop_cons in Hrun.
    destruct (build_for_year dir y0) as [d0|] eqn:Hb; [|done].
    apply IH in Hrun as (dfs & Hall & -> & Hm & Hout & Hin).
    exists (d0 :: dfs). split; [by constructor|].
    split; [by rewrite <- app_assoc|]. split; [done|]. split.
    + intros y Hy. rewrite Hout.
      * cbn [master_year]. apply lookup_insert_ne.
        intros ->. apply Hy. by constructor.
      * intros ?. apply Hy. by constructor.
    + intros y df Hy Hdf.
      destruct (decide (y ∈ years)) as [Hys|Hys]; [by apply Hin|].
      apply elem_of_cons in Hy as [->|Hy]; [|done].
      rewrite Hout by done. cbn [master_year].
      rewrite Hb in Hdf. injection Hdf as <-. apply lookup_insert_eq.
Qed.

Lemma build_for_year_season_frame (dir : inter_dir) (y : Z)
    (df : DataFrame) :
  build_for_year dir y = Ok df -> season_frame df.
Proof.
  intros (M & _ & Hcols & Hrows)%build_for_year_Ok. split; [done|].
  intros r. rewrite Hrows.
  intros (m & _ & ->)%elem_of_build_rows. by eexists.
Qed.

Lemma concat_columns_season (dfs : list DataFrame) :
  dfs ≠ [] -> Forall season_frame dfs -> concat_columns dfs = expected_cols.
Proof.
  intros Hne Hall. unfold concat_columns.
  assert (Hstep : ∀ l, Forall season_frame l ->
            fold_left (fun acc df =>
                         acc ++ filter (fun c => c ∉ acc) (columns df))
                      l expected_cols = expected_cols).
  { induction l as [|d l IH]; [done|]. intros [[Hd _] Hl]%Forall_cons.
    cbn [fold_left]. rewrite Hd.
    replace (filter (fun c => c ∉ expected_cols) expected_cols)
      with (@nil string) by by vm_compute.
    rewrite app_nil_r. by apply IH. }
  destruct dfs as [|d dfs]; [done|].
  apply Forall_cons in Hall as [[Hd _] Hl].
  cbn [fold_left app]. rewrite Hd.
  replace (filter (fun c => c ∉ []) expected_cols) with expected_cols
    by by vm_compute.
  by apply Hstep.
Qed.

Lemma concat_rows_season (dfs : list DataFrame) :
  dfs ≠ [] -> Forall season_frame dfs ->
  rows (concat dfs)
  = flat_map (fun df => map (as_concatenated dfs) (rows df)) dfs.
Proof.
  intros Hne Hall. unfold concat. cbn [rows].
  by rewrite (concat_columns_season dfs Hne Hall).
Qed.

Lemma key_as_concatenated (dfs : list DataFrame) (r : row) :
  key (as_concatenated dfs r) = key r.
Proof. done. Qed.

Lemma get_cell_as_concatenated (dfs : list DataFrame) (r : row)
    (c : string) :
  c ∈ value_columns expected_cols ->
  get_cell (as_concatenated dfs r) c
  = cast_if (float64_in c dfs) (get_cell r c).
Proof. intros Hc. unfold as_concatenated. by rewrite get_cell_tabulate. Qed.

(** A row without int64 cells, or of years that hold no float in the
    columns in which it has one, is concatenated as it is. *)
Lemma as_concatenated_same (dfs : list DataFrame) (df : DataFrame)
    (r : row) :
  season_frame df -> r ∈ rows df ->
  (∀ c z, get_cell r c = Int64 z -> float64_in c dfs = false) ->
  as_concatenated dfs r = r.
Proof.
  intros [_ Hd] Hr Hint. destruct (Hd r Hr) as [f Hf].
  destruct r as [yr pn cs]. cbn [cells] in Hf. subst cs.
  unfold as_concatenated. cbn [year player_name].
  apply (f_equal (Build_row yr pn)). apply tabulate_ext. intros c Hc.
  rewrite get_cell_tabulate by done.
  destruct (float64_in c dfs) eqn:Hfl; [|done]. cbn [cast_if].
  destruct (f c) as [| |z] eqn:Hfc; try done.
  specialize (Hint c z). rewrite get_cell_tabulate in Hint by done.
  rewrite Hint in Hfl; done.
Qed.

Lemma main_Ok (dir : inter_dir) (out out' : proc_dir) :
  main dir out = (out', Ok tt) ->
  discover_years dir ≠ [] ->
  ∃ dfs,
    Forall2 (fun y df => build_for_year dir y = Ok df
                         ∧ master_year out' !! y = Some df)
            (discover_years dir) dfs
    ∧ master_player_seasons out' = Some (concat dfs).
Proof.
  unfold main. intros Hrun Hne.
  destruct (discover_years dir) as [|y0 years] eqn:Hyears; [done|].
  destruct (main_loop dir (y0 :: years) out []) as [out1 [all|e]] eqn:Hloop;
    [|done].
  injection Hrun as <-.
  apply main_loop_spec in Hloop as (dfs & Hall & -> & _ & _ & Hin).
  exists dfs. split; [|done]. cbn [master_year app].
  eapply Forall2_impl; [exact (Forall2_with_elem _ _ _ Hall)|].
  intros y df [Hy Hb]. split; [done|]. by apply Hin.
Qed.

Lemma build_two_years_2023 :
  build_for_year two_years 2023 = Ok (built two_years 2023).
Proof. by vm_compute. Qed.

Lemma build_two_years_2024 :
  build_for_year two_years 2024 = Ok (built two_years 2024).
Proof. by vm_compute. Qed.

Lemma main_two_years :
  main two_years empty_proc = ((main two_years empty_proc).1, Ok tt).
Proof. by vm_compute. Qed.

(** *** C6 *)

Lemma merged_frame_None (dir : inter_dir) (y : Z) :
  merged_frame dir y = None ↔ no_data dir y.
Proof.
  unfold merged_frame, no_data. split.
  - destruct (loaded_frames dir y) as [|x l] eqn:Heq; [|done].
    intros _ s c df Hin Hl.
    assert (Hx : (c, df) ∈ loaded_frames dir y)
      by (apply elem_of_loaded_frames; eauto).
    rewrite Heq in Hx. by apply elem_of_nil in Hx.
  - intros Hno.
    destruct (loaded_frames dir y) as [|[c df] l] eqn:Heq; [done|].
    assert (Hx : (c, df) ∈ loaded_frames dir y)
      by (rewrite Heq; by constructor).
    apply elem_of_loaded_frames in Hx as (s & Hin & Hl).
    by destruct (Hno s c df Hin).
Qed.

Lemma keys_clash_spec (dir : inter_dir) (y : Z) :
  keys_clash dir y
  ↔ same_key_dtype (map snd (loaded_frames dir y)) = false.
Proof.
  split.
  - intros (s & c & df & s' & c' & df' & Hin & Hin' & Hl & Hl' & Ht & Hf).
    destruct (same_key_dtype _) eqn:Hsame; [|done].
    apply keys_agree_spec in Hsame.
    rewrite (Hsame s c df s' c' df' Hin Hin' Hl Hl') in Ht. congruence.
  - intros Hsame.
    assert (Hex : ∃ df df', df ∈ map snd (loaded_frames dir y)
                            ∧ df' ∈ map snd (loaded_frames dir y)
                            ∧ int64_keys df = true ∧ int64_keys df' = false).
    { destruct (map snd (loaded_frames dir y)) as [|first rest]; [done|].
      cbn [same_key_dtype] in Hsame.
      assert (Hd : ∃ d, d ∈ rest
                        ∧ Bool.eqb (int64_keys d) (int64_keys first) = false).
      { clear -Hsame. induction rest as [|d rest IH]; [done|].
        cbn [forallb] in Hsame. apply andb_false_iff in Hsame as [H|H].
        - exists d. split; [by constructor|done].
        - destruct (IH H) as (d' & Hd' & Hn). exists d'.
          split; [by constructor|done]. }
      destruct Hd as (d & Hd & Hn).
      destruct (int64_keys d) eqn:H1, (int64_keys first) eqn:H2; try done.
      - exists d, first. repeat split; try done;
          [constructor; exact Hd|by constructor].
      - exists first, d. repeat split; try done;
          [by constructor|constructor; exact Hd]. }
    destruct Hex as (df & df' & Hdf & Hdf' & Ht & Hf).
    apply elem_of_list_map in Hdf
      as ([c d] & -> & (s & Hin & Hl)%elem_of_loaded_frames).
    apply elem_of_list_map in Hdf'
      as ([c' d'] & -> & (s' & Hin' & Hl')%elem_of_loaded_frames).
    by exists s, c, d, s', c', d'.
Qed.

(** The two ways in which [build_for_year] raises. *)
Lemma build_for_year_Raise (dir : inter_dir) (y : Z) (e : exn) :
  build_for_year dir y = Raise e ->
  (no_data dir y
   ∧ e = NoDataForYear y (omap (skipped_of dir y) STAT_COLUMNS)
           (omap (empty_of dir y) STAT_COLUMNS))
  ∨ (keys_clash dir y ∧ e = MergeDtypeError).
Proof.
  rewrite build_for_year_spec.
  destruct (merged_frame dir y) as [M|] eqn:HM.
  - destruct (same_key_dtype _) eqn:Hsame; [done|].
    intros [= <-]. right. split; [|done]. by apply keys_clash_spec.
  - intros [= <-]. left. split; [|done]. by apply merged_frame_None.
Qed.

Lemma build_for_year_Raise_iff (dir : inter_dir) (y : Z) :
  (∃ e, build_for_year dir y = Raise e) ↔ no_data dir y ∨ keys_clash dir y.
Proof.
  split.
  - intros [e He]. apply build_for_year_Raise in He as [[? _]|[? _]]; auto.
  - rewrite build_for_year_spec.
    intros [Hno%merged_frame_None|Hclash%keys_clash_spec].
    + rewrite Hno. eauto.
    + destruct (merged_frame dir y); [|eauto]. rewrite Hclash. eauto.
Qed.

Lemma build_for_year_succeeds (dir : inter_dir) (y : Z) (s c : string)
    (df : DataFrame) :
  (s, c) ∈ STAT_COLUMNS ->
  load_stat_for_year dir s y c = Ok (Some df) ->
  keys_agree dir y ->
  ∃ out, build_for_year dir y = Ok out.
Proof.
  intros Hin Hl Hagree%keys_agree_spec. rewrite build_for_year_spec, Hagree.
  destruct (merged_frame dir y) as [M|] eqn:HM; [eauto|].
  apply merged_frame_None in HM. by destruct (HM s c df Hin).
Qed.

Lemma skipped_and_empty (dir : inter_dir) (y : Z) (s c : string) :
  (s, c) ∈ STAT_COLUMNS ->
  (s ∈ omap (skipped_of dir y) STAT_COLUMNS
   ↔ ∃ e', load_stat_for_year dir s y c = Raise e')
  ∧ (s ∈ omap (empty_of dir y) STAT_COLUMNS
     ↔ load_stat_for_year dir s y c = Ok None).
Proof.
  intros Hin. split.
  - rewrite list_elem_of_omap. unfold skipped_of. split.
    + intros ([s' c'] & Hin' & Hs). cbn [fst snd] in Hs.
      destruct (load_stat_for_year dir s' y c') as [|e'] eqn:Hl; [done|].
      injection Hs as ->.
      rewrite (pairs_unique_fst _ _ _ _ NoDup_stat_names Hin Hin'). eauto.
    + intros [e' He']. exists (s, c). split; [done|].
      cbn [fst snd]. by rewrite He'.
  - rewrite list_elem_of_omap. unfold empty_of. split.
    + intros ([s' c'] & Hin' & Hs). cbn [fst snd] in Hs.
      destruct (load_stat_for_year dir s' y c') as [[df|]|e'] eqn:Hl;
        try done.
      injection Hs as ->.
      by rewrite (pairs_unique_fst _ _ _ _ NoDup_stat_names Hin Hin').
    + intros He'. exists (s, c). split; [done|].
      cbn [fst snd]. by rewrite He'.
Qed.


Lemma build_mixed_names :
  build_for_year mixed_names 2024 = Raise MergeDtypeError.
Proof. by vm_compute. Qed.

Lemma load_mixed_names_sg_total :
  load_stat_for_year mixed_names "sg_total" 2024 "sg_total"
  = Ok (Some {| columns := ["year"; "player_name"; "sg_total"];
                rows := [ {| year := 2024; player_name := Int 10;
                             cells := [("sg_total", Float one)] |};
                          {| year := 2024; player_name := Int 2;
                             cells := [("sg_total", Float two)] |} ] |}).
Proof. by vm_compute. Qed.


(** *** C4 *)

(** C4: whenever [build_for_year] succeeds its frame has exactly the 14
    expected columns in the expected order, whichever stats loaded;
    every row holds one cell per column; the column of a stat that did
    not load is filled with [None]; and in a successful run of [main]
    the per-year file of that year is this frame and the all-years
    file has the same 14 columns. *)
Theorem build_for_year_fixed_schema (dir : inter_dir) (y : Z)
    (df : DataFrame) :
  build_for_year dir y = Ok df ->
  columns df
  = [ "year"; "player_name"; "sg_total"; "sg_off_the_tee"; "sg_approach";
      "sg_around_green"; "sg_putting"; "driving_distance";
      "driving_accuracy"; "greens_in_regulation"; "scoring_average";
      "money_earned"; "final_season_rank"; "sg_tee_to_green" ]
  ∧ (∀ r, r ∈ rows df ->
          map fst (cells r) = value_columns expected_cols)
  ∧ (∀ s c r, (s, c) ∈ STAT_COLUMNS ->
              (∀ df', load_stat_for_year dir s y c ≠ Ok (Some df')) ->
              r ∈ rows df -> get_cell r c = PyNone)
  ∧ (∀ out out', main dir out = (out', Ok tt) ->
                 master_year out' !! y = Some df
                 ∧ ∃ m, master_player_seasons out' = Some m
                        ∧ columns m = columns df).
Proof.
  intros Hb. pose proof (build_for_year_season_frame _ _ _ Hb) as [Hc Hr].
  split; [done|]. split; [|split].
  - intros r Hin. destruct (Hr r Hin) as [f ->].
    unfold tabulate. rewrite map_map. apply map_id.
  - intros s c r Hin Hno Hrow. by eapply not_loaded_cell.
  - intros out out' Hmain.
    pose proof (build_year_discovered _ _ _ Hb) as Hy.
    assert (Hne : discover_years dir ≠ []).
    { intros Heq. rewrite Heq in Hy. by apply elem_of_nil in Hy. }
    destruct (main_Ok _ _ _ Hmain Hne) as (dfs & Hall & Hm).
    split.
    + apply list_elem_of_lookup in Hy as [i Hi].
      destruct (Forall2_lookup_l _ _ _ _ _ Hall Hi) as (d & _ & Hd1 & Hd2).
      congruence.
    + exists (concat dfs). split; [done|]. rewrite Hc.
      apply concat_columns_season.
      * intros ->. apply Forall2_nil_inv_r in Hall. done.
      * apply Forall_forall. intros d Hd.
        apply list_elem_of_lookup in Hd as [i Hi].
        destruct (Forall2_lookup_r _ _ _ _ _ Hall Hi) as (y' & _ & Hd1 & _).
        by eapply build_for_year_season_frame.
Qed.

Lemma build_for_year_fixed_schema_witness :
  columns (built two_years 2023) = expected_cols
  ∧ (main two_years empty_proc).1.(master_year) !! 2023
    = Some (built two_years 2023).
Proof.
  destruct (build_for_year_fixed_schema two_years 2023 _
              build_two_years_2023) as (Hc & _ & _ & Hm).
  split; [exact Hc|].
  apply (Hm empty_proc (main two_years empty_proc).1 main_two_years).
Defined.

(** *** C9 *)

Lemma flat_map_ext_elem {A B : Type} (f g : A -> list B) (l : list A) :
  (∀ x, x ∈ l -> f x = g x) -> flat_map f l = flat_map g l.
Proof.
  induction l as [|a l IH]; intros H; [done|]. cbn [flat_map].
  rewrite (H a) by by constructor. f_equal. apply IH.
  intros x Hx. apply H. by constructor.
Qed.

(** C9, as amended: after a successful run of [main] over at least one
    year, the years were taken in ascending order, each once; every
    year's file holds that year's frame; and the rows of the all-years
    table are the rows of those frames, concatenated in that order with
    each year's row order unchanged - each row with its key and its
    cells, except that an int64 cell is converted to float64 when its
    column holds floats in the frame of some year.  When no int64
    column meets a float column, the rows are exactly the rows of the
    per-year frames. *)
Theorem master_is_concatenation (dir : inter_dir) (out out' : proc_dir) :
  main dir out = (out', Ok tt) ->
  discover_years dir ≠ [] ->
  Sorted Z.le (discover_years dir)
  ∧ NoDup (discover_years dir)
  ∧ ∃ dfs master,
      Forall2 (fun y df => build_for_year dir y = Ok df
                           ∧ master_year out' !! y = Some df)
              (discover_years dir) dfs
      ∧ master_player_seasons out' = Some master
      ∧ master = concat dfs
      ∧ columns master = expected_cols
      ∧ rows master
        = flat_map (fun df => map (as_concatenated dfs) (rows df)) dfs
      ∧ (∀ r, key (as_concatenated dfs r) = key r
              ∧ ∀ c, c ∈ value_columns expected_cols ->
                     get_cell (as_concatenated dfs r) c = get_cell r c
                     ∨ ∃ z, get_cell r c = Int64 z
                            ∧ float64_in c dfs = true
                            ∧ get_cell (as_concatenated dfs r) c
                              = Float (of_int64 z))
      ∧ ((∀ df r c z, df ∈ dfs -> r ∈ rows df ->
                      get_cell r c = Int64 z -> float64_in c dfs = false) ->
         rows master = flat_map rows dfs).
Proof.
  intros Hmain Hne.
  split; [apply discover_years_Sorted|].
  split; [apply discover_years_NoDup|].
  destruct (main_Ok _ _ _ Hmain Hne) as (dfs & Hall & Hm).
  exists dfs, (concat dfs).
  assert (Hdfs : dfs ≠ []).
  { intros ->. apply Forall2_nil_inv_r in Hall. done. }
  assert (Hseason : Forall season_frame dfs).
  { apply Forall_forall. intros d Hd.
    apply list_elem_of_lookup in Hd as [i Hi].
    destruct (Forall2_lookup_r _ _ _ _ _ Hall Hi) as (y' & _ & Hd1 & _).
    by eapply build_for_year_season_frame. }
  split; [done|]. split; [done|]. split; [done|].
  split; [by apply concat_columns_season|].
  split; [by apply concat_rows_season|]. split.
  - intros r. split; [done|]. intros c Hc.
    rewrite get_cell_as_concatenated by done.
    destruct (float64_in c dfs) eqn:Hfl; [|by left]. cbn [cast_if].
    destruct (get_cell r c) as [| |z]; [by left|by left|right].
    by exists z.
  - intros Hint. rewrite concat_rows_season by done.
    apply flat_map_ext_elem. intros df Hdf.
    rewrite <- (map_id (rows df)) at 2. apply map_ext_in.
    intros r Hr%list_elem_of_In.
    rewrite Forall_forall in Hseason.
    apply (as_concatenated_same dfs df); [by apply Hseason|done|].
    intros c z. by apply (Hint df r).
Qed.

Lemma master_is_concatenation_witness :
  discover_years two_years = [2023; 2024]
  ∧ ∃ dfs master,
      Forall2 (fun y df =>
                 build_for_year two_years y = Ok df
                 ∧ (main two_years empty_proc).1.(master_year) !! y = Some df)
              (discover_years two_years) dfs
      ∧ (main two_years empty_proc).1.(master_player_seasons) = Some master
      ∧ rows master
        = flat_map (fun df => map (as_concatenated dfs) (rows df)) dfs.
Proof.
  split; [by vm_compute|].
  destruct (master_is_concatenation two_years empty_proc
              (main two_years empty_proc).1 main_two_years)
    as (_ & _ & dfs & master & Hall & Hm & _ & _ & Hrows & _).
  - by vm_compute.
  - exists dfs, master.
    split; [exact Hall|]. split; [exact Hm|exact Hrows].
Defined.

Lemma main_integer_then_float :
  main integer_then_float empty_proc
  = ((main integer_then_float empty_proc).1, Ok tt).
Proof. by vm_compute. Qed.

Lemma build_integer_then_float_2023 :
  build_for_year integer_then_float 2023
  = Ok (built integer_then_float 2023).
Proof. by vm_compute. Qed.

Lemma build_integer_then_float_2024 :
  build_for_year integer_then_float 2024
  = Ok (built integer_then_float 2024).
Proof. by vm_compute. Qed.

(** C9, as stated, fails: when a stat is an integer column in one year
    and a float column in another, the all-years table holds the
    integers as floats, so its rows are not the rows of the per-year
    files: [master_2023.csv] has 9007199254740993 for player A, the
    all-years file has 9007199254740992.0. *)
Lemma master_rows_not_per_year_rows :
  ¬ (∀ (dir : inter_dir) (out out' : proc_dir) (dfs : list DataFrame)
       (master : DataFrame),
        main dir out = (out', Ok tt) ->
        Forall2 (fun y df => build_for_year dir y = Ok df
                             ∧ master_year out' !! y = Some df)
                (discover_years dir) dfs ->
        master_player_seasons out' = Some master ->
        rows master = flat_map rows dfs).
Proof.
  intros H.
  assert (Hrows : rows (concat [built integer_then_float 2023;
                                built integer_then_float 2024])
                  = flat_map rows [built integer_then_float 2023;
                                   built integer_then_float 2024]).
  { apply (H integer_then_float empty_proc
             (main integer_then_float empty_proc).1).
    - exact main_integer_then_float.
    - replace (discover_years integer_then_float) with [2023; 2024]
        by by vm_compute.
      constructor; [|constructor; [|constructor]].
      + split; [exact build_integer_then_float_2023|by vm_compute].
      + split; [exact build_integer_then_float_2024|by vm_compute].
    - by vm_compute. }
  vm_compute in Hrows. discriminate Hrows.
Qed.

(** *** Players and missing stats *)

Lemma load_stat_for_year_data (dir : inter_dir) (s c : string) (y : Z)
    (header : list string) (data : table)
    (rec : record) (p : name) :
  dir !! (s, y) = Some (Csv header data) ->
  "year" ∈ header -> "player_name" ∈ header -> c ∈ header ->
  rec ∈ records data -> rec_player_name rec = Some p ->
  ∃ df, load_stat_for_year dir s y c = Ok (Some df).
Proof.
  intros Hdir Hy Hp Hc Hrec Hname. unfold load_stat_for_year. rewrite Hdir.
  destruct records as [|r0 records]; [by apply elem_of_nil in Hrec|].
  cbn [length Nat.eqb].
  rewrite !bool_decide_eq_true_2 by done. cbn [negb orb].
  fold (row_of_record c).
  assert (Hin : {| year := rec_year rec; player_name := p;
                   cells := [(c, rec_value rec)] |}
                ∈ omap (row_of_record c) (r0 :: records)).
  { apply list_elem_of_omap. exists rec. split; [done|].
    unfold row_of_record. by rewrite Hname. }
  destruct (omap (row_of_record c) (r0 :: records)) as [|x xs];
    [by apply elem_of_nil in Hin|].
  cbn [length Nat.eqb]. eauto.
Qed.

(** A player listed in a file that loads has a row in the output. *)
Lemma listed_player_in_output (dir : inter_dir) (y : Z) (out : DataFrame)
    (s c : string) (df : DataFrame) (header : list string)
    (data : table)
    (rec : record) (p : name) :
  build_for_year dir y = Ok out ->
  (s, c) ∈ STAT_COLUMNS ->
  load_stat_for_year dir s y c = Ok (Some df) ->
  dir !! (s, y) = Some (Csv header data) ->
  rec ∈ records data -> rec_player_name rec = Some p ->
  ∃ r, r ∈ rows out ∧ year r = rec_year rec ∧ player_name r = p.
Proof.
  intros Hb Hin Hl Hdir Hrec Hname.
  destruct (loaded_key_in_output dir y out s c df
              {| year := rec_year rec; player_name := p;
                 cells := [(c, rec_value rec)] |}
              Hb Hin Hl) as (r & Hr & Hk).
  - apply (loaded_row_of_record _ _ _ _ _ _ _ Hl Hdir).
    exists rec. by repeat split.
  - exists r. injection Hk as Hy Hp. by repeat split.
Qed.

(** A player not listed in a stat's file has a null cell in that stat's
    column: NaN from the outer join when the stat loaded, [None] from
    the back-fill when it did not. *)
Lemma unlisted_player_cell_null (dir : inter_dir) (y : Z) (out : DataFrame)
    (r : row) (s c : string) :
  build_for_year dir y = Ok out ->
  r ∈ rows out ->
  (s, c) ∈ STAT_COLUMNS ->
  (∀ header data rec,
      dir !! (s, y) = Some (Csv header data) ->
      rec ∈ records data ->
      ¬ (rec_year rec = year r
         ∧ rec_player_name rec = Some (player_name r))) ->
  isna (get_cell r c) = true.
Proof.
  intros Hb Hr Hin Hno.
  destruct (load_stat_for_year dir s y c) as [[df|]|e] eqn:Hl.
  - pose proof Hb as (M & HM & _ & Hrows)%build_for_year_Ok.
    rewrite Hrows in Hr. apply elem_of_build_rows in Hr as (m & Hm & ->).
    destruct (stat_column_expected s c Hin) as [Hv Hne].
    rewrite get_cell_final_row by done. unfold final_cell.
    rewrite decide_False by done.
    assert (HcF : (c, df) ∈ loaded_frames dir y)
      by (apply elem_of_loaded_frames; eauto).
    rewrite decide_True.
    2:{ apply (merged_frame_columns _ _ _ _ HM). right. eauto. }
    destruct (inv_cells _ _ (merged_frame_inv _ _ _ HM) m c df Hm HcF)
      as [(f & Hf & Hk & _)|[_ ->]]; [exfalso|done].
    pose proof Hl as (header & records & Hdir & _)%load_stat_for_year_Some.
    apply (loaded_row_of_record _ _ _ _ _ _ _ Hl Hdir) in Hf
      as (rec & Hrec & Hp & Hy & _).
    apply (Hno header records rec Hdir Hrec).
    injection Hk as Hky Hkp. cbn [year player_name final_row].
    split; congruence.
  - erewrite not_loaded_cell; [done|done|done| |done]. congruence.
  - erewrite not_loaded_cell; [done|done|done| |done]. congruence.
Qed.

(** *** C5 *)

(** C5, as amended: if at least one stat loads data for the year, the
    file of at least one stat is missing, and the stats that load agree
    on the dtype of the player names (all strings, or all int64),
    [build_for_year] returns a frame; every player listed in the file
    of a stat that loaded has a row in it; and in every row the column
    of every missing stat is [None]. *)
Theorem build_for_year_tolerates_missing_stat (dir : inter_dir) (y : Z)
    (s0 c0 : string) (df0 : DataFrame) (s1 c1 : string) :
  (s0, c0) ∈ STAT_COLUMNS ->
  load_stat_for_year dir s0 y c0 = Ok (Some df0) ->
  (s1, c1) ∈ STAT_COLUMNS ->
  dir !! (s1, y) = None ->
  keys_agree dir y ->
  ∃ out,
    build_for_year dir y = Ok out
    ∧ (∀ s c df header data rec p,
          (s, c) ∈ STAT_COLUMNS ->
          load_stat_for_year dir s y c = Ok (Some df) ->
          dir !! (s, y) = Some (Csv header data) ->
          rec ∈ records data -> rec_player_name rec = Some p ->
          ∃ r, r ∈ rows out
               ∧ year r = rec_year rec ∧ player_name r = p)
    ∧ (∀ s c r,
          (s, c) ∈ STAT_COLUMNS -> dir !! (s, y) = None ->
          r ∈ rows out ->
          get_cell r c = PyNone ∧ isna (get_cell r c) = true).
Proof.
  intros Hin0 Hl0 Hin1 Hmiss Hagree.
  destruct (build_for_year_succeeds dir y s0 c0 df0 Hin0 Hl0 Hagree)
    as [out Hb].
  exists out. split; [done|]. split.
  - intros s c df header data rec p Hin Hl Hdir Hrec Hname.
    by eapply listed_player_in_output.
  - intros s c r Hin Hdir Hr.
    assert (Hcell : get_cell r c = PyNone).
    { eapply not_loaded_cell; [done|done| |done].
      intros df. by rewrite (load_stat_for_year_missing _ _ _ _ Hdir). }
    by rewrite Hcell.
Qed.

Lemma keys_agree_two_years_2023 : keys_agree two_years 2023.
Proof. apply keys_agree_spec. by vm_compute. Qed.

Lemma build_for_year_tolerates_missing_stat_witness :
  ∃ out,
    build_for_year two_years 2023 = Ok out
    ∧ ∀ r, r ∈ rows out -> get_cell r "sg_total" = PyNone.
Proof.
  destruct (build_for_year_tolerates_missing_stat two_years 2023
              "sg_ott" "sg_off_the_tee"
              {| columns := ["year"; "player_name"; "sg_off_the_tee"];
                 rows := [ {| year := 2023; player_name := Str "A";
                              cells := [("sg_off_the_tee", Float one)] |} ] |}
              "sg_total" "sg_total")
    as (out & Hb & _ & Hnull).
  - apply list_elem_of_In. simpl. auto.
  - by vm_compute.
  - apply list_elem_of_In. simpl. auto.
  - by vm_compute.
  - exact keys_agree_two_years_2023.
  - exists out. split; [exact Hb|]. intros r Hr.
    apply (Hnull "sg_total" "sg_total" r); [|by vm_compute|exact Hr].
    apply list_elem_of_In. simpl. auto.
Defined.

(** C5, as stated, fails: with one stat whose player names are numbers,
    one whose names are strings and the other files missing,
    [build_for_year] raises. *)
Lemma build_for_year_fails_on_mixed_names :
  ¬ (∀ (dir : inter_dir) (y : Z) (s0 c0 : string) (df0 : DataFrame)
       (s1 c1 : string),
        (s0, c0) ∈ STAT_COLUMNS ->
        load_stat_for_year dir s0 y c0 = Ok (Some df0) ->
        (s1, c1) ∈ STAT_COLUMNS ->
        dir !! (s1, y) = None ->
        ∃ out, build_for_year dir y = Ok out).
Proof.
  intros H.
  destruct (H mixed_names 2024 "sg_total" "sg_total" _
              "sg_ott" "sg_off_the_tee" ltac:(by_decide)
              load_mixed_names_sg_total ltac:(by_decide)
              ltac:(by vm_compute)) as [out Hout].
  rewrite build_mixed_names in Hout. discriminate Hout.
Qed.

(** *** C7 *)

(** The two stages agree on the column of every stat ("This must match
    the stat_name -> output_col mapping from parse_stats.py"). *)
Lemma stat_columns_match_spec (s c : string) (spec : ParseStats.stat_spec) :
  (s, c) ∈ STAT_COLUMNS ->
  Py.dict_get s ParseStats.STAT_SPEC = Some spec ->
  ParseStats.output_col spec = c.
Proof.
  intros Hin Hspec.
  assert (Hall : Forall (fun sc : string * string =>
                           option_map ParseStats.output_col
                             (Py.dict_get sc.1 ParseStats.STAT_SPEC)
                           = Some sc.2) STAT_COLUMNS).
  { by_decide. }
  rewrite Forall_forall in Hall. specialize (Hall (s, c) Hin).
  cbn [fst snd] in Hall. rewrite Hspec in Hall. by injection Hall.
Qed.

Lemma read_text_Some (p q : option string) (n : name) :
  Handoff.read_text p = Some n -> Handoff.read_text q = Some n -> p = q.
Proof.
  unfold Handoff.read_text.
  destruct (Handoff.is_na p), (Handoff.is_na q); try done.
  destruct p, q; cbn [option_map]; congruence.
Qed.

Lemma NoDup_omap_inj {A B : Type} (f : A -> option B) (l : list A) :
  (∀ x y z, f x = Some z -> f y = Some z -> x = y) ->
  NoDup l -> NoDup (omap f l).
Proof.
  intros Hinj. induction l as [|a l IH]; intros Hnd; [constructor|].
  apply NoDup_cons in Hnd as [Ha Hnd]. cbn [omap list_omap].
  destruct (f a) as [b|] eqn:Hfa; [|by apply IH].
  apply NoDup_cons. split; [|by apply IH].
  intros (x & Hx & Hfx)%list_elem_of_omap.
  by rewrite (Hinj a x b Hfa Hfx) in Ha.
Qed.

(** How the names of a tidy file are read when they are not read as
    int64. *)
Lemma read_csv_names_object (names : list (option string))
    (typed : list (option name)) :
  Handoff.read_csv_names names = Some typed ->
  (∀ n, Some n ∈ typed -> is_int n = false) ->
  typed = map Handoff.read_text names.
Proof.
  unfold Handoff.read_csv_names. intros Hread Hobj.
  destruct names as [|p names].
  - cbn in Hread. by injection Hread as <-.
  - destruct (mapM Handoff.int64_literal (p :: names)) as [ints|] eqn:Hints.
    + injection Hread as <-. exfalso.
      destruct ints as [|n ints].
      { apply length_mapM in Hints. done. }
      assert (Hn : is_int (Int n) = false); [|done].
      apply Hobj. cbn [map]. by constructor.
    + destruct (_ || _); [|done]. by injection Hread as <-.
Qed.

(** The records of a tidy file that is read with string names are
    loaded as rows with distinct keys. *)
Lemma read_back_NoDup (out : ParseStats.TidyFrame) (header : list string)
    (data : table) (c : string) :
  NoDup (map ParseStats.player_name (ParseStats.tidy_rows out)) ->
  Handoff.read_back out (Csv header data) ->
  Handoff.object_names (Csv header data) ->
  NoDup (map key (omap (row_of_record c) (records data))).
Proof.
  intros Hnd (data' & Hfile & _ & Hnames) Hobj.
  injection Hfile as _ <-.
  apply read_csv_names_object in Hnames.
  2:{ intros n (rec & Hn & Hrec)%elem_of_list_map.
      by apply (Hobj header data rec n). }
  apply (NoDup_fmap_1 snd).
  assert (Hsnd : snd <$> map key (omap (row_of_record c) (records data))
                 = omap rec_player_name (records data)).
  { clear. induction (records data) as [|rec l IH]; [done|].
    cbn [omap list_omap]. unfold row_of_record at 1.
    destruct (rec_player_name rec); [|done].
    cbn [map fmap list_fmap]. by rewrite <- IH. }
  rewrite Hsnd.
  assert (Homap : omap rec_player_name (records data)
                  = omap Handoff.read_text
                      (map ParseStats.player_name (ParseStats.tidy_rows out))).
  { transitivity (omap id (map rec_player_name (records data))).
    - clear. induction (records data) as [|rec l IH]; [done|].
      cbn [map omap list_omap id]. by rewrite IH.
    - rewrite Hnames. clear.
      induction (map _ (ParseStats.tidy_rows out)) as [|p l IH]; [done|].
      cbn [map omap list_omap id]. by rewrite IH. }
  rewrite Homap. apply NoDup_omap_inj; [|done].
  intros x y z. apply read_text_Some.
Qed.

Lemma produced_frame_NoDup (to_numeric : string -> float)
    (dir : inter_dir) (y : Z) (s c : string) (df : DataFrame) :
  Handoff.produced_by_parse_one_file to_numeric dir y ->
  (∀ s file, dir !! (s, y) = Some file -> Handoff.object_names file) ->
  load_stat_for_year dir s y c = Ok (Some df) ->
  NoDup (map key (rows df)).
Proof.
  intros Hprod Hobj (header & data & Hdir & ->)%load_stat_for_year_Some.
  destruct (Hprod s _ Hdir) as (df_raw & pout & Hparse & Hfile).
  cbn [rows].
  apply (read_back_NoDup pout header); [|done|by apply (Hobj s)].
  by eapply ParseStatsFacts.parse_one_file_NoDup.
Qed.


Lemma build_normalised_2024 :
  build_for_year normalised_2024 2024 = Ok (built normalised_2024 2024).
Proof. by vm_compute. Qed.

(** The files of [normalised_2024] are what the normaliser writes. *)
Lemma normalised_2024_produced (y : Z) :
  Handoff.produced_by_parse_one_file ParseStats.to_numeric_int
    normalised_2024 y.
Proof.
  intros s file Hlook. unfold normalised_2024 in Hlook.
  apply lookup_insert_Some in Hlook as [[[= <- <-] <-]|[_ Hlook]].
  - exists ParseStatsExamples.repeated_player_table,
      (parsed "scoring_average" ParseStatsExamples.repeated_player_table).
    split; [by vm_compute|]. eexists. split; [reflexivity|].
    split; by vm_compute.
  - apply lookup_singleton_Some in Hlook as [[= <- <-] <-].
    exists distance_table, (parsed "driving_distance" distance_table).
    split; [by vm_compute|]. eexists. split; [reflexivity|].
    split; by vm_compute.
Qed.

Lemma normalised_2024_object (k : string * Z) (file : csv_file) :
  normalised_2024 !! k = Some file -> Handoff.object_names file.
Proof.
  intros Hlook header data rec n Hfile Hrec Hname. subst file.
  unfold normalised_2024 in Hlook.
  apply lookup_insert_Some in Hlook as [[_ [= <- <-]]|[_ Hlook]].
  - cbn [records map] in Hrec.
    repeat (apply elem_of_cons in Hrec as [->|Hrec];
            [by injection Hname as <-|]).
    by apply elem_of_nil in Hrec.
  - apply lookup_singleton_Some in Hlook as [_ [= <- <-]].
    cbn [records map] in Hrec.
    repeat (apply elem_of_cons in Hrec as [->|Hrec];
            [by injection Hname as <-|]).
    by apply elem_of_nil in Hrec.
Qed.


Lemma leading_zero_produced :
  Handoff.produced_by_parse_one_file ParseStats.to_numeric_int
    leading_zero 2024.
Proof.
  intros s file Hlook. unfold leading_zero in Hlook.
  apply lookup_singleton_Some in Hlook as [[= <-] <-].
  exists leading_zero_table, (parsed "scoring_average" leading_zero_table).
  split; [by vm_compute|]. eexists. split; [reflexivity|].
  split; by vm_compute.
Qed.

Lemma build_leading_zero :
  build_for_year leading_zero 2024 = Ok (built leading_zero 2024).
Proof. by vm_compute. Qed.


(** *** C3 *)

Lemma notna_number (c : cell) :
  isna c = false ->
  (∃ x, c = Float x ∧ is_nan x = false) ∨ (∃ z, c = Int64 z).
Proof.
  destruct c as [|x|z]; [done| |]; intros H; [left|right]; eauto.
Qed.

(** A number that is not infinite passes the tolerance check against
    itself. *)
Lemma cells_close_refl (t : cell) :
  isna t = false -> is_infinite t = false -> cells_close t t = true.
Proof.
  intros [(x & -> & Hx)|[z ->]]%notna_number Hinf.
  - apply within_tolerance_refl. by destruct x.
  - unfold cells_close, cell_sub, below_tolerance.
    by rewrite Z.sub_diag.
Qed.

(** The derived cell of an output row: the sum of the row's three
    component cells when the three columns were in the merged frame,
    [None] otherwise. *)
Lemma tee_to_green_cell (dir : inter_dir) (y : Z) (out : DataFrame)
    (r : row) :
  build_for_year dir y = Ok out ->
  r ∈ rows out ->
  (get_cell r "sg_tee_to_green" = tee_to_green r
   ∧ ∀ s c, (s, c) ∈ STAT_COLUMNS -> c ∈ sg_components ->
            ∃ df, load_stat_for_year dir s y c = Ok (Some df))
  ∨ get_cell r "sg_tee_to_green" = PyNone.
Proof.
  intros (M & HM & _ & ->)%build_for_year_Ok (m & Hm & ->)%elem_of_build_rows.
  assert (Hcell : get_cell (final_row M m) "sg_tee_to_green"
                  = if forallb (fun c => bool_decide (c ∈ columns M))
                         sg_components
                    then tee_to_green m else PyNone).
  { rewrite get_cell_final_row by by_decide.
    unfold final_cell. by rewrite decide_True. }
  rewrite Hcell. clear Hcell.
  destruct (forallb _ sg_components) eqn:Hb; [left|by right].
  cbn [forallb sg_components] in Hb.
  apply andb_true_iff in Hb as [H1%bool_decide_eq_true Hb].
  apply andb_true_iff in Hb as [H2%bool_decide_eq_true Hb].
  apply andb_true_iff in Hb as [H3%bool_decide_eq_true _].
  split.
  - unfold tee_to_green.
    rewrite !get_cell_final_row by by_decide.
    unfold final_cell.
    rewrite !(decide_False (P := _ = "sg_tee_to_green")) by done.
    by rewrite !decide_True by done.
  - intros s c Hin Hc.
    assert (Hcol : c ∈ columns M).
    { cbn [sg_components] in Hc.
      repeat (apply elem_of_cons in Hc as [->|Hc]; [done|]).
      by apply elem_of_nil in Hc. }
    apply (merged_frame_columns _ _ _ _ HM) in Hcol
      as [Hk|(s' & df & Hin' & Hl)].
    + destruct (stat_column_expected s c Hin) as [Hv _].
      by apply elem_of_value_columns in Hv as [? _].
    + rewrite (pairs_unique_snd _ _ _ _ NoDup_stat_columns Hin Hin'). eauto.
Qed.

(** C3, as amended: in a season row whose four cells are non-null,
    [sg_tee_to_green] is exactly the sum
    [(sg_off_the_tee + sg_approach) + sg_around_green] as pandas
    computes it on the three columns - in binary64 for float columns,
    in int64 with wrap-around for integer columns, an integer column
    being converted to float64 when it is added to a float column; the
    check [abs(t - sum) < 1e-6] holds whenever that sum is not infinite
    (the difference is zero); and the column is computed only when the
    three component stats loaded. *)
Theorem tee_to_green_is_component_sum (dir : inter_dir) (y : Z)
    (out : DataFrame) (r : row) :
  build_for_year dir y = Ok out ->
  r ∈ rows out ->
  isna (get_cell r "sg_off_the_tee") = false ->
  isna (get_cell r "sg_approach") = false ->
  isna (get_cell r "sg_around_green") = false ->
  isna (get_cell r "sg_tee_to_green") = false ->
  let sum := cell_add (cell_add (get_cell r "sg_off_the_tee")
                                (get_cell r "sg_approach"))
                      (get_cell r "sg_around_green") in
  get_cell r "sg_tee_to_green" = sum
  ∧ (is_infinite sum = false ->
     cells_close (get_cell r "sg_tee_to_green") sum = true)
  ∧ (∀ a b c,
        get_cell r "sg_off_the_tee" = Float a ->
        get_cell r "sg_approach" = Float b ->
        get_cell r "sg_around_green" = Float c ->
        get_cell r "sg_tee_to_green" = Float (fadd (fadd a b) c))
  ∧ (∀ a b c,
        get_cell r "sg_off_the_tee" = Int64 a ->
        get_cell r "sg_approach" = Int64 b ->
        get_cell r "sg_around_green" = Int64 c ->
        get_cell r "sg_tee_to_green" = Int64 (wrap64 (wrap64 (a + b) + c)))
  ∧ ∀ s col, (s, col) ∈ STAT_COLUMNS -> col ∈ sg_components ->
             ∃ df, load_stat_for_year dir s y col = Ok (Some df).
Proof.
  intros Hb Hr Ha Hb' Hc Ht sum.
  destruct (tee_to_green_cell dir y out r Hb Hr) as [[Hsum Hloaded]|Hnone].
  2:{ by rewrite Hnone in Ht. }
  fold sum in Hsum. unfold tee_to_green in Hsum. fold sum in Hsum.
  split; [done|]. split; [|split; [|split; [|done]]].
  - intros Hinf. rewrite Hsum. apply cells_close_refl; [|done].
    by rewrite <- Hsum.
  - intros a b c Ea Eb Ec. rewrite Hsum. unfold sum. by rewrite Ea, Eb, Ec.
  - intros a b c Ea Eb Ec. rewrite Hsum. unfold sum. by rewrite Ea, Eb, Ec.
Qed.

Lemma tee_to_green_is_component_sum_witness :
  row_A ∈ rows (built two_years 2024)
  ∧ get_cell row_A "sg_tee_to_green" = Float (fadd (fadd two one) one).
Proof.
  assert (Hin : row_A ∈ rows (built two_years 2024)).
  { vm_compute. by constructor. }
  split; [exact Hin|].
  assert (Hnotna : ∀ c, c ∈ "sg_tee_to_green" :: sg_components ->
                        isna (get_cell row_A c) = false).
  { intros c Hc. cbn [sg_components] in Hc.
    repeat (apply elem_of_cons in Hc as [->|Hc]; [by vm_compute|]).
    by apply elem_of_nil in Hc. }
  destruct (tee_to_green_is_component_sum two_years 2024 _ row_A
              build_two_years_2024 Hin
              (Hnotna "sg_off_the_tee" ltac:(by_decide))
              (Hnotna "sg_approach" ltac:(by_decide))
              (Hnotna "sg_around_green" ltac:(by_decide))
              (Hnotna "sg_tee_to_green" ltac:(by_decide)))
    as (_ & _ & Hfloat & _).
  apply Hfloat; by vm_compute.
Defined.

(** With integer columns the sum is an int64 sum: the largest int64
    plus 1 plus 1 wraps around. *)
Example tee_to_green_wraps :
  row_integer ∈ rows (built integer_values 2024)
  ∧ get_cell row_integer "sg_tee_to_green" = Int64 (- 2 ^ 63 + 1).
Proof. split; [vm_compute; by constructor|by vm_compute]. Qed.

Lemma build_infinite_value :
  build_for_year infinite_value 2024 = Ok (built infinite_value 2024).
Proof. by vm_compute. Qed.

(** C3, as stated, fails: with an infinite component the four cells are
    non-null, the sum and [sg_tee_to_green] are both infinite, and
    their difference is NaN, which is not below 1e-6. *)
Lemma tee_to_green_not_within_tolerance :
  ¬ (∀ (dir : inter_dir) (y : Z) (out : DataFrame) (r : row)
       (a b c t : float),
        build_for_year dir y = Ok out ->
        r ∈ rows out ->
        get_cell r "sg_off_the_tee" = Float a -> is_nan a = false ->
        get_cell r "sg_approach" = Float b -> is_nan b = false ->
        get_cell r "sg_around_green" = Float c -> is_nan c = false ->
        get_cell r "sg_tee_to_green" = Float t -> is_nan t = false ->
        within_tolerance t (fadd (fadd a b) c) = true).
Proof.
  intros H.
  assert (Hin : row_infinite ∈ rows (built infinite_value 2024)).
  { vm_compute. by constructor. }
  assert (Hfalse : within_tolerance (S754_infinity false)
                     (fadd (fadd (S754_infinity false) one) one) = true).
  { apply (H infinite_value 2024 _ row_infinite
             (S754_infinity false) one one (S754_infinity false)
             build_infinite_value Hin); by vm_compute. }
  vm_compute in Hfalse. discriminate Hfalse.
Qed.

End BuildMasterFacts.

(** ** Further properties of the merger *)

Module BuildMasterMore.
Import BuildMaster BuildMasterSpec ParseStatsExamples BuildMasterExamples.
Import BuildMasterFacts SeasonOrder.

Lemma key_leb_total (a b : row) : key_leb a b = true ∨ key_leb b a = true.
Proof.
  unfold key_leb.
  destruct (Z.ltb_spec (year a) (year b)); [by left|].
  destruct (Z.ltb_spec (year b) (year a)); [by right|].
  assert (Heq : year a = year b) by lia.
  rewrite Heq, Z.eqb_refl. cbn [orb andb].
  destruct (player_name a) as [s|m], (player_name b) as [t|n];
    cbn [name_leb]; [apply String.leb_total|by right|by left|].
  rewrite !Z.leb_le. lia.
Qed.

Lemma key_leb_le (a b : row) :
  is_int (player_name a) = is_int (player_name b) ->
  key_leb a b = true -> key_le a b.
Proof.
  unfold key_leb, key_le.
  intros Hdt [Hlt|[Heq Hle]%andb_true_iff]%orb_true_iff.
  - left. by apply Z.ltb_lt.
  - right. split; [by apply Z.eqb_eq|].
    destruct (player_name a), (player_name b); try done.
    by apply Z.leb_le.
Qed.

(** The names of a file, and of the frame it is loaded as, are of one
    dtype. *)
Lemma records_one_dtype (data : table) :
  ∃ b, ∀ rec n, rec ∈ records data -> rec_player_name rec = Some n ->
                is_int n = b.
Proof.
  destruct data as [l|l|l|l]; [exists false|exists false|exists true|exists true];
    intros rec n (x & -> & _)%elem_of_list_map; cbn [rec_player_name];
    try (by intros [= <-]); by destruct (x.1.2); intros [= <-].
Qed.

Lemma loaded_one_dtype (dir : inter_dir) (s : string) (y : Z) (c : string)
    (df : DataFrame) (f : row) :
  load_stat_for_year dir s y c = Ok (Some df) ->
  f ∈ rows df ->
  int64_keys df = is_int (player_name f).
Proof.
  intros (header & data & _ & ->)%load_stat_for_year_Some Hf.
  destruct (records_one_dtype data) as [b Hb].
  assert (Hall : ∀ r, r ∈ omap (row_of_record c) (records data) ->
                      is_int (player_name r) = b).
  { intros r (rec & Hrec & Hr)%list_elem_of_omap. unfold row_of_record in Hr.
    destruct (rec_player_name rec) as [n|] eqn:Hn; [|done].
    injection Hr as <-. by apply (Hb rec). }
  cbn [rows] in Hf. rewrite (Hall f Hf). destruct b.
  - by apply int64_keys_true.
  - apply int64_keys_false. by exists f; split; [|apply Hall].
Qed.

(** X1: the rows of a season frame come sorted by year and, within a
    year, by player name - by value when the names are int64, byte-wise
    when they are strings; a season frame never holds both. *)
Theorem build_for_year_sorted (dir : inter_dir) (y : Z) (out : DataFrame) :
  build_for_year dir y = Ok out ->
  Sorted key_le (rows out)
  ∧ ∀ r r', r ∈ rows out -> r' ∈ rows out ->
            is_int (player_name r) = is_int (player_name r').
Proof.
  intros Hb.
  assert (Hone : ∀ r r', r ∈ rows out -> r' ∈ rows out ->
                         is_int (player_name r) = is_int (player_name r')).
  { pose proof (build_for_year_Ok_dtype _ _ _ Hb) as Hagree%keys_agree_spec.
    destruct (build_for_year_Ok _ _ _ Hb) as (M & HM & _ & ->).
    assert (Hflag : ∀ r, r ∈ stable_sort key_leb (map (final_row M) (rows M)) ->
              ∃ s c df, (s, c) ∈ STAT_COLUMNS
                        ∧ load_stat_for_year dir s y c = Ok (Some df)
                        ∧ int64_keys df = is_int (player_name r)).
    { intros r (m & Hm & ->)%elem_of_build_rows.
      destruct (inv_keys_from _ _ (merged_frame_inv _ _ _ HM) m Hm)
        as (c & F & f & (s & Hin & Hl)%elem_of_loaded_frames & Hf & Hk).
      exists s, c, F. split; [done|]. split; [done|].
      rewrite (loaded_one_dtype _ _ _ _ _ f Hl Hf).
      cbn [final_row player_name]. by injection Hk as _ ->. }
    intros r r' (s & c & df & Hin & Hl & <-)%Hflag
                (s' & c' & df' & Hin' & Hl' & <-)%Hflag.
    by apply (Hagree s c df s' c' df'). }
  split; [|done].
  destruct (build_for_year_Ok _ _ _ Hb) as (M & _ & _ & Hrows).
  rewrite Hrows in *.
  eapply Sorted_weaken_elem;
    [|apply stable_sort_Sorted, key_leb_total].
  intros a b Ha Hb'. apply key_leb_le. by apply Hone.
Qed.

Lemma build_for_year_sorted_witness :
  Sorted key_le (rows (built two_years 2024))
  ∧ map player_name (rows (built two_years 2024)) = [Str "A"; Str "B"].
Proof.
  split; [|by vm_compute].
  apply (build_for_year_sorted two_years 2024 _ build_two_years_2024).
Defined.

(** Names that are numbers are ordered as numbers: 2 before 10. *)
Example numbered_players_sorted :
  map player_name (rows (built numbered_players 2024)) = [Int 2; Int 10].
Proof. by vm_compute. Qed.

Lemma build_for_year_rows_from_files_aux (dir : inter_dir) (y : Z)
    (out : DataFrame) (r : row) :
  build_for_year dir y = Ok out ->
  r ∈ rows out ->
  ∃ s header data rec,
    dir !! (s, y) = Some (Csv header data)
    ∧ rec ∈ records data
    ∧ rec_year rec = year r.
Proof.
  intros (M & HM & _ & ->)%build_for_year_Ok (m & Hm & ->)%elem_of_build_rows.
  destruct (inv_keys_from _ _ (merged_frame_inv _ _ _ HM) m Hm)
    as (c & F & f & HcF & Hf & Hk).
  apply elem_of_loaded_frames in HcF as (s & Hin & Hl).
  pose proof Hl as (header & data & Hdir & _)%load_stat_for_year_Some.
  apply (loaded_row_of_record _ _ _ _ _ _ _ Hl Hdir) in Hf
    as (rec & Hrec & Hp & Hy & _).
  exists s, header, data, rec. repeat split; try done.
  rewrite Hy. by injection Hk.
Qed.

(** X2: [build_for_year] invents no row: every row of the season frame
    stands for a record, with a player name, of the tidy file of some
    configured stat that loaded. *)
Theorem build_for_year_rows_from_files (dir : inter_dir) (y : Z)
    (out : DataFrame) (r : row) :
  build_for_year dir y = Ok out ->
  r ∈ rows out ->
  ∃ s c header data rec,
    (s, c) ∈ STAT_COLUMNS
    ∧ dir !! (s, y) = Some (Csv header data)
    ∧ rec ∈ records data
    ∧ record_of_row rec r.
Proof.
  intros (M & HM & _ & ->)%build_for_year_Ok (m & Hm & ->)%elem_of_build_rows.
  destruct (inv_keys_from _ _ (merged_frame_inv _ _ _ HM) m Hm)
    as (c & F & f & HcF & Hf & Hk).
  apply elem_of_loaded_frames in HcF as (s & Hin & Hl).
  pose proof Hl as (header & data & Hdir & _)%load_stat_for_year_Some.
  apply (loaded_row_of_record _ _ _ _ _ _ _ Hl Hdir) in Hf
    as (rec & Hrec & Hp & Hy & _).
  exists s, c, header, data, rec. repeat split; try done.
  - rewrite Hy. by injection Hk.
  - rewrite Hp. cbn [final_row player_name]. f_equal. by injection Hk.
Qed.

Lemma build_for_year_rows_from_files_witness :
  ∃ s c header data rec,
    (s, c) ∈ STAT_COLUMNS
    ∧ two_years !! (s, 2024) = Some (Csv header data)
    ∧ rec ∈ records data
    ∧ record_of_row rec row_A.
Proof.
  apply (build_for_year_rows_from_files two_years 2024 _ row_A
           build_two_years_2024).
  vm_compute. by constructor.
Defined.

(** The rows [build_for_year] returns have the keys of the merged
    frame. *)
Lemma padded_build (F M out : DataFrame) :
  rows out = stable_sort key_leb (map (final_row M) (rows M)) ->
  padded F out = padded F M.
Proof.
  intros Hrows. apply padded_ext. intros k. rewrite Hrows.
  rewrite !elem_of_list_map. split.
  - intros (r & -> & (m & Hm & ->)%elem_of_build_rows).
    exists m. by rewrite key_final_row.
  - intros (m & -> & Hm). exists (final_row M m).
    split; [by rewrite key_final_row|].
    apply elem_of_build_rows. by exists m.
Qed.

(** X3: the cell of a stat that loaded is taken from the stat's tidy
    file: it is the value of a record of that file for the row's year
    and player, or NaN when the file has no such record.  The value
    is kept as it was read when every row of the season frame has a
    record in the file; when some row has none, the column holds a
    NaN and is float64, and an int64 value of the file stands in it
    converted to float64 (a float is never changed). *)
Theorem build_for_year_cell_from_file (dir : inter_dir) (y : Z)
    (out : DataFrame) (r : row) (s c : string) (df : DataFrame)
    (header : list string) (data : table) :
  build_for_year dir y = Ok out ->
  r ∈ rows out ->
  (s, c) ∈ STAT_COLUMNS ->
  load_stat_for_year dir s y c = Ok (Some df) ->
  dir !! (s, y) = Some (Csv header data) ->
  ((∃ rec, rec ∈ records data ∧ record_of_row rec r
           ∧ get_cell r c = cast_if (padded df out) (rec_value rec))
   ∨ ((∀ rec, rec ∈ records data -> ¬ record_of_row rec r)
      ∧ get_cell r c = NaN))
  ∧ (padded df out = false
     ↔ ∀ r', r' ∈ rows out ->
             ∃ rec, rec ∈ records data ∧ record_of_row rec r').
Proof.
  intros Hb Hr Hin Hl Hdir. split.
  - destruct (build_for_year_Ok _ _ _ Hb) as (M & HM & _ & Hrows).
    rewrite (padded_build df M out Hrows).
    rewrite Hrows in Hr. apply elem_of_build_rows in Hr as (m & Hm & ->).
    destruct (stat_column_expected s c Hin) as [Hv Hne].
    rewrite get_cell_final_row by done. unfold final_cell.
    rewrite decide_False by done.
    assert (HcF : (c, df) ∈ loaded_frames dir y)
      by (apply elem_of_loaded_frames; eauto).
    rewrite decide_True.
    2:{ apply (merged_frame_columns _ _ _ _ HM). right. eauto. }
    destruct (inv_cells _ _ (merged_frame_inv _ _ _ HM) m c df Hm HcF)
      as [(f & Hf & Hk & Hheld)|[Hno ->]].
    + left.
      apply (loaded_row_of_record _ _ _ _ _ _ _ Hl Hdir) in Hf
        as (rec & Hrec & Hp & Hy & Hc).
      exists rec. split; [done|]. injection Hk as Hky Hkp. split.
      * split; cbn [final_row year player_name]; congruence.
      * assert (Hfc : get_cell f c = rec_value rec).
        { unfold get_cell. rewrite Hc. cbn [Py.dict_get].
          by rewrite String.eqb_refl. }
        by rewrite Hheld, Hfc.
    + right. split; [|done]. intros rec Hrec [Hy Hp].
      cbn [final_row year player_name] in Hy, Hp.
      apply (Hno {| year := rec_year rec; player_name := player_name m;
                    cells := [(c, rec_value rec)] |}).
      * apply (loaded_row_of_record _ _ _ _ _ _ _ Hl Hdir). by exists rec.
      * unfold key. cbn [year player_name]. by rewrite Hy.
  - rewrite <- not_true_iff_false, padded_true. split.
    + intros Hno r' Hr'.
      destruct (decide (key r' ∈ map key (rows df))) as [Hk|Hk].
      * apply elem_of_list_map in Hk as (f & Hk & Hf).
        apply (loaded_row_of_record _ _ _ _ _ _ _ Hl Hdir) in Hf
          as (rec & Hrec & Hp & Hy & _).
        exists rec. split; [done|]. injection Hk as Hky Hkp.
        split; congruence.
      * exfalso. apply Hno. by exists r'.
    + intros Hall (r' & Hr' & Hn).
      destruct (Hall r' Hr') as (rec & Hrec & Hy & Hp).
      apply Hn, elem_of_list_map.
      exists {| year := rec_year rec; player_name := player_name r';
                cells := [(c, rec_value rec)] |}.
      split; [unfold key; cbn [year player_name]; by rewrite Hy|].
      apply (loaded_row_of_record _ _ _ _ _ _ _ Hl Hdir). by exists rec.
Qed.

Lemma build_for_year_cell_from_file_witness :
  get_cell row_A "sg_off_the_tee" = Float two.
Proof.
  destruct (build_for_year_cell_from_file two_years 2024 _ row_A
              "sg_ott" "sg_off_the_tee"
              {| columns := ["year"; "player_name"; "sg_off_the_tee"];
                 rows := [ {| year := 2024; player_name := Str "B";
                              cells := [("sg_off_the_tee", Float one)] |};
                           {| year := 2024; player_name := Str "A";
                              cells := [("sg_off_the_tee", Float two)] |} ] |}
              ["year"; "player_name"; "sg_off_the_tee"]
              (ObjectFloat64 [tidy 2024 "B" one; tidy 2024 "A" two])
              build_two_years_2024)
    as [[(rec & Hrec & _ & Hcell)|[_ Hcell]] _].
  - vm_compute. by constructor.
  - by_decide.
  - by vm_compute.
  - by vm_compute.
  - by vm_compute.
  - by vm_compute in Hcell.
Defined.

(** *** Loading one tidy file *)

(** X4: a frame returned by [load_stat_for_year] is never empty; it has
    exactly the columns year, player_name and the stat's column; its rows
    are the file's records that have a player name, in file order, each
    with the record's year and value. *)
Theorem load_stat_for_year_frame (dir : inter_dir) (s : string) (y : Z)
    (c : string) (df : DataFrame) :
  load_stat_for_year dir s y c = Ok (Some df) ->
  columns df = ["year"; "player_name"; c]
  ∧ rows df ≠ []
  ∧ ∃ header data,
      dir !! (s, y) = Some (Csv header data)
      ∧ map (fun r => (year r, Some (player_name r), get_cell r c)) (rows df)
        = map (fun rec => (rec_year rec, rec_player_name rec,
                           rec_value rec))
              (filter (fun rec => rec_player_name rec ≠ None)
                 (records data)).
Proof.
  intros Hl.
  pose proof (load_stat_for_year_nonempty _ _ _ _ _ Hl) as Hne.
  pose proof Hl as (header & data & Hdir & ->)%load_stat_for_year_Some.
  split; [done|]. split; [done|].
  exists header, data. split; [done|]. cbn [rows].
  clear. induction (records data) as [|rec l IH]; [done|].
  cbn [omap list_omap]. unfold row_of_record at 1.
  destruct (rec_player_name rec) as [p|] eqn:Hp.
  - rewrite filter_cons_True by by rewrite Hp.
    cbn [map]. rewrite IH, Hp. f_equal.
    unfold get_cell. cbn [cells year player_name Py.dict_get].
    by rewrite String.eqb_refl.
  - rewrite filter_cons_False by (rewrite Hp; by intros []).
    apply IH.
Qed.

Lemma load_stat_for_year_frame_witness :
  ∃ df, load_stat_for_year two_years "sg_ott" 2024 "sg_off_the_tee"
        = Ok (Some df)
        ∧ columns df = ["year"; "player_name"; "sg_off_the_tee"]
        ∧ rows df ≠ [].
Proof.
  eexists. split; [by vm_compute|].
  destruct (load_stat_for_year_frame two_years "sg_ott" 2024
              "sg_off_the_tee" _ ltac:(by vm_compute)) as (Hc & Hr & _).
  split; [exact Hc|exact Hr].
Defined.

(** X5: [load_stat_for_year] reports a file as empty ([None]) exactly
    when the file exists and parses and either has no record at all -
    whatever its header - or has the three expected columns and no
    record with a player name. *)
Theorem load_stat_for_year_None_iff (dir : inter_dir) (s : string) (y : Z)
    (c : string) :
  load_stat_for_year dir s y c = Ok None
  ↔ ∃ header data,
      dir !! (s, y) = Some (Csv header data)
      ∧ (records data = []
         ∨ ("year" ∈ header ∧ "player_name" ∈ header ∧ c ∈ header
            ∧ ∀ rec, rec ∈ records data -> rec_player_name rec = None)).
Proof.
  unfold load_stat_for_year. split.
  - destruct (dir !! (s, y)) as [[|header data]|]; try done.
    intros H. exists header, data. split; [done|].
    destruct (records data) as [|r0 recs]; [by left|right].
    cbn [length Nat.eqb] in H.
    repeat case_bool_decide; cbn [negb orb] in H; try done.
    fold (row_of_record c) in H.
    destruct (omap (row_of_record c) (r0 :: recs)) as [|x xs] eqn:Hrows;
      [|done].
    repeat split; try done. intros rec Hrec.
    destruct (rec_player_name rec) as [p|] eqn:Hp; [exfalso|done].
    assert (Hin : {| year := rec_year rec; player_name := p;
                     cells := [(c, rec_value rec)] |}
                  ∈ omap (row_of_record c) (r0 :: recs)).
    { apply list_elem_of_omap. exists rec. split; [done|].
      unfold row_of_record. by rewrite Hp. }
    rewrite Hrows in Hin. by apply elem_of_nil in Hin.
  - intros (header & data & -> & [->|(Hy & Hp & Hc & Hnone)]); [done|].
    destruct (records data) as [|r0 recs]; [done|]. cbn [length Nat.eqb].
    rewrite !bool_decide_eq_true_2 by done. cbn [negb orb].
    fold (row_of_record c).
    assert (Hrows : omap (row_of_record c) (r0 :: recs) = []).
    { induction (r0 :: recs) as [|rec l IH]; [done|].
      cbn [omap list_omap]. unfold row_of_record at 1.
      rewrite (Hnone rec) by by constructor.
      apply IH. intros rec' Hrec'. apply Hnone. by constructor. }
    by rewrite Hrows.
Qed.

(** X6: [load_stat_for_year] raises exactly when the file is missing,
    does not parse, or has records under a header that lacks one of
    year, player_name and the stat's column. *)
Theorem load_stat_for_year_Raise_iff (dir : inter_dir) (s : string) (y : Z)
    (c : string) :
  (∃ e, load_stat_for_year dir s y c = Raise e)
  ↔ dir !! (s, y) = None
    ∨ dir !! (s, y) = Some Unreadable
    ∨ ∃ header data,
        dir !! (s, y) = Some (Csv header data)
        ∧ records data ≠ []
        ∧ ¬ ("year" ∈ header ∧ "player_name" ∈ header ∧ c ∈ header).
Proof.
  unfold load_stat_for_year. split.
  - destruct (dir !! (s, y)) as [[|header data]|];
      [by right; left| |by left].
    intros [e H]. right. right. exists header, data. split; [done|].
    destruct (records data) as [|r0 recs]; [done|]. split; [done|].
    cbn [length Nat.eqb] in H. intros (Hy & Hp & Hc).
    rewrite !bool_decide_eq_true_2 in H by done. cbn [negb orb] in H.
    by destruct (Nat.eqb _ 0).
  - intros [->|[->|(header & data & -> & Hne & Hbad)]]; [by eauto..|].
    destruct (records data) as [|r0 recs]; [done|]. cbn [length Nat.eqb].
    repeat case_bool_decide; cbn [negb orb]; eauto.
    exfalso. by apply Hbad.
Qed.

(** *** The driver *)

Lemma main_loop_Raise (dir : inter_dir) (years : list Z) :
  ∀ (out : proc_dir) (acc : list DataFrame) (out' : proc_dir) (e : exn),
    main_loop dir years out acc = (out', Raise e) ->
    ∃ pre y post,
      years = pre ++ y :: post
      ∧ build_for_year dir y = Raise e
      ∧ master_player_seasons out' = master_player_seasons out
      ∧ (∀ y', y' ∉ pre -> master_year out' !! y' = master_year out !! y')
      ∧ (∀ y', y' ∈ pre ->
               ∃ df, build_for_year dir y' = Ok df
                     ∧ master_year out' !! y' = Some df).
Proof.
  induction years as [|y0 years IH]; intros out acc out' e Hrun; [done|].
  rewrite main_loop_cons in Hrun.
  destruct (build_for_year dir y0) as [d0|e0] eqn:Hb.
  - apply IH in Hrun as (pre & y & post & -> & Hy & Hm & Hout & Hin).
    exists (y0 :: pre), y, post. split; [done|]. split; [done|].
    split; [done|]. split.
    + intros y' Hy'. destruct (decide (y' ∈ pre)) as [Hp|Hp].
      * exfalso. apply Hy'. by constructor.
      * rewrite (Hout y' Hp). cbn [master_year]. apply lookup_insert_ne.
        intros ->. apply Hy'. by constructor.
    + intros y' Hy'. destruct (decide (y' ∈ pre)) as [Hp|Hp]; [by apply Hin|].
      apply elem_of_cons in Hy' as [->|Hy']; [|done].
      exists d0. split; [done|]. rewrite (Hout y0 Hp). cbn [master_year].
      apply lookup_insert_eq.
  - injection Hrun as <- <-. exists [], y0, years.
    repeat split; try done. intros y' Hy'. by apply elem_of_nil in Hy'.
Qed.

Lemma main_raises_at_a_discovered_year (dir : inter_dir)
    (out out' : proc_dir) (e : exn) :
  main dir out = (out', Raise e) ->
  ∃ y, y ∈ discover_years dir ∧ build_for_year dir y = Raise e.
Proof.
  unfold main. intros Hrun.
  destruct (discover_years dir) as [|y0 years] eqn:Hyears; [done|].
  destruct (main_loop dir (y0 :: years) out []) as [out1 [all|e1]] eqn:Hloop;
    [done|].
  injection Hrun as <- <-.
  apply main_loop_Raise in Hloop as (pre & y & post & Heq & Hy & _).
  exists y. split; [|done]. rewrite Heq. apply elem_of_app. right.
  by constructor.
Qed.



(** X8: whatever its outcome, [main] leaves the per-year file of every
    year without a tidy file as it was. *)
Theorem main_keeps_undiscovered_years (dir : inter_dir)
    (out out' : proc_dir) (res : result unit) (y : Z) :
  main dir out = (out', res) ->
  (∀ s, dir !! (s, y) = None) ->
  master_year out' !! y = master_year out !! y.
Proof.
  intros Hrun Hno.
  assert (Hy : y ∉ discover_years dir).
  { intros (s & Hs)%elem_of_discover_years. rewrite Hno in Hs.
    by destruct Hs. }
  unfold main in Hrun.
  destruct (discover_years dir) as [|y0 years] eqn:Hyears;
    [by injection Hrun as <- _|].
  destruct (main_loop dir (y0 :: years) out []) as [out1 [all|e1]] eqn:Hloop;
    injection Hrun as <- _.
  - apply main_loop_spec in Hloop as (_ & _ & _ & _ & Hout & _).
    cbn [master_year]. by apply Hout.
  - apply main_loop_Raise in Hloop
      as (pre & y1 & post & Heq & _ & _ & Hout & _).
    apply Hout. intros Hin. apply Hy. rewrite Heq.
    apply elem_of_app. by left.
Qed.

Lemma main_keeps_undiscovered_years_witness :
  (main two_years empty_proc).1.(master_year) !! 2021 = None.
Proof.
  rewrite (main_keeps_undiscovered_years two_years empty_proc
             (main two_years empty_proc).1 (Ok tt) 2021 main_two_years).
  - done.
  - intros s. unfold two_years.
    apply not_elem_of_list_to_map_1. cbn [fmap list_fmap fst].
    intros Hin. repeat (apply elem_of_cons in Hin as [[=]|Hin]).
    by apply elem_of_nil in Hin.
Defined.

(** X9: [main] returns normally exactly when a season frame can be
    built for every discovered year. *)
Theorem main_Ok_iff_every_year_builds (dir : inter_dir) (out : proc_dir) :
  (∃ out', main dir out = (out', Ok tt))
  ↔ ∀ y, y ∈ discover_years dir -> ∃ df, build_for_year dir y = Ok df.
Proof.
  split.
  - intros [out' Hrun] y Hy.
    assert (Hne : discover_years dir ≠ []).
    { intros Heq. rewrite Heq in Hy. by apply elem_of_nil in Hy. }
    destruct (main_Ok _ _ _ Hrun Hne) as (dfs & Hall & _).
    apply list_elem_of_lookup in Hy as [i Hi].
    destruct (Forall2_lookup_l _ _ _ _ _ Hall Hi) as (df & _ & Hb & _).
    by exists df.
  - intros Hall.
    destruct (main dir out) as [out' [[]|e]] eqn:Hrun; [by exists out'|].
    exfalso.
    destruct (main_raises_at_a_discovered_year dir out out' e Hrun)
      as (y & Hy & Hb).
    destruct (Hall y Hy) as [df Hdf]. congruence.
Qed.

(** X10: with no tidy file at all, [main] writes nothing and returns
    normally. *)
Theorem main_without_tidy_files (out : proc_dir) :
  main ∅ out = (out, Ok tt).
Proof.
  unfold main, discover_years.
  by rewrite dom_empty_L, set_map_empty, elements_empty.
Qed.

(** *** The all-years table *)

(** Rows built from files written by the normaliser carry the year of
    the file name. *)
Lemma produced_rows_year (to_numeric : string -> float) (dir : inter_dir)
    (y : Z) (out : DataFrame) (r : row) :
  Handoff.produced_by_parse_one_file to_numeric dir y ->
  build_for_year dir y = Ok out ->
  r ∈ rows out -> year r = y.
Proof.
  intros Hprod Hb Hr.
  destruct (build_for_year_rows_from_files_aux dir y out r Hb Hr)
    as (s & header & data & rec & Hdir & Hrec & Hy).
  destruct (Hprod s _ Hdir) as (df_raw & pout & Hparse & Hfile).
  destruct Hfile as (data' & Hfile & Hyears & _).
  injection Hfile as _ <-.
  assert (Hin : rec_year rec ∈ map rec_year (records data)).
  { apply elem_of_list_map. by exists rec. }
  rewrite Hyears in Hin. apply elem_of_list_map in Hin as (r0 & Hr0 & Hin).
  rewrite <- Hy, Hr0.
  by destruct (ParseStatsFacts.parse_one_file_notna _ _ _ _ _ r0 Hparse Hin).
Qed.

Lemma produced_rows_NoDup (to_numeric : string -> float) (dir : inter_dir)
    (y : Z) (out : DataFrame) :
  Handoff.produced_by_parse_one_file to_numeric dir y ->
  (∀ s file, dir !! (s, y) = Some file -> Handoff.object_names file) ->
  build_for_year dir y = Ok out ->
  NoDup (map key (rows out)).
Proof.
  intros Hprod Hobj (M & HM & _ & ->)%build_for_year_Ok.
  change (map key ?l) with (key <$> l).
  rewrite (stable_sort_perm key_leb _).
  change (key <$> ?l) with (map key l). rewrite map_map.
  erewrite map_ext; [|intros m; apply key_final_row].
  apply (inv_nodup _ _ (merged_frame_inv _ _ _ HM)).
  intros c F (s & _ & Hl)%elem_of_loaded_frames.
  by eapply produced_frame_NoDup.
Qed.

Lemma concat_keys (dfs : list DataFrame) :
  dfs ≠ [] -> Forall season_frame dfs ->
  map key (rows (concat dfs)) = flat_map (fun df => map key (rows df)) dfs.
Proof.
  intros Hne Hall. rewrite concat_rows_season by done.
  generalize dfs at 1. intros dfs0.
  induction dfs as [|d dfs IH]; [done|].
  cbn [flat_map]. rewrite map_app, map_map. f_equal.
  apply Forall_cons in Hall as [_ Hall].
  destruct dfs as [|d' dfs']; [done|]. by apply IH.
Qed.

Lemma master_keys_NoDup (to_numeric : string -> float) (dir : inter_dir)
    (out out' : proc_dir) :
  (∀ y, Handoff.produced_by_parse_one_file to_numeric dir y) ->
  (∀ k file, dir !! k = Some file -> Handoff.object_names file) ->
  main dir out = (out', Ok tt) ->
  discover_years dir ≠ [] ->
  ∃ master,
    master_player_seasons out' = Some master
    ∧ NoDup (map key (rows master)).
Proof.
  intros Hprod Hobj Hrun Hne.
  destruct (main_Ok _ _ _ Hrun Hne) as (dfs & Hall & Hm).
  exists (concat dfs). split; [done|].
  assert (Hdfs : dfs ≠ []).
  { intros ->. apply Forall2_nil_inv_r in Hall. done. }
  assert (Hseason : Forall season_frame dfs).
  { apply Forall_forall. intros d Hd.
    apply list_elem_of_lookup in Hd as [i Hi].
    destruct (Forall2_lookup_r _ _ _ _ _ Hall Hi) as (y' & _ & Hd1 & _).
    by eapply build_for_year_season_frame. }
  rewrite (concat_keys dfs Hdfs Hseason).
  pose proof (discover_years_NoDup dir) as Hnd.
  clear Hm Hdfs Hseason Hne Hrun.
  induction Hall as [|y d ys ds [Hb _] Hall IH]; [constructor|].
  apply NoDup_cons in Hnd as [Hy Hnd].
  cbn [flat_map]. apply NoDup_app. split; [|split].
  - eapply produced_rows_NoDup; [done| |done].
    intros s file. apply Hobj.
  - intros k (r & -> & Hr)%elem_of_list_map
           (d' & Hd' & (r' & Hk & Hr')%elem_of_list_map)%elem_of_flat_map.
    apply list_elem_of_lookup in Hd' as [i Hi].
    destruct (Forall2_lookup_r _ _ _ _ _ Hall Hi) as (y' & Hy' & Hb' & _).
    apply Hy.
    rewrite <- (produced_rows_year _ _ _ _ _ (Hprod y) Hb Hr).
    injection Hk as -> _.
    rewrite (produced_rows_year _ _ _ _ _ (Hprod y') Hb' Hr').
    by eapply list_elem_of_lookup_2.
  - by apply IH.
Qed.


Lemma main_normalised_2024 :
  main normalised_2024 empty_proc
  = ((main normalised_2024 empty_proc).1, Ok tt).
Proof. by vm_compute. Qed.


End BuildMasterMore.

(** ** Further properties of the normaliser *)

Module ParseStatsMore.
Import ParseStats ParseStatsSpec ParseStatsExamples ParseStatsFacts.

(** *** Sorting the candidates *)

(** A list whose elements all compare below each other is left as it
    is. *)
Lemma stable_sort_flat {A : Type} (le : A -> A -> bool) (l : list A) :
  (∀ x y, x ∈ l -> y ∈ l -> le x y = true) -> stable_sort le l = l.
Proof.
  induction l as [|x l IH]; intros H; [done|].
  cbn [stable_sort]. rewrite IH.
  - destruct l as [|y l]; [done|]. cbn [insert_sorted].
    rewrite H; [done|by constructor|]. constructor. by constructor.
  - intros a b Ha Hb. apply H; by constructor.
Qed.

(** The head of a list sorted by decreasing key: the first element of
    maximal key. *)
Lemma stable_sort_desc_head {A : Type} (key : A -> nat) (l : list A)
    (m : A) (t : list A) :
  stable_sort (fun x y => Nat.leb (key y) (key x)) l = m :: t ->
  ∃ pre post,
    l = pre ++ m :: post
    ∧ (∀ z, z ∈ pre -> (key z < key m)%nat)
    ∧ (∀ z, z ∈ post -> (key z <= key m)%nat).
Proof.
  revert m t. induction l as [|x l IH]; intros m t Hs; [done|].
  cbn [stable_sort] in Hs.
  destruct (stable_sort (fun x y => Nat.leb (key y) (key x)) l)
    as [|y s] eqn:Hl.
  - assert (l = []) as ->.
    { apply Permutation_nil.
      by rewrite <- (stable_sort_perm
                       (fun x y => Nat.leb (key y) (key x)) l), Hl. }
    injection Hs as <- <-. exists [], []. repeat split; try done;
      by intros z ?%elem_of_nil.
  - destruct (IH y s eq_refl) as (pre & post & -> & Hpre & Hpost).
    cbn [insert_sorted] in Hs.
    destruct (Nat.leb_spec (key y) (key x)) as [Hle|Hlt].
    + injection Hs as <- <-. exists [], (pre ++ y :: post).
      repeat split; try done; [by intros z ?%elem_of_nil|].
      intros z [Hz|[->|Hz]%elem_of_cons]%elem_of_app; [|done|].
      * specialize (Hpre z Hz). lia.
      * specialize (Hpost z Hz). lia.
    + injection Hs as <- <-. exists (x :: pre), post.
      repeat split; try done.
      intros z [->|Hz]%elem_of_cons; [done|by apply Hpre].
Qed.

(** *** The player column *)

Lemma find_player_name_column_unfold (df : RawFrame) :
  find_player_name_column df
  = match stable_sort (fun x y => Nat.leb (fst x) (fst y))
            (player_candidates (columns df)) with
    | (_, col) :: _ => Ok col
    | [] => match columns df with
            | col :: _ => Ok col
            | [] => Raise IndexError
            end
    end.
Proof. done. Qed.

Lemma player_candidates_first (pre : list string) (col : string)
    (post : list string) :
  is_player_column col = true ->
  (∀ c, c ∈ pre -> is_player_column c = false) ->
  ∃ t, stable_sort (fun x y => Nat.leb (fst x) (fst y))
         (player_candidates (pre ++ col :: post))
       = (0%nat, col) :: t.
Proof.
  intros Hcol. induction pre as [|a pre IH]; intros Hpre.
  - unfold player_candidates. cbn [app flat_map]. rewrite Hcol.
    cbn [app stable_sort].
    destruct (stable_sort _ _) as [|y s]; cbn [insert_sorted]; eauto.
  - destruct IH as [t Ht].
    { intros c Hc. apply Hpre. by constructor. }
    unfold player_candidates in *. cbn [app flat_map].
    rewrite (Hpre a) by by constructor.
    destruct (is_name_column a); [|eauto].
    cbn [app stable_sort]. rewrite Ht. cbn [insert_sorted fst Nat.leb]. eauto.
Qed.

Lemma player_candidates_no_player (cols : list string) :
  (∀ c, c ∈ cols -> is_player_column c = false) ->
  stable_sort (fun x y => Nat.leb (fst x) (fst y)) (player_candidates cols)
  = map (fun c => (1%nat, c)) (filter (fun c => is_name_column c) cols).
Proof.
  intros Hno.
  assert (Hc : player_candidates cols
               = map (fun c => (1%nat, c))
                   (filter (fun c => is_name_column c) cols)).
  { unfold player_candidates.
    induction cols as [|a cols IH]; [done|]. cbn [flat_map].
    rewrite (Hno a) by by constructor.
    rewrite IH by (intros c Hc; apply Hno; by constructor).
    destruct (is_name_column a) eqn:Ha.
    - by rewrite filter_cons_True by by apply Is_true_true.
    - by rewrite filter_cons_False by by apply Is_true_false. }
  rewrite Hc. apply stable_sort_flat.
  by intros x y (c & -> & _)%elem_of_list_map (c' & -> & _)%elem_of_list_map.
Qed.

(** X12: a column whose normalized name contains "player" and not "id"
    wins: the player column is the first such column of the table, also
    when columns containing "name" stand before it. *)
Theorem find_player_name_column_player_first (df : RawFrame) :
  (∃ c, c ∈ columns df ∧ is_player_column c = true) ->
  ∃ pre col post,
    columns df = pre ++ col :: post
    ∧ is_player_column col = true
    ∧ (∀ c, c ∈ pre -> is_player_column c = false)
    ∧ find_player_name_column df = Ok col.
Proof.
  intros Hex.
  destruct (find_first is_player_column (columns df) Hex)
    as (pre & col & post & Hcols & Hcol & Hpre & _).
  exists pre, col, post. repeat split; try done.
  rewrite find_player_name_column_unfold, Hcols.
  by destruct (player_candidates_first pre col post Hcol Hpre) as [t ->].
Qed.

Lemma find_player_name_column_player_first_witness :
  find_player_name_column
    {| columns := ["Full Name"; "PLAYER_ID"; "PLAYER"]; rows := [] |}
  = Ok "PLAYER".
Proof.
  destruct (find_player_name_column_player_first
              {| columns := ["Full Name"; "PLAYER_ID"; "PLAYER"]; rows := [] |})
    as (pre & col & post & Hcols & Hcol & Hpre & ->).
  - exists "PLAYER". split; [by_decide|by vm_compute].
  - cbn [columns] in Hcols. f_equal.
    destruct pre as [|a [|b [|c pre]]]; simplify_eq/=; try done.
    by destruct pre.
Defined.

(** X13: without such a column, the player column is the first column
    whose normalized name contains "name"; without that either, it is
    the first column of the table, and only a table without columns
    makes the function raise. *)
Theorem find_player_name_column_fallbacks (df : RawFrame) :
  (∀ c, c ∈ columns df -> is_player_column c = false) ->
  find_player_name_column df
  = match filter (fun c => is_name_column c) (columns df) with
    | col :: _ => Ok col
    | [] => match columns df with
            | col :: _ => Ok col
            | [] => Raise IndexError
            end
    end.
Proof.
  intros Hno.
  rewrite find_player_name_column_unfold, player_candidates_no_player by done.
  by destruct (filter _ (columns df)).
Qed.

Lemma find_player_name_column_fallbacks_witness :
  find_player_name_column
    {| columns := ["RANK"; "Full Name"; "AVG"]; rows := [] |}
  = Ok "Full Name".
Proof.
  rewrite find_player_name_column_fallbacks; [by vm_compute|].
  intros c Hc. cbn [columns] in Hc.
  repeat (apply elem_of_cons in Hc as [->|Hc]; [by vm_compute|]).
  by apply elem_of_nil in Hc.
Defined.

Lemma find_player_name_column_in_columns (df : RawFrame) (col : string) :
  find_player_name_column df = Ok col -> col ∈ columns df.
Proof.
  rewrite find_player_name_column_unfold.
  destruct (stable_sort _ (player_candidates (columns df)))
    as [|[n c] t] eqn:Hs.
  - destruct (columns df) as [|c0 cols]; [done|].
    intros [= <-]. by constructor.
  - assert (Hin : (n, c) ∈ player_candidates (columns df)).
    { rewrite <- (elem_of_stable_sort (fun x y => Nat.leb (fst x) (fst y))).
      rewrite Hs. by constructor. }
    apply elem_of_flat_map in Hin as (c0 & Hc0 & Hin).
    assert (c = c0) as ->.
    { destruct (is_player_column c0), (is_name_column c0);
        try (by apply elem_of_nil in Hin);
        by apply list_elem_of_singleton in Hin as [= _ ->]. }
    by intros [= <-].
Qed.

Lemma find_player_name_column_Raise (df : RawFrame) (e : exn) :
  find_player_name_column df = Raise e -> e = IndexError ∧ columns df = [].
Proof.
  rewrite find_player_name_column_unfold.
  destruct (stable_sort _ _) as [|[n c] t]; [|done].
  destruct (columns df); [|done]. by intros [= <-].
Qed.

(** X14: [find_player_name_column] raises exactly on a table without
    columns, the exception is then the [IndexError] of [df.columns[0]],
    and what it returns is always a column of the table. *)
Theorem find_player_name_column_total (df : RawFrame) :
  ((∃ e, find_player_name_column df = Raise e) ↔ columns df = [])
  ∧ (∀ e, find_player_name_column df = Raise e -> e = IndexError)
  ∧ ∀ col, find_player_name_column df = Ok col -> col ∈ columns df.
Proof.
  split; [|split].
  - split; [by intros [e [_ ?]%find_player_name_column_Raise]|].
    intros Hnil. exists IndexError.
    rewrite find_player_name_column_unfold, Hnil. by vm_compute.
  - by intros e [? _]%find_player_name_column_Raise.
  - apply find_player_name_column_in_columns.
Qed.

(** *** The value column *)

Lemma find_value_column_fallback (to_numeric : string -> float)
    (df : RawFrame) (stat_name : string) (spec : stat_spec)
    (player_col : string) :
  Py.dict_get stat_name STAT_SPEC = Some spec ->
  (∀ c, c ∈ columns df -> matches_hint spec c = false) ->
  find_player_name_column df = Ok player_col ->
  find_value_column to_numeric df stat_name
  = match stable_sort (fun x y => Nat.leb (snd y) (snd x))
            (numeric_candidates to_numeric df player_col (columns df)) with
    | [] => Raise (NoNumericColumn stat_name (columns df))
    | (best_col, _) :: _ => Ok best_col
    end.
Proof.
  intros Hspec Hno Hp. unfold find_value_column. rewrite Hspec.
  rewrite find_on_norm_map.
  assert (Hfind : find (fun col =>
                          existsb (fun h => Py.contains h
                                              (normalize_col_name col))
                            (map Py.lower (hints spec))) (columns df) = None).
  { clear Hp. induction (columns df) as [|c cols IH]; [done|]. cbn [find].
    specialize (Hno c ltac:(by constructor)) as Hc.
    unfold matches_hint in Hc. rewrite Hc. apply IH.
    intros c' Hc'. apply Hno. by constructor. }
  rewrite Hfind. cbn [option_map]. rewrite Hp. cbn [mbind result_bind].
  assert (Hc : ∀ cols,
             flat_map
               (fun col =>
                  if String.eqb col player_col then []
                  else if existsb
                            (fun b => Py.contains b (normalize_col_name col))
                            bad_keywords
                  then []
                  else
                    let s := map (coerce to_numeric) (column df col) in
                    let non_null :=
                      length (filter (fun x => negb (is_nan x)) s) in
                    if Nat.ltb 0 non_null then [(col, non_null)] else [])
               cols
             = numeric_candidates to_numeric df player_col cols).
  { unfold numeric_candidates.
    induction cols as [|c cols IH]; [done|]. cbn [flat_map]. rewrite IH.
    fold (numeric_count to_numeric df c).
    destruct (eligible player_col c
              && Nat.ltb 0 (numeric_count to_numeric df c)) eqn:Hq.
    - rewrite filter_cons_True by by apply Is_true_true.
      unfold eligible in Hq.
      destruct (String.eqb c player_col), (existsb _ bad_keywords),
               (Nat.ltb 0 (numeric_count to_numeric df c)); done.
    - rewrite filter_cons_False by by apply Is_true_false.
      unfold eligible in Hq.
      destruct (String.eqb c player_col), (existsb _ bad_keywords),
               (Nat.ltb 0 (numeric_count to_numeric df c)); done. }
  cbn zeta in Hc. by rewrite Hc.
Qed.

(** Splitting a filtered and mapped list splits the list itself. *)
Lemma map_filter_split {A B : Type} (f : A -> B) (q : A -> bool)
    (l : list A) (pre : list B) (m : B) (post : list B) :
  map f (filter (fun x => q x) l) = pre ++ m :: post ->
  ∃ lpre x lpost,
    l = lpre ++ x :: lpost ∧ q x = true ∧ f x = m
    ∧ map f (filter (fun x => q x) lpre) = pre
    ∧ map f (filter (fun x => q x) lpost) = post.
Proof.
  revert pre. induction l as [|a l IH]; intros pre Heq.
  - by destruct pre.
  - destruct (q a) eqn:Ha.
    + rewrite filter_cons_True in Heq by by apply Is_true_true.
      cbn [map] in Heq. destruct pre as [|b pre].
      * injection Heq as Hm Hpost. exists [], a, l. by repeat split.
      * injection Heq as Hb Heq.
        destruct (IH pre Heq) as (lpre & x & lpost & -> & Hx & Hm & Hp & Hq).
        exists (a :: lpre), x, lpost. repeat split; try done.
        rewrite filter_cons_True by by apply Is_true_true.
        cbn [map]. by rewrite Hb, Hp.
    + rewrite filter_cons_False in Heq by by apply Is_true_false.
      destruct (IH pre Heq) as (lpre & x & lpost & -> & Hx & Hm & Hp & Hq).
      exists (a :: lpre), x, lpost. repeat split; try done.
      by rewrite filter_cons_False by by apply Is_true_false.
Qed.

(** X15: when no column carries a hint, the value column is chosen
    among the columns other than the player column whose normalized
    name is free of the bad keywords (rank, event, round, ...): it is
    one with at least one numeric cell and the most numeric cells, the
    first such column in table order. *)
Theorem find_value_column_densest (to_numeric : string -> float)
    (df : RawFrame) (stat_name : string) (spec : stat_spec)
    (player_col best : string) :
  Py.dict_get stat_name STAT_SPEC = Some spec ->
  (∀ c, c ∈ columns df -> matches_hint spec c = false) ->
  find_player_name_column df = Ok player_col ->
  find_value_column to_numeric df stat_name = Ok best ->
  eligible player_col best = true
  ∧ (0 < numeric_count to_numeric df best)%nat
  ∧ ∃ pre post,
      columns df = pre ++ best :: post
      ∧ (∀ c, c ∈ pre -> eligible player_col c = true ->
              (numeric_count to_numeric df c
               < numeric_count to_numeric df best)%nat)
      ∧ (∀ c, c ∈ post -> eligible player_col c = true ->
              (numeric_count to_numeric df c
               <= numeric_count to_numeric df best)%nat).
Proof.
  intros Hspec Hno Hp.
  rewrite (find_value_column_fallback _ _ _ _ _ Hspec Hno Hp).
  destruct (stable_sort _ _) as [|[b n] t] eqn:Hs; [done|].
  intros [= ->].
  destruct (stable_sort_desc_head snd _ _ _ Hs)
    as (cpre & cpost & Hc & Hpre & Hpost).
  unfold numeric_candidates in Hc.
  apply map_filter_split in Hc
    as (pre & x & post & Hcols & Hx & [= -> <-] & <- & <-).
  apply andb_true_iff in Hx as [Hel Hpos%Nat.ltb_lt].
  split; [done|]. split; [done|]. exists pre, post. split; [done|].
  cbn [snd] in Hpre, Hpost. split.
  - intros c Hc Hel'.
    destruct (Nat.ltb 0 (numeric_count to_numeric df c)) eqn:Hn.
    + apply (Hpre (c, numeric_count to_numeric df c)).
      apply elem_of_list_map. exists c. split; [done|].
      apply list_elem_of_filter. split; [|done].
      apply Is_true_true. by rewrite Hel', Hn.
    + apply Nat.ltb_ge in Hn. lia.
  - intros c Hc Hel'.
    destruct (Nat.ltb 0 (numeric_count to_numeric df c)) eqn:Hn.
    + apply (Hpost (c, numeric_count to_numeric df c)).
      apply elem_of_list_map. exists c. split; [done|].
      apply list_elem_of_filter. split; [|done].
      apply Is_true_true. by rewrite Hel', Hn.
    + apply Nat.ltb_ge in Hn. lia.
Qed.

Lemma no_hint_table_no_hint (c : string) :
  c ∈ columns no_hint_table ->
  matches_hint {| output_col := "money_earned";
                  hints := ["money"; "earnings"; "$"; "amount"] |} c = false.
Proof.
  intros Hc. cbn [columns no_hint_table] in Hc.
  repeat (apply elem_of_cons in Hc as [->|Hc]; [by vm_compute|]).
  by apply elem_of_nil in Hc.
Qed.

Lemma find_value_column_densest_witness :
  find_value_column to_numeric_int no_hint_table "money_earned" = Ok "TOTAL"
  ∧ (0 < numeric_count to_numeric_int no_hint_table "TOTAL")%nat.
Proof.
  assert (Hv : find_value_column to_numeric_int no_hint_table "money_earned"
               = Ok "TOTAL") by by vm_compute.
  split; [exact Hv|].
  destruct (find_value_column_densest to_numeric_int no_hint_table
              "money_earned"
              {| output_col := "money_earned";
                 hints := ["money"; "earnings"; "$"; "amount"] |}
              "PLAYER" "TOTAL" eq_refl no_hint_table_no_hint
              ltac:(by vm_compute) Hv) as (_ & Hpos & _).
  exact Hpos.
Defined.

Lemma find_value_column_raises_iff_aux (to_numeric : string -> float)
    (df : RawFrame) (stat_name : string) (spec : stat_spec)
    (player_col : string) :
  Py.dict_get stat_name STAT_SPEC = Some spec ->
  find_player_name_column df = Ok player_col ->
  ((∃ e, find_value_column to_numeric df stat_name = Raise e)
   ↔ ∀ c, c ∈ columns df ->
          matches_hint spec c = false
          ∧ (eligible player_col c = true ->
             numeric_count to_numeric df c = 0%nat))
  ∧ ∀ e, find_value_column to_numeric df stat_name = Raise e ->
         e = NoNumericColumn stat_name (columns df).
Proof.
  intros Hspec Hp.
  destruct (find (matches_hint spec) (columns df)) as [col|] eqn:Hfind.
  - rewrite (find_value_column_hint _ _ _ _ _ Hspec Hfind).
    apply find_some in Hfind as [Hin%list_elem_of_In Hcol].
    split; [|done]. split; [by intros [e ?]|].
    intros Hall. destruct (Hall col Hin). congruence.
  - assert (Hno : ∀ c, c ∈ columns df -> matches_hint spec c = false).
    { intros c Hc%list_elem_of_In. by apply (find_none _ _ Hfind). }
    rewrite (find_value_column_fallback _ _ _ _ _ Hspec Hno Hp).
    destruct (stable_sort _ _) as [|[b n] t] eqn:Hs.
    + assert (Hnil : numeric_candidates to_numeric df player_col (columns df)
                     = []).
      { apply Permutation_nil.
        pose proof (stable_sort_perm
                      (fun x y => Nat.leb (snd y) (snd x))
                      (numeric_candidates to_numeric df player_col
                         (columns df))) as HP.
        by rewrite Hs in HP. }
      split; [|by intros e [= <-]]. split; [|eauto].
      intros _ c Hc. split; [by apply Hno|]. intros Hel.
      destruct (Nat.ltb 0 (numeric_count to_numeric df c)) eqn:Hn;
        [exfalso|apply Nat.ltb_ge in Hn; lia].
      assert (Hin : (c, numeric_count to_numeric df c)
                    ∈ numeric_candidates to_numeric df player_col (columns df)).
      { apply elem_of_list_map. exists c. split; [done|].
        apply list_elem_of_filter. split; [|done].
        apply Is_true_true. by rewrite Hel, Hn. }
      rewrite Hnil in Hin. by apply elem_of_nil in Hin.
    + split; [|done]. split; [by intros [e ?]|]. intros Hall. exfalso.
      assert (Hin : (b, n) ∈ numeric_candidates to_numeric df player_col
                               (columns df)).
      { rewrite <- (elem_of_stable_sort (fun x y => Nat.leb (snd y) (snd x))).
        rewrite Hs. by constructor. }
      apply elem_of_list_map in Hin as (c & [= -> ->] & Hc).
      apply list_elem_of_filter in Hc as [Hq Hc].
      apply Is_true_true, andb_true_iff in Hq as [Hel Hn%Nat.ltb_lt].
      destruct (Hall c Hc) as [_ H0]. specialize (H0 Hel). lia.
Qed.

(** X16: for a configured stat and a table with a player column,
    [find_value_column] raises exactly when no column carries a hint
    and no eligible column has a numeric cell; the exception then names
    the stat and lists the table's columns. *)
Theorem find_value_column_raises_iff (to_numeric : string -> float)
    (df : RawFrame) (stat_name : string) (spec : stat_spec)
    (player_col : string) :
  Py.dict_get stat_name STAT_SPEC = Some spec ->
  find_player_name_column df = Ok player_col ->
  ((∃ e, find_value_column to_numeric df stat_name = Raise e)
   ↔ ∀ c, c ∈ columns df ->
          matches_hint spec c = false
          ∧ (eligible player_col c = true ->
             numeric_count to_numeric df c = 0%nat))
  ∧ ∀ e, find_value_column to_numeric df stat_name = Raise e ->
         e = NoNumericColumn stat_name (columns df).
Proof. apply find_value_column_raises_iff_aux. Qed.

Lemma find_value_column_raises_iff_witness :
  find_value_column to_numeric_int
    {| columns := ["PLAYER"; "RANK"; "NOTE"];
       rows := [[RText "A"; RText "1"; RText "n/a"]] |} "money_earned"
  = Raise (NoNumericColumn "money_earned" ["PLAYER"; "RANK"; "NOTE"]).
Proof.
  destruct (find_value_column_raises_iff to_numeric_int
              {| columns := ["PLAYER"; "RANK"; "NOTE"];
                 rows := [[RText "A"; RText "1"; RText "n/a"]] |}
              "money_earned"
              {| output_col := "money_earned";
                 hints := ["money"; "earnings"; "$"; "amount"] |}
              "PLAYER" eq_refl ltac:(by vm_compute)) as [Hiff Herr].
  destruct (proj2 Hiff) as [e He].
  - intros c Hc. cbn [columns] in Hc.
    repeat (apply elem_of_cons in Hc as [->|Hc]; [by vm_compute|]).
    by apply elem_of_nil in Hc.
  - rewrite He. f_equal. by apply Herr.
Defined.

(** *** The tidy frame *)

Lemma index_of_Some (col : string) (cols : list string) :
  col ∈ cols -> ∃ i, index_of col cols = Some i.
Proof.
  induction cols as [|c cols IH]; [by intros ?%elem_of_nil|].
  intros Hin. cbn [index_of].
  destruct (String.eqb_spec col c) as [->|Hne]; [eauto|].
  apply elem_of_cons in Hin as [?|Hin]; [done|].
  destruct (IH Hin) as [i ->]. eauto.
Qed.

Lemma find_value_column_in_columns (to_numeric : string -> float)
    (df : RawFrame) (stat_name col : string) :
  find_value_column to_numeric df stat_name = Ok col -> col ∈ columns df.
Proof.
  intros Hv.
  destruct (Py.dict_get stat_name STAT_SPEC) as [spec|] eqn:Hspec.
  2:{ unfold find_value_column in Hv. by rewrite Hspec in Hv. }
  destruct (find (matches_hint spec) (columns df)) as [c|] eqn:Hfind.
  - rewrite (find_value_column_hint _ _ _ _ _ Hspec Hfind) in Hv.
    injection Hv as <-. by apply find_some in Hfind as [?%list_elem_of_In _].
  - assert (Hno : ∀ c, c ∈ columns df -> matches_hint spec c = false).
    { intros c Hc%list_elem_of_In. by apply (find_none _ _ Hfind). }
    destruct (find_player_name_column df) as [pc|e] eqn:Hp.
    + rewrite (find_value_column_fallback _ _ _ _ _ Hspec Hno Hp) in Hv.
      destruct (stable_sort _ _) as [|[b n] t] eqn:Hs; [done|].
      injection Hv as ->.
      assert (Hin : (col, n) ∈ numeric_candidates to_numeric df pc
                                 (columns df)).
      { rewrite <- (elem_of_stable_sort (fun x y => Nat.leb (snd y) (snd x))).
        rewrite Hs. by constructor. }
      apply elem_of_list_map in Hin as (c & [= -> ->] & Hc).
      by apply list_elem_of_filter in Hc as [_ Hc].
    + unfold find_value_column in Hv. rewrite Hspec, find_on_norm_map in Hv.
      unfold matches_hint in Hfind. rewrite Hfind in Hv. cbn in Hv.
      by rewrite Hp in Hv.
Qed.

Lemma records_by_row (to_numeric : string -> float) (year_ : Z)
    (df : RawFrame) (pc vc : string) :
  pc ∈ columns df -> vc ∈ columns df ->
  records to_numeric year_ df pc vc
  = map (tidy_of_raw to_numeric year_ df pc vc) (rows df).
Proof.
  intros [i Hi]%index_of_Some [j Hj]%index_of_Some.
  unfold records, column, tidy_of_raw, cell_at. rewrite Hi, Hj.
  induction (rows df) as [|row l IH]; [done|].
  cbn [map combine fst snd]. by rewrite <- IH.
Qed.

Lemma drop_duplicates_from_sublist (l : list tidy_record) :
  ∀ seen, drop_duplicates_from seen l `sublist_of` l.
Proof.
  induction l as [|a l IH]; intros seen; [done|]. cbn [drop_duplicates_from].
  case_bool_decide; [by apply sublist_cons|by apply sublist_skip].
Qed.

(** X17: the tidy rows are raw rows turned into records - the stripped
    text of the row's player cell with the coerced number of the same
    row's value cell - in the raw table's row order, at most one per
    raw row. *)
Theorem parse_one_file_rows_in_order (to_numeric : string -> float)
    (stat_name : string) (year_ : Z) (df : RawFrame) (out : TidyFrame) :
  parse_one_file to_numeric stat_name year_ df = Ok out ->
  ∃ player_col value_col,
    find_player_name_column df = Ok player_col
    ∧ find_value_column to_numeric df stat_name = Ok value_col
    ∧ tidy_rows out
      `sublist_of` map (tidy_of_raw to_numeric year_ df player_col value_col)
                       (rows df)
    ∧ (length (tidy_rows out) <= length (rows df))%nat.
Proof.
  intros (spec & pc & vc & _ & Hpc & Hvc & ->)%parse_one_file_Ok.
  exists pc, vc. split; [done|]. split; [done|].
  assert (Hsub : drop_duplicates (dropna (records to_numeric year_ df pc vc))
                 `sublist_of` map (tidy_of_raw to_numeric year_ df pc vc)
                                  (rows df)).
  { rewrite <- records_by_row.
    - etransitivity; [apply drop_duplicates_from_sublist|].
      apply sublist_filter.
    - by apply find_player_name_column_in_columns.
    - by eapply find_value_column_in_columns. }
  split; [done|]. cbn [tidy_rows].
  apply sublist_length in Hsub. by rewrite length_map in Hsub.
Qed.

Lemma parse_one_file_rows_in_order_witness :
  (length (tidy_rows (parsed "scoring_average" repeated_player_table)) <= 2)%nat.
Proof.
  destruct (parse_one_file_rows_in_order to_numeric_int "scoring_average"
              2024 repeated_player_table
              (parsed "scoring_average" repeated_player_table)
              ltac:(by vm_compute)) as (pc & vc & _ & _ & _ & Hlen).
  exact Hlen.
Defined.

(** X18: in every tidy frame the columns are year, player_name and the
    stat's output column, every row carries the year of the file name,
    a player name and a value that is not NaN. *)
Theorem parse_one_file_post_filter (to_numeric : string -> float)
    (stat_name : string) (year_ : Z) (df : RawFrame) (out : TidyFrame) :
  parse_one_file to_numeric stat_name year_ df = Ok out ->
  (∃ spec, Py.dict_get stat_name STAT_SPEC = Some spec
           ∧ tidy_columns out = ["year"; "player_name"; output_col spec])
  ∧ ∀ r, r ∈ tidy_rows out ->
         year r = year_ ∧ player_name r ≠ None ∧ is_nan (value r) = false.
Proof.
  intros Hparse. split.
  - apply parse_one_file_Ok in Hparse as (spec & pc & vc & Hspec & _ & _ & ->).
    by exists spec.
  - intros r Hr.
    apply parse_one_file_Ok in Hparse as (spec & pc & vc & _ & _ & _ & ->).
    cbn [tidy_rows] in Hr. unfold drop_duplicates in Hr.
    destruct (drop_duplicates_from_spec
                (dropna (records to_numeric year_ df pc vc)) [])
      as (_ & Hfirst & _).
    destruct (Hfirst r Hr) as (_ & pre & post & Heq & _).
    assert (Hin : r ∈ dropna (records to_numeric year_ df pc vc)).
    { rewrite Heq. apply elem_of_app. right. by constructor. }
    apply elem_of_dropna in Hin as [Hnotna Hin].
    apply notna_record_spec in Hnotna as [? ?]. split; [|done].
    unfold records in Hin. by apply elem_of_list_map in Hin as (nv & -> & _).
Qed.

Lemma parse_one_file_post_filter_witness :
  Forall (fun r => year r = 2024 ∧ player_name r ≠ None
                   ∧ is_nan (value r) = false)
    (tidy_rows (parsed "driving_distance" distance_table)).
Proof.
  apply Forall_forall.
  apply (parse_one_file_post_filter to_numeric_int "driving_distance" 2024
           distance_table (parsed "driving_distance" distance_table)).
  by vm_compute.
Defined.

(** X19: a file of a configured stat whose table has a column carrying
    one of the stat's hints always parses. *)
Theorem parse_one_file_succeeds_with_hint (to_numeric : string -> float)
    (stat_name : string) (year_ : Z) (df : RawFrame) (spec : stat_spec) :
  Py.dict_get stat_name STAT_SPEC = Some spec ->
  (∃ c, c ∈ columns df ∧ matches_hint spec c = true) ->
  ∃ out, parse_one_file to_numeric stat_name year_ df = Ok out.
Proof.
  intros Hspec Hex. unfold parse_one_file. rewrite Hspec.
  destruct (find_player_name_column df) as [pc|e] eqn:Hp.
  - cbn [mbind result_bind].
    destruct (find_first (matches_hint spec) (columns df) Hex)
      as (pre & col & post & _ & _ & _ & Hfind).
    rewrite (find_value_column_hint _ _ _ _ _ Hspec Hfind).
    cbn [mbind result_bind]. eauto.
  - exfalso. destruct Hex as (c & Hc & _).
    apply find_player_name_column_Raise in Hp as [_ Hnil].
    rewrite Hnil in Hc. by apply elem_of_nil in Hc.
Qed.

Lemma parse_one_file_succeeds_with_hint_witness :
  ∃ out, parse_one_file to_numeric_int "scoring_average" 2024
           null_player_table = Ok out.
Proof.
  apply (parse_one_file_succeeds_with_hint to_numeric_int "scoring_average"
           2024 null_player_table
           {| output_col := "scoring_average";
              hints := ["avg"; "average"; "mean"] |} eq_refl).
  exists "AVG". split; [by_decide|by vm_compute].
Defined.

(** X20: [parse_one_file] raises nothing but: the stat is not
    configured; the table has no column; or no value column can be
    found. *)
Theorem parse_one_file_errors (to_numeric : string -> float)
    (stat_name : string) (year_ : Z) (df : RawFrame) (e : exn) :
  parse_one_file to_numeric stat_name year_ df = Raise e ->
  (e = StatNotInSpec stat_name ∧ Py.dict_get stat_name STAT_SPEC = None)
  ∨ (e = IndexError ∧ columns df = [])
  ∨ (e = NoNumericColumn stat_name (columns df)
     ∧ ∃ spec, Py.dict_get stat_name STAT_SPEC = Some spec
               ∧ ∀ c, c ∈ columns df -> matches_hint spec c = false).
Proof.
  unfold parse_one_file.
  destruct (Py.dict_get stat_name STAT_SPEC) as [spec|] eqn:Hspec;
    [|intros [= <-]; by left].
  destruct (find_player_name_column df) as [pc|e0] eqn:Hp.
  - cbn [mbind result_bind].
    destruct (find_value_column to_numeric df stat_name) as [vc|e1] eqn:Hv;
      [done|].
    cbn [mbind result_bind]. intros [= <-]. right. right.
    destruct (find_value_column_raises_iff_aux to_numeric df stat_name spec pc
                Hspec Hp) as [Hiff Herr].
    split; [by apply Herr|]. exists spec. split; [done|].
    intros c Hc. by apply (proj1 Hiff (ex_intro _ e1 Hv) c Hc).
  - cbn [mbind result_bind]. intros [= <-]. right. left.
    by apply find_player_name_column_Raise.
Qed.

Lemma parse_one_file_errors_witness :
  parse_one_file to_numeric_int "money_earned" 2024 no_numeric_table
  = Raise (NoNumericColumn "money_earned" ["PLAYER"; "RANK"; "NOTE"])
  ∧ ∃ spec, Py.dict_get "money_earned" STAT_SPEC = Some spec.
Proof.
  assert (Hrun : parse_one_file to_numeric_int "money_earned" 2024
                   no_numeric_table
                 = Raise (NoNumericColumn "money_earned"
                            ["PLAYER"; "RANK"; "NOTE"])) by by vm_compute.
  split; [exact Hrun|].
  destruct (parse_one_file_errors to_numeric_int "money_earned" 2024
              no_numeric_table _ Hrun)
    as [[_ Hnone]|[[Hidx _]|[_ (spec & Hspec & _)]]].
  - discriminate Hnone.
  - discriminate Hidx.
  - by exists spec.
Defined.

End ParseStatsMore.

Module DownloadStatsMore.
Import DownloadStats DownloadStatsSpec.

Lemma download_stat_csv_fetch (requests_get : string -> result Response)
    (j : job) (fs : raw_dir) :
  download_stat_csv requests_get j.1.1 j.1.2 j.2 fs
  = match fetch requests_get j with
    | Ok resp => (<[path_of j := content resp]> fs, Ok tt)
    | Raise e => (fs, Raise e)
    end.
Proof.
  unfold download_stat_csv, fetch, path_of.
  destruct (requests_get _) as [resp|e]; [|done]. cbn [mbind result_bind].
  by destruct (raise_for_status resp) as [[]|e].
Qed.

Lemma run_jobs_cons (requests_get : string -> result Response)
    (j : job) (js : list job) (fs : raw_dir) :
  run_jobs requests_get (j :: js) fs
  = match fetch requests_get j with
    | Ok resp => run_jobs requests_get js (<[path_of j := content resp]> fs)
    | Raise e => (fs, Raise e)
    end.
Proof.
  cbn [run_jobs]. rewrite download_stat_csv_fetch.
  by destruct (fetch requests_get j).
Qed.

Lemma run_jobs_app (requests_get : string -> result Response)
    (js1 js2 : list job) :
  ∀ fs, run_jobs requests_get (js1 ++ js2) fs
        = match run_jobs requests_get js1 fs with
          | (fs', Ok _) => run_jobs requests_get js2 fs'
          | (fs', Raise e) => (fs', Raise e)
          end.
Proof.
  induction js1 as [|j js1 IH]; intros fs; [done|].
  rewrite <- app_comm_cons, !run_jobs_cons.
  destruct (fetch requests_get j); [apply IH|done].
Qed.

Lemma download_stats_run (requests_get : string -> result Response)
    (stats : list (string * string)) (year : Z) :
  ∀ fs, download_stats requests_get stats year fs
        = run_jobs requests_get
            (map (fun st => (st.1, st.2, year)) stats) fs.
Proof.
  induction stats as [|[stat_name stat_id] stats IH]; intros fs; [done|].
  cbn [download_stats map run_jobs fst snd].
  destruct (download_stat_csv _ _ _ _ _) as [fs' [[]|e]]; [apply IH|done].
Qed.

Lemma download_years_cons (requests_get : string -> result Response)
    (year : Z) (years : list Z) (fs : raw_dir) :
  download_years requests_get (year :: years) fs
  = match download_stats requests_get STAT_IDS year fs with
    | (fs', Ok _) => download_years requests_get years fs'
    | (fs', Raise e) => (fs', Raise e)
    end.
Proof. done. Qed.

Lemma download_years_run (requests_get : string -> result Response)
    (years : list Z) :
  ∀ fs, download_years requests_get years fs
        = run_jobs requests_get (jobs_of years STAT_IDS) fs.
Proof.
  induction years as [|year years IH]; intros fs; [done|].
  rewrite download_years_cons, download_stats_run.
  unfold jobs_of. cbn [flat_map]. rewrite run_jobs_app.
  destruct (run_jobs _ _ _) as [fs' [[]|e]]; [apply IH|done].
Qed.

Lemma written_cons (requests_get : string -> result Response)
    (j : job) (js : list job) (fs : raw_dir) :
  written requests_get (j :: js) fs
  = written requests_get js
      match fetch requests_get j with
      | Ok resp => <[path_of j := content resp]> fs
      | Raise _ => fs
      end.
Proof. done. Qed.

Lemma run_jobs_all (requests_get : string -> result Response)
    (js : list job) :
  ∀ fs, (∀ j, j ∈ js -> ∃ resp, fetch requests_get j = Ok resp) ->
        run_jobs requests_get js fs = (written requests_get js fs, Ok tt).
Proof.
  induction js as [|j js IH]; intros fs Hall; [done|].
  rewrite run_jobs_cons, written_cons.
  destruct (Hall j) as [resp ->]; [by constructor|].
  apply IH. intros j' Hj'. apply Hall. by constructor.
Qed.

Lemma written_lookup_other (requests_get : string -> result Response)
    (js : list job) (p : string) :
  ∀ fs, (∀ j, j ∈ js -> p ≠ path_of j) ->
        written requests_get js fs !! p = fs !! p.
Proof.
  induction js as [|j js IH]; intros fs Hp; [done|].
  rewrite written_cons.
  rewrite IH by (intros j' Hj'; apply Hp; by constructor).
  destruct (fetch requests_get j); [|done].
  apply lookup_insert_ne. intros Heq. by apply (Hp j); [constructor|].
Qed.

Lemma written_lookup (requests_get : string -> result Response)
    (js : list job) (j : job) (resp : Response) :
  ∀ fs, NoDup (map path_of js) ->
        j ∈ js ->
        fetch requests_get j = Ok resp ->
        written requests_get js fs !! path_of j = Some (content resp).
Proof.
  induction js as [|j0 js IH]; intros fs Hnd Hin Hfetch;
    [by apply elem_of_nil in Hin|].
  cbn [map] in Hnd. apply NoDup_cons in Hnd as [Hfresh Hnd].
  rewrite written_cons.
  apply elem_of_cons in Hin as [->|Hin].
  - rewrite written_lookup_other.
    + rewrite Hfetch. apply lookup_insert_eq.
    + intros j' Hj' Heq. apply Hfresh. rewrite Heq.
      apply elem_of_list_map. by exists j'.
  - by apply IH.
Qed.

Lemma NoDup_paths : NoDup (map path_of jobs).
Proof. apply (bool_decide_unpack _). by vm_compute. Qed.

Lemma elem_of_jobs (stat_name stat_id : string) (year : Z) :
  (stat_name, stat_id, year) ∈ jobs
  ↔ (stat_name, stat_id) ∈ STAT_IDS ∧ year ∈ YEARS.
Proof.
  unfold jobs, jobs_of. split.
  - intros (y & Hy & Hin)%elem_of_flat_map.
    apply elem_of_list_map in Hin as ([s i] & [= -> -> ->] & Hst). done.
  - intros [Hst Hy]. apply elem_of_flat_map. exists year. split; [done|].
    apply elem_of_list_map. by exists (stat_name, stat_id).
Qed.

(** X21: when every request of the run is answered with a status
    outside 4xx and 5xx, [main] ends without an exception; afterwards
    the raw file of every configured stat and every year holds the
    bytes of the response to that stat's request, and every other file
    is as before. *)
Theorem main_downloads_every_file
    (requests_get : string -> result Response) (fs : raw_dir) :
  (∀ stat_name stat_id year,
     (stat_name, stat_id) ∈ STAT_IDS -> year ∈ YEARS ->
     ∃ resp, requests_get (BASE_URL stat_id year) = Ok resp
             ∧ ¬ (400 <= status_code resp < 600)) ->
  ∃ fs',
    main requests_get fs = (fs', Ok tt)
    ∧ (∀ stat_name stat_id year resp,
         (stat_name, stat_id) ∈ STAT_IDS -> year ∈ YEARS ->
         requests_get (BASE_URL stat_id year) = Ok resp ->
         fs' !! out_path stat_name year = Some (content resp))
    ∧ (∀ path,
         (∀ stat_name stat_id year,
            (stat_name, stat_id) ∈ STAT_IDS -> year ∈ YEARS ->
            path ≠ out_path stat_name year) ->
         fs' !! path = fs !! path).
Proof.
  intros Hall.
  assert (Hfetch : ∀ j, j ∈ jobs ->
            ∃ resp, requests_get (BASE_URL j.1.2 j.2) = Ok resp
                    ∧ fetch requests_get j = Ok resp).
  { intros [[s i] y] [Hst Hy]%elem_of_jobs.
    destruct (Hall s i y Hst Hy) as (resp & Hget & Hstatus).
    exists resp. split; [done|]. unfold fetch. cbn [fst snd]. rewrite Hget.
    cbn [mbind result_bind]. unfold raise_for_status.
    destruct ((400 <=? status_code resp) && (status_code resp <? 600))
      eqn:Hb; [|done].
    apply andb_true_iff in Hb as [?%Z.leb_le ?%Z.ltb_lt]. lia. }
  exists (written requests_get jobs fs). split; [|split].
  - unfold main. rewrite download_years_run. apply run_jobs_all.
    intros j Hj. destruct (Hfetch j Hj) as (resp & _ & ?). eauto.
  - intros s i y resp Hst Hy Hget.
    assert (Hj : (s, i, y) ∈ jobs) by by apply elem_of_jobs.
    destruct (Hfetch _ Hj) as (resp' & Hget' & Hf). cbn [fst snd] in Hget'.
    assert (resp' = resp) as -> by congruence.
    apply (written_lookup requests_get jobs (s, i, y) resp fs NoDup_paths
             Hj Hf).
  - intros path Hpath. apply written_lookup_other.
    intros [[s i] y] [Hst Hy]%elem_of_jobs. by apply (Hpath s i y).
Qed.

Lemma main_downloads_every_file_witness :
  (main always_ok ∅).2 = Ok tt
  ∧ (main always_ok ∅).1 !! out_path "sg_total" 2024 = Some [Byte.x2a].
Proof.
  destruct (main_downloads_every_file always_ok ∅) as (fs' & -> & Hin & _).
  - intros s i y _ _. eexists. split; [reflexivity|]. cbn. lia.
  - split; [done|]. cbn [fst].
    apply (Hin "sg_total" "02675" 2024
             {| status_code := 200; content := [Byte.x2a] |});
      [by_decide|by_decide|done].
Defined.

(** X22: the first call of the run whose request fails or is answered
    with a 4xx or 5xx status ends [main] with that exception; the files
    of the calls before it hold their responses, and the files of that
    call and of all the calls that would have followed are as
    before. *)
Theorem main_stops_at_first_failure
    (requests_get : string -> result Response) (fs : raw_dir)
    (pre post : list job) (j : job) (e : exn) :
  jobs = pre ++ j :: post ->
  (∀ j', j' ∈ pre -> ∃ resp, fetch requests_get j' = Ok resp) ->
  fetch requests_get j = Raise e ->
  ∃ fs',
    main requests_get fs = (fs', Raise e)
    ∧ (∀ j' resp, j' ∈ pre -> fetch requests_get j' = Ok resp ->
                  fs' !! path_of j' = Some (content resp))
    ∧ (∀ j', j' ∈ j :: post -> fs' !! path_of j' = fs !! path_of j').
Proof.
  intros Hjobs Hpre Hj.
  pose proof NoDup_paths as Hnd. rewrite Hjobs, map_app in Hnd.
  apply NoDup_app in Hnd as (Hnd & Hdisj & _).
  exists (written requests_get pre fs). split; [|split].
  - unfold main. rewrite download_years_run. fold jobs.
    rewrite Hjobs, run_jobs_app, (run_jobs_all _ _ _ Hpre), run_jobs_cons.
    by rewrite Hj.
  - intros j' resp Hin Hf. by apply written_lookup.
  - intros j' Hin. apply written_lookup_other. intros j0 Hj0 Heq.
    apply (Hdisj (path_of j0)).
    + apply elem_of_list_map. by exists j0.
    + rewrite <- Heq. apply elem_of_list_map. by exists j'.
Qed.

Lemma main_stops_at_first_failure_witness :
  (main unreachable ∅).2 = Raise ConnectionError.
Proof.
  destruct (main_stops_at_first_failure unreachable ∅ []
              (tail jobs) ("sg_total", "02675", 2007) ConnectionError)
    as (fs' & Hrun & _).
  - by vm_compute.
  - by intros j' ?%elem_of_nil.
  - done.
  - by rewrite Hrun.
Defined.

End DownloadStatsMore.

(** ** The normaliser's driver and the hand-off to the builder *)

Module PipelineFacts.
Import ParseStats ParseStatsMain Handoff PipelineExamples.
Import BuildMaster BuildMasterMore.

Lemma main_cons (to_numeric : string -> float) (stat_name : string)
    (year_ : Z) (df_raw : RawFrame) (raws : raw_files) (dir : tidy_dir) :
  ParseStatsMain.main to_numeric ((stat_name, year_, df_raw) :: raws) dir
  = ParseStatsMain.main to_numeric raws
      match parse_one_file to_numeric stat_name year_ df_raw with
      | Ok df => <[(stat_name, year_) := df]> dir
      | Raise _ => dir
      end.
Proof.
  cbn [ParseStatsMain.main].
  by destruct (parse_one_file to_numeric stat_name year_ df_raw).
Qed.

Lemma main_lookup_other (to_numeric : string -> float) (raws : raw_files)
    (k : string * Z) :
  ∀ dir, k ∉ map fst raws ->
         ParseStatsMain.main to_numeric raws dir !! k = dir !! k.
Proof.
  induction raws as [|[[s y] df] raws IH]; intros dir Hk; [done|].
  cbn [map fst] in Hk. apply not_elem_of_cons in Hk as [Hne Hk].
  rewrite main_cons, IH by done.
  destruct (parse_one_file to_numeric s y df); [|done].
  by apply lookup_insert_ne.
Qed.

(** X23: [main] of the normaliser, on raw files with distinct names:
    a file that parses has its tidy frame written under its own name;
    a file whose parse raises is skipped, and a tidy file of that name
    left by an earlier run stays as it is; tidy files of other names
    are not touched. *)
Theorem main_writes_parsed_files (to_numeric : string -> float)
    (raws : raw_files) (dir : tidy_dir) :
  NoDup (map fst raws) ->
  (∀ stat_name year_ df_raw,
     (stat_name, year_, df_raw) ∈ raws ->
     ParseStatsMain.main to_numeric raws dir !! (stat_name, year_)
     = match parse_one_file to_numeric stat_name year_ df_raw with
       | Ok df => Some df
       | Raise _ => dir !! (stat_name, year_)
       end)
  ∧ (∀ k, k ∉ map fst raws ->
          ParseStatsMain.main to_numeric raws dir !! k = dir !! k).
Proof.
  intros Hnd. split; [|intros k Hk; by apply main_lookup_other].
  revert dir. induction raws as [|[[s y] df] raws IH];
    intros dir stat_name year_ df_raw Hin; [by apply elem_of_nil in Hin|].
  cbn [map fst] in Hnd. apply NoDup_cons in Hnd as [Hfresh Hnd].
  rewrite main_cons. apply elem_of_cons in Hin as [[= -> -> ->]|Hin].
  - rewrite main_lookup_other by done.
    destruct (parse_one_file to_numeric s y df); [|done].
    apply lookup_insert_eq.
  - rewrite (IH Hnd _ _ _ _ Hin).
    destruct (parse_one_file to_numeric stat_name year_ df_raw); [done|].
    destruct (parse_one_file to_numeric s y df); [|done].
    apply lookup_insert_ne. intros [= -> ->]. apply Hfresh.
    apply elem_of_list_map. by exists (stat_name, year_, df_raw).
Qed.

Lemma main_writes_parsed_files_witness :
  tidy_2024 !! ("driving_distance", 2024)
  = Some (ParseStatsExamples.parsed "driving_distance"
            ParseStatsExamples.distance_table)
  ∧ tidy_2024 !! ("putting", 2024) = None.
Proof.
  destruct (main_writes_parsed_files to_numeric_int raw_2024 ∅)
    as [Hin Hout].
  - apply (bool_decide_unpack _). by vm_compute.
  - split.
    + unfold tidy_2024.
      rewrite (Hin "driving_distance" 2024
                 ParseStatsExamples.distance_table); [by vm_compute|].
      unfold raw_2024. by constructor.
    + unfold tidy_2024. rewrite Hout; [done|].
      apply (bool_decide_unpack _). by vm_compute.
Defined.

(** Every tidy frame in the directory [main] leaves is an output of
    [parse_one_file] for the stat and year of its name. *)
Lemma main_from_parse (to_numeric : string -> float) (raws : raw_files) :
  ∀ dir : tidy_dir,
    (∀ s y out, dir !! (s, y) = Some out ->
                ∃ df_raw, parse_one_file to_numeric s y df_raw = Ok out) ->
    ∀ s y out,
      ParseStatsMain.main to_numeric raws dir !! (s, y) = Some out ->
      ∃ df_raw, parse_one_file to_numeric s y df_raw = Ok out.
Proof.
  induction raws as [|[[s0 y0] df0] raws IH]; intros dir Hdir; [done|].
  rewrite main_cons. apply IH.
  destruct (parse_one_file to_numeric s0 y0 df0) as [out0|e] eqn:Hparse;
    [|done].
  intros s y out Hlook.
  apply lookup_insert_Some in Hlook as [[[= <- <-] <-]|[_ Hlook]].
  - by exists df0.
  - by eapply Hdir.
Qed.

Lemma read_dir_produced (to_numeric : string -> float) (raws : raw_files)
    (dir : inter_dir) (y : Z) :
  Pipeline.read_dir (ParseStatsMain.main to_numeric raws ∅) dir ->
  produced_by_parse_one_file to_numeric dir y.
Proof.
  intros Hread s file Hlook. specialize (Hread (s, y)).
  destruct (ParseStatsMain.main to_numeric raws ∅ !! (s, y))
    as [out|] eqn:Hw.
  - destruct Hread as (file' & Hf & Hrb).
    rewrite Hlook in Hf. injection Hf as <-.
    destruct (main_from_parse to_numeric raws ∅) with (s := s) (y := y)
      (out := out) as [df_raw Hp]; [|done|by exists df_raw, out].
    intros s' y' out' Hl. by rewrite lookup_empty in Hl.
  - by rewrite Hlook in Hread.
Qed.


Lemma tidy_2024_written :
  tidy_2024
  = <[ ("scoring_average", 2024) :=
         ParseStatsExamples.parsed "scoring_average"
           ParseStatsExamples.repeated_player_table ]>
      {[ ("driving_distance", 2024) :=
           ParseStatsExamples.parsed "driving_distance"
             ParseStatsExamples.distance_table ]}.
Proof. by vm_compute. Qed.

(** [normalised_2024] is [tidy_2024] as the builder reads it. *)
Lemma read_dir_tidy_2024 :
  Pipeline.read_dir tidy_2024 BuildMasterExamples.normalised_2024.
Proof.
  intros k. rewrite tidy_2024_written.
  unfold BuildMasterExamples.normalised_2024.
  destruct (decide (k = ("scoring_average", 2024))) as [->|Hk1].
  - rewrite !lookup_insert_eq. eexists. split; [done|].
    eexists. split; [reflexivity|]. split; by vm_compute.
  - rewrite !lookup_insert_ne by done.
    destruct (decide (k = ("driving_distance", 2024))) as [->|Hk2].
    + rewrite !lookup_singleton_eq. eexists. split; [done|].
      eexists. split; [reflexivity|]. split; by vm_compute.
    + by rewrite !lookup_singleton_ne by done.
Qed.


End PipelineFacts.
